(** * analyze_branches.py: the Git branch analyzer, embedded and verified

    A shallow embedding of
    [crates/turboclaude-skills/skills/git-helper/scripts/analyze_branches.py].

    - Python [str] values are [string]s, one [ascii] per character
      (characters below U+0100).
    - Python [int] values are [Z].
    - The external [git] binary is a function from argument lists to the
      outcome of [subprocess.run]; the repository does not change during a run.
    - [datetime.now()] reads a clock; the k-th reading of a run is [now_at k].
    - [sys.stderr] is the list of diagnostics printed so far.
    - Exceptions are an error result threaded through a small monad. *)

From Stdlib Require Import ZArith List String Ascii Bool Lia Permutation Sorted.
From Stdlib Require Import DecimalString.
Import ListNotations.

Local Open Scope string_scope.
Local Open Scope list_scope.

(** ** Python string operations used by the script *)

Module PyStr.

(** [str.isspace] on one character, for characters below U+0100. *)
Definition is_space (c : ascii) : bool :=
  let n := nat_of_ascii c in
  (((9 <=? n) && (n <=? 13)) || ((28 <=? n) && (n <=? 32))
   || (n =? 133) || (n =? 160))%nat.

Definition is_empty (s : string) : bool :=
  match s with EmptyString => true | String _ _ => false end.

(** [s.lstrip()], [s.rstrip()], [s.strip()] *)
Fixpoint lstrip (s : string) : string :=
  match s with
  | EmptyString => EmptyString
  | String c s' => if is_space c then lstrip s' else s
  end.

Fixpoint rstrip (s : string) : string :=
  match s with
  | EmptyString => EmptyString
  | String c s' =>
      let r := rstrip s' in
      if is_space c && is_empty r then EmptyString else String c r
  end.

Definition strip (s : string) : string := rstrip (lstrip s).

(** [needle in hay] *)
Fixpoint contains (needle hay : string) : bool :=
  prefix needle hay ||
  match hay with
  | EmptyString => false
  | String _ hay' => contains needle hay'
  end.

(** [s.replace(old, new)] for a non-empty [old] (every call of the script
    passes a non-empty literal): occurrences are replaced from left to right
    and do not overlap.  [skip] counts the characters of the occurrence just
    replaced that are still to be passed over. *)
Fixpoint replace_from (old new : string) (skip : nat) (s : string) : string :=
  match s with
  | EmptyString => EmptyString
  | String c s' =>
      match skip with
      | S k => replace_from old new k s'
      | O =>
          if prefix old s
          then new ++ replace_from old new (String.length old - 1) s'
          else String c (replace_from old new 0 s')
      end
  end.

Definition replace (old new s : string) : string := replace_from old new 0 s.

(** [s.split(sep)] for a one-character separator: empty fields are kept. *)
Fixpoint split (sep : ascii) (s : string) : list string :=
  match s with
  | EmptyString => [EmptyString]
  | String c s' =>
      if Ascii.eqb c sep then EmptyString :: split sep s'
      else match split sep s' with
           | h :: t => String c h :: t
           | [] => [String c EmptyString]
           end
  end.

(** [s.split(sep, maxsplit)] *)
Fixpoint splitn (maxsplit : nat) (sep : ascii) (s : string) : list string :=
  match s with
  | EmptyString => [EmptyString]
  | String c s' =>
      match maxsplit with
      | O => [s]
      | S m =>
          if Ascii.eqb c sep then EmptyString :: splitn m sep s'
          else match splitn maxsplit sep s' with
               | h :: t => String c h :: t
               | [] => [String c EmptyString]
               end
      end
  end.

Definition cons_word (w : string) (ws : list string) : list string :=
  if is_empty w then ws else w :: ws.

(** The word being read at the head of [s] (possibly empty) and the words
    after it. *)
Fixpoint split_ws_aux (s : string) : string * list string :=
  match s with
  | EmptyString => (EmptyString, [])
  | String c s' =>
      let (w, ws) := split_ws_aux s' in
      if is_space c then (EmptyString, cons_word w ws) else (String c w, ws)
  end.

(** [s.split()]: the maximal runs of non-whitespace characters. *)
Definition split_ws (s : string) : list string :=
  let (w, ws) := split_ws_aux s in cons_word w ws.

Definition digit_value (c : ascii) : option Z :=
  let n := nat_of_ascii c in
  if ((48 <=? n) && (n <=? 57))%nat then Some (Z.of_nat (n - 48)) else None.

(** Decimal digits, single underscores allowed between digits. *)
Fixpoint parse_digits (acc : Z) (after_digit : bool) (s : string) : option Z :=
  match s with
  | EmptyString => if after_digit then Some acc else None
  | String c s' =>
      match digit_value c with
      | Some d => parse_digits (10 * acc + d)%Z true s'
      | None =>
          if Ascii.eqb c "_" && after_digit
          then parse_digits acc false s'
          else None
      end
  end.

(** [int(s)]: [None] stands for [ValueError]. *)
Definition int (s : string) : option Z :=
  match strip s with
  | String "+" r => parse_digits 0 false r
  | String "-" r => option_map Z.opp (parse_digits 0 false r)
  | t => parse_digits 0 false t
  end.

(** [str(n)] for an [int], as an f-string interpolates it. *)
Definition of_int (n : Z) : string := NilZero.string_of_int (Z.to_int n).

(** [s[:n]] *)
Definition take (n : nat) (s : string) : string := substring 0 n s.

(** [len(s) == 0], as the truth value of a string is used ([if s:]). *)
Definition truthy (s : string) : bool := negb (is_empty s).

(** Predicates on strings, used to state the properties. *)

Definition all_space (s : string) : Prop :=
  forall c, In c (list_ascii_of_string s) -> is_space c = true.

(** No character of [s] is whitespace. *)
Fixpoint no_space (s : string) : bool :=
  match s with
  | EmptyString => true
  | String c s' => negb (is_space c) && no_space s'
  end.

(** The character [c] does not occur in [s]. *)
Fixpoint lacks (c : ascii) (s : string) : bool :=
  match s with
  | EmptyString => true
  | String c' s' => negb (Ascii.eqb c' c) && lacks c s'
  end.

Definition starts_with_space (s : string) : bool :=
  match s with String c _ => is_space c | EmptyString => false end.

Fixpoint ends_with_space (s : string) : bool :=
  match s with
  | EmptyString => false
  | String c EmptyString => is_space c
  | String _ s' => ends_with_space s'
  end.

Definition tail (s : string) : string :=
  match s with EmptyString => EmptyString | String _ s' => s' end.

Fixpoint join (sep : ascii) (l : list string) : string :=
  match l with
  | [] => EmptyString
  | [x] => x
  | x :: rest => (x ++ String sep (join sep rest))%string
  end.

End PyStr.

Definition LF : ascii := "010"%char.

(** ** Dates *)

(** A [datetime]: its wall-clock reading in microseconds, and its UTC offset
    in microseconds when it is timezone-aware ([None] for a naive value). *)
Record datetime := mk_datetime {
  dt_wall : Z;
  dt_utcoffset : option Z
}.

Definition is_aware (d : datetime) : bool :=
  match dt_utcoffset d with Some _ => true | None => false end.

(** The instant two datetimes of the same kind are compared by. *)
Definition dt_point (d : datetime) : Z :=
  match dt_utcoffset d with
  | Some off => dt_wall d - off
  | None => dt_wall d
  end%Z.

(** [a < b]; [None] is the [TypeError] of comparing a naive with an aware
    datetime. *)
Definition dt_lt (a b : datetime) : option bool :=
  if Bool.eqb (is_aware a) (is_aware b)
  then Some (dt_point a <? dt_point b)%Z
  else None.

Definition us_per_day : Z := 86400000000.

(** [(now - d).days] for the naive [now] that [datetime.now()] returns:
    [timedelta.days] is the floor of the difference in days; [None] is the
    [TypeError] of subtracting an aware datetime from a naive one. *)
Definition days_between (now : Z) (d : datetime) : option Z :=
  match dt_utcoffset d with
  | None => Some ((now - dt_wall d) / us_per_day)%Z
  | Some _ => None
  end.

(** ** Exceptions, diagnostics and the monad of a run *)

Inductive exn :=
| UnpackError (expected got : nat)   (* ValueError: not enough / too many values to unpack *)
| InvalidIsoformat (s : string)      (* ValueError of datetime.fromisoformat *)
| InvalidIntLiteral (s : string)     (* ValueError of int() *)
| NaiveAwareError                    (* TypeError: offset-naive and offset-aware datetimes *)
| RunError (what : string).          (* what subprocess.run raises besides CalledProcessError *)

(** One outcome of [subprocess.run(['git'] + args, capture_output=True, text=True)]. *)
Inductive proc_result :=
| Exited (returncode : Z) (stdout stderr : string)
| RunRaised (what : string).

(** A line printed to [sys.stderr], kept as the values its f-string interpolates. *)
Inductive diag :=
| ErrorRunningGit (args : list string) (returncode : Z)  (* "Error running git command: {e}" *)
| StderrOf (captured : string)                           (* "stderr: {e.stderr}" *)
| ErrorGettingInfo (branch : string) (e : exn)           (* "Error getting info for branch {branch}: {e}" *)
| ErrorNotARepo                                          (* "Error: Not a git repository" *)
| ErrorDuringAnalysis (e : exn).                         (* "Error during analysis: {e}" *)

Record world := mk_world {
  clock_reads : nat;          (* how many times datetime.now() was called *)
  err_stream : list diag      (* sys.stderr, oldest line first *)
}.

Definition world0 : world := mk_world 0 [].

Inductive result (A : Type) :=
| Ok (a : A)
| Raise (e : exn).
Arguments Ok {A} a.
Arguments Raise {A} e.

Definition M (A : Type) : Type := world -> result A * world.

Definition ret {A} (a : A) : M A := fun w => (Ok a, w).

Definition raise {A} (e : exn) : M A := fun w => (Raise e, w).

Definition bind {A B} (m : M A) (k : A -> M B) : M B :=
  fun w => match m w with
           | (Ok a, w') => k a w'
           | (Raise e, w') => (Raise e, w')
           end.

(** [try: m  except Exception as e: h e] *)
Definition try_except {A} (m : M A) (h : exn -> M A) : M A :=
  fun w => match m w with
           | (Ok a, w') => (Ok a, w')
           | (Raise e, w') => h e w'
           end.

(** [print(..., file=sys.stderr)] *)
Definition eprint (d : diag) : M unit :=
  fun w => (Ok tt, mk_world (clock_reads w) (err_stream w ++ [d])).

Definition or_raise {A} (o : option A) (e : exn) : M A :=
  match o with Some a => ret a | None => raise e end.

Declare Scope run_scope.
Delimit Scope run_scope with run.
Notation "x <- m ;; k" := (bind m (fun x => k))
  (at level 61, m at next level, right associativity) : run_scope.
Notation "m ;;; k" := (bind m (fun _ => k))
  (at level 61, right associativity) : run_scope.
Local Open Scope run_scope.

(** [[f(x) for x in l]] *)
Fixpoint mapM {A B} (f : A -> M B) (l : list A) : M (list B) :=
  match l with
  | [] => ret []
  | x :: l' => y <- f x ;; ys <- mapM f l' ;; ret (y :: ys)
  end.

(** [[x for x in l if p(x)]] *)
Fixpoint filterM {A} (p : A -> M bool) (l : list A) : M (list A) :=
  match l with
  | [] => ret []
  | x :: l' =>
      b <- p x ;; ys <- filterM p l' ;; ret (if b then x :: ys else ys)
  end.

(** What the script takes from outside: the [git] binary, the clock, and the
    two [datetime] conversions of the standard library. *)
Record env := mk_env {
  git : list string -> proc_result;
  now_at : nat -> Z;
  fromisoformat : string -> option datetime;
  isoformat : datetime -> string
}.

(** ** class BranchInfo *)

Record BranchInfo := mk_BranchInfo {
  name : string;
  last_commit_date : datetime;
  last_commit_sha : string;
  last_commit_msg : string;
  author : string;
  commit_count : Z;
  is_merged : bool;
  ahead_behind : option (Z * Z)
}.

(** [BranchInfo.__init__] *)
Definition BranchInfo_init (name : string) (last_commit_date : datetime)
    (last_commit_sha last_commit_msg author : string) : BranchInfo :=
  mk_BranchInfo name last_commit_date last_commit_sha last_commit_msg author
                0%Z false None.

Definition set_commit_count (n : Z) (b : BranchInfo) : BranchInfo :=
  mk_BranchInfo (name b) (last_commit_date b) (last_commit_sha b)
                (last_commit_msg b) (author b) n (is_merged b) (ahead_behind b).

Definition set_is_merged (m : bool) (b : BranchInfo) : BranchInfo :=
  mk_BranchInfo (name b) (last_commit_date b) (last_commit_sha b)
                (last_commit_msg b) (author b) (commit_count b) m (ahead_behind b).

Definition set_ahead_behind (p : option (Z * Z)) (b : BranchInfo) : BranchInfo :=
  mk_BranchInfo (name b) (last_commit_date b) (last_commit_sha b)
                (last_commit_msg b) (author b) (commit_count b) (is_merged b) p.

(** The dictionary [BranchInfo.to_dict] returns. *)
Record branch_dict := mk_branch_dict {
  d_name : string;
  d_last_commit_date : string;
  d_last_commit_sha : string;
  d_last_commit_msg : string;
  d_author : string;
  d_commit_count : Z;
  d_is_merged : bool;
  d_ahead_behind : option (Z * Z);
  d_days_since_update : Z
}.

(** The dictionary [GitBranchAnalyzer.analyze] returns. *)
Record summary := mk_summary {
  s_total_branches : nat;
  s_active_branches : nat;
  s_stale_branches : nat;
  s_merged_branches : nat;
  s_current_branch : string;
  s_default_branch : string;
  s_stale_threshold_days : Z
}.

Record analysis := mk_analysis {
  a_summary : summary;
  a_stale_branches : list branch_dict;
  a_active_branches : list branch_dict;
  a_merged_branches : list branch_dict
}.

(** The attributes of a [GitBranchAnalyzer]. *)
Record GitBranchAnalyzer := mk_analyzer {
  stale_days : Z;
  include_remote : bool;
  current_branch : string;
  default_branch : string
}.

(** ** class GitBranchAnalyzer *)

Section Analyzer.

Variable E : env.

(** [BranchInfo.days_since_update]: [(datetime.now() - self.last_commit_date).days].
    The clock is read first, then the subtraction is attempted. *)
Definition days_since_update (b : BranchInfo) : M Z :=
  fun w =>
    let now := now_at E (clock_reads w) in
    let w' := mk_world (S (clock_reads w)) (err_stream w) in
    match days_between now (last_commit_date b) with
    | Some d => (Ok d, w')
    | None => (Raise NaiveAwareError, w')
    end.

(** [BranchInfo.to_dict] *)
Definition to_dict (b : BranchInfo) : M branch_dict :=
  d <- days_since_update b ;;
  ret (mk_branch_dict (name b) (isoformat E (last_commit_date b))
         (last_commit_sha b) (last_commit_msg b) (author b)
         (commit_count b) (is_merged b) (ahead_behind b) d).

(** [GitBranchAnalyzer._run_git_command] *)
Definition _run_git_command (args : list string) : M string :=
  match git E args with
  | Exited rc out err =>
      if (rc =? 0)%Z then ret (PyStr.strip out)
      else
        eprint (ErrorRunningGit args rc) ;;;
        eprint (StderrOf err) ;;;
        ret EmptyString
  | RunRaised what => raise (RunError what)
  end.

(** [GitBranchAnalyzer._get_current_branch] *)
Definition _get_current_branch : M string :=
  _run_git_command ["rev-parse"; "--abbrev-ref"; "HEAD"].

(** The loop of [_get_default_branch] over the lines of the listing. *)
Fixpoint default_branch_of (branches : list string) : string :=
  match branches with
  | [] => "master"
  | branch :: rest =>
      let branch := PyStr.replace "* " "" (PyStr.strip branch) in
      if PyStr.contains "main" branch then "main" else default_branch_of rest
  end.

(** [GitBranchAnalyzer._get_default_branch] *)
Definition _get_default_branch : M string :=
  out <- _run_git_command ["branch"; "-a"] ;;
  ret (default_branch_of (PyStr.split LF out)).

(** [GitBranchAnalyzer.__init__] *)
Definition GitBranchAnalyzer_init (stale_days : Z) (include_remote : bool)
  : M GitBranchAnalyzer :=
  cur <- _get_current_branch ;;
  def <- _get_default_branch ;;
  ret (mk_analyzer stale_days include_remote cur def).

(** The loop of [get_branches] over the lines of the listing. *)
Fixpoint branch_names (lines : list string) : list string :=
  match lines with
  | [] => []
  | line :: rest =>
      let line :=
        PyStr.replace "remotes/" "" (PyStr.replace "* " "" (PyStr.strip line)) in
      if PyStr.truthy line && negb (PyStr.contains "->" line)
      then line :: branch_names rest
      else branch_names rest
  end.

(** [GitBranchAnalyzer.get_branches] *)
Definition get_branches (self : GitBranchAnalyzer) : M (list string) :=
  let flag := if include_remote self then "-a" else "-l" in
  output <- _run_git_command ["branch"; flag] ;;
  ret (branch_names (PyStr.split LF output)).

Definition format_str : string := "%H|%aI|%an|%s".

(** The ahead/behind step of [get_branch_info], with its own [try]. *)
Definition ahead_behind_of (self : GitBranchAnalyzer) (branch : string)
  : M (option (Z * Z)) :=
  if negb (String.eqb branch (default_branch self)) then
    try_except
      (ahead_behind <- _run_git_command
         ["rev-list"; "--left-right"; "--count";
          (default_branch self ++ "..." ++ branch)%string] ;;
       if PyStr.truthy ahead_behind then
         match PyStr.split_ws ahead_behind with
         | [behind; ahead] =>
             a <- or_raise (PyStr.int ahead) (InvalidIntLiteral ahead) ;;
             b <- or_raise (PyStr.int behind) (InvalidIntLiteral behind) ;;
             ret (Some (a, b))
         | parts => raise (UnpackError 2 (List.length parts))
         end
       else ret None)
      (fun _ => ret None)
  else ret None.

(** The body of the outer [try] of [get_branch_info]. *)
Definition get_branch_info_body (self : GitBranchAnalyzer) (branch : string)
  : M (option BranchInfo) :=
  commit_info <- _run_git_command
    ["log"; "-1"; ("--format=" ++ format_str)%string; branch] ;;
  if negb (PyStr.truthy commit_info) then ret None
  else
    match PyStr.splitn 3 "|" commit_info with
    | [sha; date_str; author; msg] =>
        let date_arg := PyStr.replace "Z" "+00:00" date_str in
        commit_date <- or_raise (fromisoformat E date_arg)
                                (InvalidIsoformat date_arg) ;;
        commit_count <- _run_git_command ["rev-list"; "--count"; branch] ;;
        merged_output <- _run_git_command
          ["branch"; "--merged"; default_branch self] ;;
        let is_merged :=
          existsb (PyStr.contains branch) (PyStr.split LF merged_output) in
        let info := BranchInfo_init branch commit_date sha msg author in
        n <- (if PyStr.truthy commit_count
              then or_raise (PyStr.int commit_count)
                            (InvalidIntLiteral commit_count)
              else ret 0%Z) ;;
        let info := set_commit_count n info in
        let info := set_is_merged is_merged info in
        ab <- ahead_behind_of self branch ;;
        ret (Some (set_ahead_behind ab info))
    | parts => raise (UnpackError 4 (List.length parts))
    end.

(** [GitBranchAnalyzer.get_branch_info] *)
Definition get_branch_info (self : GitBranchAnalyzer) (branch : string)
  : M (option BranchInfo) :=
  try_except (get_branch_info_body self branch)
    (fun e => eprint (ErrorGettingInfo branch e) ;;; ret None).

(** The first loop of [analyze]: inspect every branch, keep the records. *)
Fixpoint inspect_all (self : GitBranchAnalyzer) (branches : list string)
  : M (list BranchInfo) :=
  match branches with
  | [] => ret []
  | branch :: rest =>
      info <- get_branch_info self branch ;;
      infos <- inspect_all self rest ;;
      ret (match info with Some i => i :: infos | None => infos end)
  end.

End Analyzer.

(** [list.sort(key=key, reverse=True)] and [sorted(..., key=key, reverse=True)]:
    the stable sort by descending key, for a key type whose [<] is [lt]
    ([None] when the comparison raises [TypeError]).  An element goes in front
    of the first element of the already sorted rest whose key is not greater
    than its own, so elements with equal keys keep their order. *)
Section StableSort.

Context {A K : Type}.
Variable key : A -> K.
Variable lt : K -> K -> option bool.

Fixpoint insert_desc (x : A) (l : list A) : result (list A) :=
  match l with
  | [] => Ok [x]
  | y :: l' =>
      match lt (key x) (key y) with
      | None => Raise NaiveAwareError
      | Some true =>
          match insert_desc x l' with
          | Ok r => Ok (y :: r)
          | Raise e => Raise e
          end
      | Some false => Ok (x :: l)
      end
  end.

Fixpoint sort_desc (l : list A) : result (list A) :=
  match l with
  | [] => Ok []
  | x :: l' =>
      match sort_desc l' with
      | Ok r => insert_desc x r
      | Raise e => Raise e
      end
  end.

End StableSort.

(** [branch_infos.sort(key=lambda x: x.last_commit_date, reverse=True)] *)
Definition sort_by_date (l : list BranchInfo) : result (list BranchInfo) :=
  sort_desc last_commit_date dt_lt l.

Definition lift_result {A} (r : result A) : M A := fun w => (r, w).

Section Analyze.

Variable E : env.

(** [GitBranchAnalyzer.analyze] *)
Definition analyze (self : GitBranchAnalyzer) : M analysis :=
  branches <- get_branches E self ;;
  branch_infos <- inspect_all E self branches ;;
  branch_infos <- lift_result (sort_by_date branch_infos) ;;
  stale_branches <- filterM
    (fun b => d <- days_since_update E b ;; ret (d >? stale_days self)%Z)
    branch_infos ;;
  active_branches <- filterM
    (fun b => d <- days_since_update E b ;; ret (d <=? stale_days self)%Z)
    branch_infos ;;
  let merged_branches := filter is_merged branch_infos in
  let summary :=
    mk_summary (List.length branch_infos) (List.length active_branches)
               (List.length stale_branches) (List.length merged_branches)
               (current_branch self) (default_branch self) (stale_days self) in
  stale_d <- mapM (to_dict E) stale_branches ;;
  active_d <- mapM (to_dict E) active_branches ;;
  merged_d <- mapM (to_dict E) merged_branches ;;
  ret (mk_analysis summary stale_d active_d merged_d).

End Analyze.

(** ** print_text_report *)

Definition NL : string := String LF EmptyString.

(** [s * n] *)
Fixpoint times (s : string) (n : nat) : string :=
  match n with
  | O => EmptyString
  | S n' => (s ++ times s n')%string
  end.

(** The non-ASCII literals of the report, byte for byte as the source file
    spells them (here a character takes several [ascii]). *)
Definition glyph_merged : string := "âœ“".
Definition glyph_not_merged : string := "âœ—".
Definition glyph_bullet : string := "â€¢".
Definition glyph_warning : string := "âš ".
Definition glyph_chart : string := "ðŸ“Š".

(** The prints of one iteration of the stale-branches loop. *)
Definition stale_entry (branch : branch_dict) : list string :=
  let days := d_days_since_update branch in
  let name := d_name branch in
  let author := d_author branch in
  let last_commit := PyStr.take 50 (d_last_commit_msg branch) in
  let merged_status :=
    (if d_is_merged branch then glyph_merged ++ " merged"
     else glyph_not_merged ++ " not merged")%string in
  [ (NL ++ glyph_bullet ++ " " ++ name)%string;
    ("  Last updated: " ++ PyStr.of_int days ++ " days ago")%string;
    ("  Author: " ++ author)%string;
    ("  Status: " ++ merged_status)%string;
    ("  Last commit: " ++ last_commit)%string ]
  ++ match d_ahead_behind branch with
     | Some (ahead, behind) =>
         [ ("  Position: " ++ PyStr.of_int ahead ++ " ahead, "
            ++ PyStr.of_int behind ++ " behind")%string ]
     | None => []
     end.

Definition len {A} (l : list A) : Z := Z.of_nat (List.length l).

(** [authors[author] = authors.get(author, 0) + 1] on a dictionary kept in
    insertion order. *)
Fixpoint bump (author : string) (authors : list (string * Z))
  : list (string * Z) :=
  match authors with
  | [] => [(author, 1%Z)]
  | (a, n) :: rest =>
      if String.eqb a author then (a, (n + 1)%Z) :: rest
      else (a, n) :: bump author rest
  end.

Definition count_authors (branches : list branch_dict) : list (string * Z) :=
  fold_left (fun authors branch => bump (d_author branch) authors) branches [].

Definition int_lt (a b : Z) : option bool := Some (a <? b)%Z.

(** [sorted(authors.items(), key=lambda x: x[1], reverse=True)]; comparing
    two [int]s never raises. *)
Definition sorted_by_count (items : list (string * Z)) : list (string * Z) :=
  match sort_desc snd int_lt items with
  | Ok r => r
  | Raise _ => []
  end.

Definition rule : string := times "-" 70.

(** The prints up to the summary counts. *)
Definition report_header (a : analysis) : list string :=
  let summary := a_summary a in
  [ (NL ++ times "=" 70)%string;
    "  GIT BRANCH ANALYSIS REPORT";
    times "=" 70;
    (NL ++ "Current Branch: " ++ s_current_branch summary)%string;
    ("Default Branch: " ++ s_default_branch summary)%string;
    ("Stale Threshold: " ++ PyStr.of_int (s_stale_threshold_days summary)
       ++ " days")%string;
    (NL ++ rule)%string;
    "SUMMARY";
    rule;
    ("Total Branches:   "
       ++ PyStr.of_int (Z.of_nat (s_total_branches summary)))%string;
    ("Active Branches:  "
       ++ PyStr.of_int (Z.of_nat (s_active_branches summary)))%string;
    ("Stale Branches:   "
       ++ PyStr.of_int (Z.of_nat (s_stale_branches summary)))%string;
    ("Merged Branches:  "
       ++ PyStr.of_int (Z.of_nat (s_merged_branches summary)))%string ].

(** [if analysis['stale_branches']: ...], the stale branches section. *)
Definition stale_section (a : analysis) : list string :=
  match a_stale_branches a with
  | [] => []
  | _ :: _ =>
      [ (NL ++ rule)%string;
        ("STALE BRANCHES (>"
           ++ PyStr.of_int (s_stale_threshold_days (a_summary a))
           ++ " days)")%string;
        rule ]
      ++ flat_map stale_entry (a_stale_branches a)
  end.

(** [deletable = [...]; if deletable: ...] *)
Definition deletable_recommendation (a : analysis) : list string :=
  let deletable := filter d_is_merged (a_stale_branches a) in
  match deletable with
  | [] => []
  | _ :: _ =>
      [ (NL ++ glyph_merged ++ " " ++ PyStr.of_int (len deletable)
           ++ " branches can be safely deleted (stale + merged):")%string ]
      ++ map (fun branch => ("  - " ++ d_name branch)%string)
             (firstn 5 deletable)
      ++ (if (len deletable >? 5)%Z
          then [ ("  ... and " ++ PyStr.of_int (len deletable - 5)
                    ++ " more")%string ]
          else [])
  end.

(** [stale_unmerged = [...]; if stale_unmerged: ...] *)
Definition unmerged_recommendation (a : analysis) : list string :=
  let stale_unmerged :=
    filter (fun b => negb (d_is_merged b)) (a_stale_branches a) in
  match stale_unmerged with
  | [] => []
  | _ :: _ =>
      [ (NL ++ glyph_warning ++ " " ++ PyStr.of_int (len stale_unmerged)
           ++ " stale branches are NOT merged:")%string ]
      ++ map (fun branch => ("  - " ++ d_name branch)%string)
             (firstn 5 stale_unmerged)
      ++ (if (len stale_unmerged >? 5)%Z
          then [ ("  ... and " ++ PyStr.of_int (len stale_unmerged - 5)
                    ++ " more")%string ]
          else [])
      ++ [ (NL ++ "  Review these branches before deleting!")%string ]
  end.

(** [if analysis['active_branches']: ...], the most active authors. *)
Definition contributors_section (a : analysis) : list string :=
  match a_active_branches a with
  | [] => []
  | _ :: _ =>
      let authors := count_authors (a_active_branches a) in
      [ (NL ++ glyph_chart ++ " Most active contributors:")%string ]
      ++ map (fun item : string * Z =>
                let (author, count) := item in
                ("  - " ++ author ++ ": " ++ PyStr.of_int count
                   ++ " active branch(es)")%string)
             (firstn 5 (sorted_by_count authors))
  end.

(** [print_text_report]: the strings printed, one per call of [print], in
    the order of the sections of the function. *)
Definition print_text_report (a : analysis) : list string :=
  report_header a
  ++ stale_section a
  ++ [ (NL ++ rule)%string; "RECOMMENDATIONS"; rule ]
  ++ deletable_recommendation a
  ++ unmerged_recommendation a
  ++ contributors_section a
  ++ [ (NL ++ times "=" 70 ++ NL)%string ].

(** ** main *)

(** What [main] writes to standard output: a string, or
    [json.dumps(analysis, indent=2)] kept as the dictionary it serialises. *)
Inductive printed :=
| Printed (s : string)
| PrintedJson (a : analysis).

Section Main.

Variable E : env.

(** [main], after [argparse] has produced [--days], [--remote] and [--json].
    The result is what was printed and the exit status; an exception that no
    handler of [main] catches is the [Raise] of the monad. *)
Definition main (days : Z) (remote json : bool) : M (list printed * Z) :=
  match git E ["rev-parse"; "--git-dir"] with
  | RunRaised what => raise (RunError what)
  | Exited rc _ _ =>
      if negb (rc =? 0)%Z then eprint ErrorNotARepo ;;; ret ([], 1%Z)
      else
        analyzer <- GitBranchAnalyzer_init E days remote ;;
        try_except
          (analysis <- analyze E analyzer ;;
           ret (if json then [PrintedJson analysis]
                else map Printed (print_text_report analysis), 0%Z))
          (fun e => eprint (ErrorDuringAnalysis e) ;;; ret ([], 1%Z))
  end.

End Main.

(** ** A concrete environment, to run the script on examples *)

Module Concrete.

Local Open Scope Z_scope.

Definition days_from_civil (y m d : Z) : Z :=
  let y' := if m <=? 2 then y - 1 else y in
  let era := y' / 400 in
  let yoe := y' - era * 400 in
  let doy := (153 * (if m >? 2 then m - 3 else m + 9) + 2) / 5 + d - 1 in
  let doe := yoe * 365 + yoe / 4 - yoe / 100 + doy in
  era * 146097 + doe - 719468.

Definition is_leap (y : Z) : bool :=
  ((y mod 4 =? 0) && negb (y mod 100 =? 0)) || (y mod 400 =? 0).

Definition days_in_month (y m : Z) : Z :=
  if m =? 2 then (if is_leap y then 29 else 28)
  else if (m =? 4) || (m =? 6) || (m =? 9) || (m =? 11) then 30 else 31.

(** A field of exactly [n] decimal digits at the head of [s], and the rest. *)
Fixpoint digits (n : nat) (acc : Z) (s : string) : option (Z * string) :=
  match n with
  | O => Some (acc, s)
  | S n' =>
      match s with
      | EmptyString => None
      | String c s' =>
          match PyStr.digit_value c with
          | Some d => digits n' (10 * acc + d) s'
          | None => None
          end
      end
  end.

Definition expect (c : ascii) (s : string) : option string :=
  match s with
  | String c' s' => if Ascii.eqb c c' then Some s' else None
  | EmptyString => None
  end.

Definition obind {A B} (o : option A) (k : A -> option B) : option B :=
  match o with Some a => k a | None => None end.

(** The UTC offset [+HH:MM] or [-HH:MM], or nothing, at the end of the string. *)
Definition parse_offset (s : string) : option (option Z) :=
  match s with
  | EmptyString => Some None
  | String sign s1 =>
      obind (if Ascii.eqb sign "+" then Some 1
             else if Ascii.eqb sign "-" then Some (-1) else None) (fun sg =>
      obind (digits 2 0 s1) (fun '(hh, s2) =>
      obind (expect ":" s2) (fun s3 =>
      obind (digits 2 0 s3) (fun '(mm, s4) =>
      if PyStr.is_empty s4 && (hh <? 24) && (mm <? 60)
      then Some (Some (sg * (hh * 3600 + mm * 60) * 1000000))
      else None))))
  end.

(** [datetime.fromisoformat] on the strings [%aI] prints,
    [YYYY-MM-DDTHH:MM:SS+HH:MM], and on the same without the offset; every
    other string is rejected here. *)
Definition fromisoformat (s : string) : option datetime :=
  obind (digits 4 0 s) (fun '(y, s) =>
  obind (expect "-" s) (fun s =>
  obind (digits 2 0 s) (fun '(m, s) =>
  obind (expect "-" s) (fun s =>
  obind (digits 2 0 s) (fun '(d, s) =>
  obind (expect "T" s) (fun s =>
  obind (digits 2 0 s) (fun '(hh, s) =>
  obind (expect ":" s) (fun s =>
  obind (digits 2 0 s) (fun '(mi, s) =>
  obind (expect ":" s) (fun s =>
  obind (digits 2 0 s) (fun '(ss, s) =>
  obind (parse_offset s) (fun off =>
  if (1 <=? y) && (1 <=? m) && (m <=? 12) && (1 <=? d)
     && (d <=? days_in_month y m) && (hh <? 24) && (mi <? 60) && (ss <? 60)
  then Some (mk_datetime
               ((days_from_civil y m d * 86400 + hh * 3600 + mi * 60 + ss)
                * 1000000) off)
  else None)))))))))))).

Definition civil_from_days (z : Z) : Z * Z * Z :=
  let z := z + 719468 in
  let era := z / 146097 in
  let doe := z - era * 146097 in
  let yoe := (doe - doe / 1460 + doe / 36524 - doe / 146096) / 365 in
  let doy := doe - (365 * yoe + yoe / 4 - yoe / 100) in
  let mp := (5 * doy + 2) / 153 in
  let d := doy - (153 * mp + 2) / 5 + 1 in
  let m := if mp <? 10 then mp + 3 else mp - 9 in
  let y := yoe + era * 400 + (if m <=? 2 then 1 else 0) in
  (y, m, d).

(** [n] printed on at least [width] digits. *)
Definition pad (width : nat) (n : Z) : string :=
  let t := PyStr.of_int n in
  (times "0" (width - String.length t) ++ t)%string.

(** [datetime.isoformat] *)
Definition isoformat (d : datetime) : string :=
  let secs := dt_wall d / 1000000 in
  let us := dt_wall d mod 1000000 in
  let '(y, m, dd) := civil_from_days (secs / 86400) in
  let sod := secs mod 86400 in
  (pad 4 y ++ "-" ++ pad 2 m ++ "-" ++ pad 2 dd ++ "T"
   ++ pad 2 (sod / 3600) ++ ":" ++ pad 2 (sod mod 3600 / 60) ++ ":"
   ++ pad 2 (sod mod 60)
   ++ (if (us =? 0)%Z then "" else "." ++ pad 6 us)
   ++ match dt_utcoffset d with
      | None => ""
      | Some off =>
          let a := Z.abs off / 1000000 in
          (if (off <? 0)%Z then "-" else "+")
          ++ pad 2 (a / 3600) ++ ":" ++ pad 2 (a mod 3600 / 60)
      end)%string.

Definition list_string_eqb (a b : list string) : bool :=
  (List.length a =? List.length b)%nat
  && forallb (fun p => String.eqb (fst p) (snd p)) (combine a b).

(** A repository given by the commands it answers; [git] exits with status
    128 on every other command. *)
Fixpoint git_table (table : list (list string * proc_result))
    (args : list string) : proc_result :=
  match table with
  | [] => Exited 128 "" "fatal: bad revision"
  | (a, r) :: rest =>
      if list_string_eqb a args then r else git_table rest args
  end.

Definition ok (out : string) : proc_result := Exited 0 out "".

(** The clock of a run that reads [t] every time. *)
Definition frozen (t : Z) : nat -> Z := fun _ => t.

Definition env_of (table : list (list string * proc_result)) (clock : nat -> Z)
  : env :=
  mk_env (git_table table) clock fromisoformat isoformat.

(** The wall-clock microseconds of a date and time. *)
Definition at_time (y m d hh mi ss : Z) : Z :=
  (days_from_civil y m d * 86400 + hh * 3600 + mi * 60 + ss) * 1000000.

End Concrete.

(** ** Worked examples *)

Module Examples.
Import Concrete.

Definition lines (l : list string) : string :=
  fold_right (fun x acc => (x ++ NL ++ acc)%string) EmptyString l.

(** Outside a repository every command fails. *)
Definition no_repo : env := env_of [] (frozen 0).

Definition not_a_repo_msg : string := "fatal: bad revision".

Definition one_branch : env :=
  env_of [ (["branch"; "-a"], ok (lines ["* trunk"])) ] (frozen 0).

(** A repository on [trunk] with a branch [domain-fix]: no branch is named
    [main]. *)
Definition domain_fix : env :=
  env_of [ (["rev-parse"; "--abbrev-ref"; "HEAD"], ok (lines ["trunk"]));
           (["branch"; "-a"], ok (lines ["  domain-fix"; "* trunk"])) ]
         (frozen 0).

(** A repository with the branches [develop] and [trunk]. *)
Definition no_main : env :=
  env_of [ (["rev-parse"; "--abbrev-ref"; "HEAD"], ok (lines ["trunk"]));
           (["branch"; "-a"], ok (lines ["  develop"; "* trunk"])) ]
         (frozen 0).

Definition TAB : string := String "009"%char EmptyString.

(** A repository where [feat-2] was merged into [main] and [feat] was not;
    the dates are as [git log --format=%aI] prints them. *)
Definition suffix_repo : env :=
  env_of
    [ (["rev-parse"; "--abbrev-ref"; "HEAD"], ok (lines ["main"]));
      (["branch"; "-a"], ok (lines ["  feat"; "  feat-2"; "* main"]));
      (["branch"; "-l"], ok (lines ["  feat"; "  feat-2"; "* main"]));
      (["log"; "-1"; "--format=%H|%aI|%an|%s"; "feat"],
       ok (lines ["1f3b9c0|2024-03-01T09:30:00+01:00|Ann|start feature"]));
      (["log"; "-1"; "--format=%H|%aI|%an|%s"; "feat-2"],
       ok (lines ["77aa210|2024-02-20T17:05:00+01:00|Bob|second try"]));
      (["log"; "-1"; "--format=%H|%aI|%an|%s"; "main"],
       ok (lines ["c0ffee1|2024-03-02T08:00:00+01:00|Ann|merge feat-2"]));
      (["rev-list"; "--count"; "feat"], ok (lines ["12"]));
      (["rev-list"; "--count"; "feat-2"], ok (lines ["11"]));
      (["rev-list"; "--count"; "main"], ok (lines ["14"]));
      (["branch"; "--merged"; "main"], ok (lines ["  feat-2"; "* main"]));
      (["rev-list"; "--left-right"; "--count"; "main...feat"],
       ok (lines ["3" ++ TAB ++ "2"]));
      (["rev-list"; "--left-right"; "--count"; "main...feat-2"],
       ok (lines ["3" ++ TAB ++ "0"])) ]%string
    (frozen (at_time 2024 3 15 12 0 0)).

Definition on_main (days : Z) : GitBranchAnalyzer :=
  mk_analyzer days false "main" "main".

(** The repository of the scenario of the specification, answered by a
    provider whose dates carry no UTC offset: [main] is 0 days old,
    [feature-x] 45 days and merged, [feature-y] 10 days and not merged. *)
Definition scenario_table : list (list string * proc_result) :=
  [ (["rev-parse"; "--git-dir"], ok (lines [".git"]));
    (["rev-parse"; "--abbrev-ref"; "HEAD"], ok (lines ["main"]));
    (["branch"; "-a"], ok (lines ["  feature-x"; "  feature-y"; "* main"]));
    (["branch"; "-l"], ok (lines ["  feature-x"; "  feature-y"; "* main"]));
    (["log"; "-1"; "--format=%H|%aI|%an|%s"; "main"],
     ok (lines ["aaa0001|2024-03-15T10:00:00|Ann|release 1.0 | tagged"]));
    (["log"; "-1"; "--format=%H|%aI|%an|%s"; "feature-x"],
     ok (lines ["bbb0002|2024-01-30T10:00:00|Bob|rework the parser so that nested lists are read in one pass"]));
    (["log"; "-1"; "--format=%H|%aI|%an|%s"; "feature-y"],
     ok (lines ["ccc0003|2024-03-05T10:00:00|Ann|y work"]));
    (["rev-list"; "--count"; "main"], ok (lines ["10"]));
    (["rev-list"; "--count"; "feature-x"], ok (lines ["8"]));
    (["rev-list"; "--count"; "feature-y"], ok (lines ["12"]));
    (["branch"; "--merged"; "main"], ok (lines ["  feature-x"; "* main"]));
    (["rev-list"; "--left-right"; "--count"; "main...feature-x"],
     ok (lines ["2" ++ TAB ++ "0"]));
    (["rev-list"; "--left-right"; "--count"; "main...feature-y"],
     ok (lines ["0" ++ TAB ++ "2"])) ]%string.

Definition scenario : env :=
  env_of scenario_table (frozen (at_time 2024 3 15 12 0 0)).

(** The same repository with the dates as [git] prints them. *)
Definition real_table : list (list string * proc_result) :=
  [ (["rev-parse"; "--git-dir"], ok (lines [".git"]));
    (["rev-parse"; "--abbrev-ref"; "HEAD"], ok (lines ["main"]));
    (["branch"; "-a"], ok (lines ["* main"]));
    (["branch"; "-l"], ok (lines ["* main"]));
    (["log"; "-1"; "--format=%H|%aI|%an|%s"; "main"],
     ok (lines ["aaa0001|2024-01-30T10:00:00+00:00|Ann|release 1.0"]));
    (["rev-list"; "--count"; "main"], ok (lines ["10"]));
    (["branch"; "--merged"; "main"], ok (lines ["* main"])) ].

Definition real_repo : env :=
  env_of real_table (frozen (at_time 2024 3 15 12 0 0)).

(** The repository of the scenario with its dates as
    [git log --format=%aI] prints them, each with its UTC offset. *)
Definition dated_table : list (list string * proc_result) :=
  [ (["rev-parse"; "--git-dir"], ok (lines [".git"]));
    (["rev-parse"; "--abbrev-ref"; "HEAD"], ok (lines ["main"]));
    (["branch"; "-a"], ok (lines ["  feature-x"; "  feature-y"; "* main"]));
    (["branch"; "-l"], ok (lines ["  feature-x"; "  feature-y"; "* main"]));
    (["log"; "-1"; "--format=%H|%aI|%an|%s"; "main"],
     ok (lines ["aaa0001|2024-03-15T10:00:00+00:00|Ann|release 1.0"]));
    (["log"; "-1"; "--format=%H|%aI|%an|%s"; "feature-x"],
     ok (lines ["bbb0002|2024-01-30T10:00:00+00:00|Bob|rework the parser"]));
    (["log"; "-1"; "--format=%H|%aI|%an|%s"; "feature-y"],
     ok (lines ["ccc0003|2024-03-05T10:00:00+00:00|Ann|y work"]));
    (["rev-list"; "--count"; "main"], ok (lines ["10"]));
    (["rev-list"; "--count"; "feature-x"], ok (lines ["8"]));
    (["rev-list"; "--count"; "feature-y"], ok (lines ["12"]));
    (["branch"; "--merged"; "main"], ok (lines ["  feature-x"; "* main"]));
    (["rev-list"; "--left-right"; "--count"; "main...feature-x"],
     ok (lines ["2" ++ TAB ++ "0"]));
    (["rev-list"; "--left-right"; "--count"; "main...feature-y"],
     ok (lines ["0" ++ TAB ++ "2"])) ]%string.

Definition dated_scenario : env :=
  env_of dated_table (frozen (at_time 2024 3 15 12 0 0)).

(** One branch whose last commit is thirty days and a microsecond short of
    a day old at the first reading of the clock, and two microseconds older
    at every later reading. *)
Definition midnight_table : list (list string * proc_result) :=
  [ (["rev-parse"; "--git-dir"], ok (lines [".git"]));
    (["rev-parse"; "--abbrev-ref"; "HEAD"], ok (lines ["main"]));
    (["branch"; "-a"], ok (lines ["* main"]));
    (["branch"; "-l"], ok (lines ["* main"]));
    (["log"; "-1"; "--format=%H|%aI|%an|%s"; "main"],
     ok (lines ["aaa0001|2024-01-01T00:00:00|Ann|release 1.0"]));
    (["rev-list"; "--count"; "main"], ok (lines ["10"]));
    (["branch"; "--merged"; "main"], ok (lines ["* main"])) ].

Definition midnight_clock (k : nat) : Z :=
  match k with
  | O => (at_time 2024 2 1 0 0 0 - 1)%Z
  | S _ => (at_time 2024 2 1 0 0 0 + 1)%Z
  end.

Definition midnight : env := env_of midnight_table midnight_clock.

(** A listing with a name that resolves to no commit ([ghost]: the log
    query fails) and a branch whose log line carries no date ([broken]). *)
Definition ghost_table : list (list string * proc_result) :=
  [ (["rev-parse"; "--git-dir"], ok (lines [".git"]));
    (["rev-parse"; "--abbrev-ref"; "HEAD"], ok (lines ["main"]));
    (["branch"; "-l"], ok (lines ["  broken"; "  ghost"; "* main"]));
    (["log"; "-1"; "--format=%H|%aI|%an|%s"; "broken"],
     ok (lines ["ddd0004|not-a-date|Ann|oops"]));
    (["log"; "-1"; "--format=%H|%aI|%an|%s"; "main"],
     ok (lines ["aaa0001|2024-03-15T10:00:00|Ann|release 1.0"]));
    (["rev-list"; "--count"; "main"], ok (lines ["10"]));
    (["branch"; "--merged"; "main"], ok (lines ["* main"])) ].

Definition ghost_repo : env :=
  env_of ghost_table (frozen (at_time 2024 3 15 12 0 0)).

(** The dictionary of a stale branch, as the report receives it. *)
Definition stale_dict (name : string) (merged : bool) : branch_dict :=
  mk_branch_dict name "2023-11-02T08:15:00" "e1e1e1e" "old work" "Cy" 3
                 merged None 134.

(** An analysis with seven stale merged branches and two stale branches
    that are not merged. *)
Definition crowded : analysis :=
  mk_analysis
    (mk_summary 9 0 9 7 "main" "main" 30)
    [ stale_dict "m1" true; stale_dict "u1" false; stale_dict "m2" true;
      stale_dict "m3" true; stale_dict "m4" true; stale_dict "u2" false;
      stale_dict "m5" true; stale_dict "m6" true; stale_dict "m7" true ]
    []
    [ stale_dict "m1" true; stale_dict "m2" true; stale_dict "m3" true;
      stale_dict "m4" true; stale_dict "m5" true; stale_dict "m6" true;
      stale_dict "m7" true ].

(** A listing with remote-tracking branches and the alias of the remote
    head. *)
Definition remote_repo : env :=
  env_of
    [ (["branch"; "-a"],
       ok (lines ["* main"; "  remotes/origin/HEAD -> origin/main";
                  "  remotes/origin/main"; ""; "  remotes/origin/topic"])) ]
    (frozen 0).

Definition with_remote : GitBranchAnalyzer := mk_analyzer 30 true "main" "main".

(** A branch for which only the log query succeeds: the three other queries
    of the inspector fail. *)
Definition bare_log : env :=
  env_of
    [ (["log"; "-1"; "--format=%H|%aI|%an|%s"; "topic"],
       ok (lines ["9d9d9d9|2024-03-01T09:30:00|Dee|fix | and | more"])) ]
    (frozen (at_time 2024 3 15 12 0 0)).

(** The dictionary of an active branch of the author [who]. *)
Definition active_dict (name who : string) : branch_dict :=
  mk_branch_dict name "2024-03-10T08:15:00" "a0a0a0a" "work" who 3
                 false None 5.

(** An analysis with ten active branches of seven authors. *)
Definition busy : analysis :=
  mk_analysis
    (mk_summary 10 10 0 0 "main" "main" 30)
    []
    [ active_dict "b1" "Bob"; active_dict "a1" "Ann"; active_dict "c1" "Cy";
      active_dict "a2" "Ann"; active_dict "d1" "Dee"; active_dict "e1" "Eve";
      active_dict "c2" "Cy"; active_dict "f1" "Fay"; active_dict "a3" "Ann";
      active_dict "g1" "Gus" ]
    [].

(** A repository without any branch yet. *)
Definition empty_repo : env :=
  env_of
    [ (["rev-parse"; "--git-dir"], ok (lines [".git"]));
      (["rev-parse"; "--abbrev-ref"; "HEAD"], ok (lines ["HEAD"]));
      (["branch"; "-a"], ok "");
      (["branch"; "-l"], ok "") ]
    (frozen 0).

(** A repository whose branch listing cannot be decoded: [subprocess.run]
    raises while the constructor lists the branches. *)
Definition undecodable : env :=
  env_of
    [ (["rev-parse"; "--git-dir"], ok (lines [".git"]));
      (["rev-parse"; "--abbrev-ref"; "HEAD"], ok (lines ["main"]));
      (["branch"; "-a"], RunRaised "UnicodeDecodeError") ]
    (frozen 0).

(** The repository of the scenario, read by a clock that advances by one
    second at every reading. *)
Definition ticking_clock (k : nat) : Z :=
  (at_time 2024 3 15 12 0 0 + Z.of_nat k * 1000000)%Z.

Definition ticking : env := env_of scenario_table ticking_clock.

End Examples.

(** * Vocabulary of the properties *)

Import PyStr.

(** The world after the lines [ds] were printed to [sys.stderr]. *)
Definition add_diags (w : world) (ds : list diag) : world :=
  mk_world (clock_reads w) (err_stream w ++ ds).

(** What [_run_git_command] returns, and what it prints, whatever was
    printed before. *)
Definition run_value (E : env) (args : list string) : result string :=
  match git E args with
  | Exited rc out _ => Ok (if (rc =? 0)%Z then strip out else EmptyString)
  | RunRaised what => Raise (RunError what)
  end.

Definition run_diags (E : env) (args : list string) : list diag :=
  match git E args with
  | Exited rc _ err =>
      if (rc =? 0)%Z then [] else [ErrorRunningGit args rc; StderrOf err]
  | RunRaised _ => []
  end.

(** The only asterisk of the line, once trimmed, is its first character:
    the shape of every line [git branch] prints, where the asterisk marks
    the checked-out branch and no branch name holds one. *)
Definition marker_only_leads (line : string) : bool :=
  lacks "*" (tail (strip line)).

(** [m] returns [v] and prints [ds], whatever the clock and whatever was
    printed before. *)
Definition prints {A} (m : M A) (v : result A) (ds : list diag) : Prop :=
  forall w, m w = (v, add_diags w ds).

Definition printer {A} (m : M A) : Prop := exists v ds, prints m v ds.

Definition log_query (branch : string) : list string :=
  ["log"; "-1"; ("--format=" ++ format_str)%string; branch].

Definition count_query (branch : string) : list string :=
  ["rev-list"; "--count"; branch].

Definition merged_query (self : GitBranchAnalyzer) : list string :=
  ["branch"; "--merged"; default_branch self].

Definition ahead_behind_query (self : GitBranchAnalyzer) (branch : string)
  : list string :=
  ["rev-list"; "--left-right"; "--count";
   (default_branch self ++ "..." ++ branch)%string].

(** The record the inspection of [branch] yields, if it yields one, and
    what the inspection prints. *)
Definition inspect (E : env) (self : GitBranchAnalyzer) (branch : string)
  : option BranchInfo :=
  match fst (get_branch_info E self branch world0) with
  | Ok r => r
  | Raise _ => None
  end.

Definition inspect_diags (E : env) (self : GitBranchAnalyzer)
    (branch : string) : list diag :=
  err_stream (snd (get_branch_info E self branch world0)).

(** The pair the ahead/behind step yields. *)
Definition ahead_behind_value (E : env) (self : GitBranchAnalyzer)
    (branch : string) : option (Z * Z) :=
  match fst (ahead_behind_of E self branch world0) with
  | Ok p => p
  | Raise _ => None
  end.

(** The value of the body of the inspector. *)
Definition body_value (E : env) (self : GitBranchAnalyzer) (branch : string)
  : result (option BranchInfo) :=
  fst (get_branch_info_body E self branch world0).

(** [l1] is [l2] with some elements left out, the others in their order. *)
Inductive subseq {A} : list A -> list A -> Prop :=
| subseq_nil : subseq [] []
| subseq_keep x l1 l2 : subseq l1 l2 -> subseq (x :: l1) (x :: l2)
| subseq_drop x l1 l2 : subseq l1 l2 -> subseq l1 (x :: l2).

(** Keys ordered by a rank. *)
Section Ranked.

Context {A K : Type}.
Variable key : A -> K.
Variable rank : K -> Z.

(** [a] is not older than [b]. *)
Definition not_before (a b : A) : Prop := (rank (key b) <= rank (key a))%Z.

Definition has_rank (p : Z) (a : A) : bool := (rank (key a) =? p)%Z.

End Ranked.

(** [a]'s last commit is not older than [b]'s. *)
Definition newer_or_same (a b : BranchInfo) : Prop :=
  (dt_point (last_commit_date b) <= dt_point (last_commit_date a))%Z.

(** The last commit of [b] was made at the instant [p]. *)
Definition committed_at (p : Z) (b : BranchInfo) : bool :=
  (dt_point (last_commit_date b) =? p)%Z.

(** The world after [n] more readings of the clock. *)
Definition advance (w : world) (n : nat) : world :=
  mk_world (clock_reads w + n) (err_stream w).

(** The last commit date of the record carries no UTC offset. *)
Definition naive (b : BranchInfo) : bool :=
  negb (is_aware (last_commit_date b)).

(** The age in whole days of a naive record at the [k]-th reading of the
    clock. *)
Definition naive_age (E : env) (k : nat) (b : BranchInfo) : Z :=
  ((now_at E k - dt_wall (last_commit_date b)) / us_per_day)%Z.

(** [filter] and [map] where the element at position [i] is handled at the
    reading [k + i] of the clock. *)
Fixpoint filter_at {A} (p : nat -> A -> bool) (k : nat) (l : list A) : list A :=
  match l with
  | [] => []
  | x :: l' =>
      if p k x then x :: filter_at p (S k) l' else filter_at p (S k) l'
  end.

Fixpoint map_at {A B} (f : nat -> A -> B) (k : nat) (l : list A) : list B :=
  match l with
  | [] => []
  | x :: l' => f k x :: map_at f (S k) l'
  end.

Definition dict_at (E : env) (k : nat) (b : BranchInfo) : branch_dict :=
  mk_branch_dict (name b) (isoformat E (last_commit_date b))
    (last_commit_sha b) (last_commit_msg b) (author b) (commit_count b)
    (is_merged b) (ahead_behind b) (naive_age E k b).

Definition stale_at (E : env) (self : GitBranchAnalyzer) (k : nat)
    (b : BranchInfo) : bool :=
  (naive_age E k b >? stale_days self)%Z.

Definition active_at (E : env) (self : GitBranchAnalyzer) (k : nat)
    (b : BranchInfo) : bool :=
  (naive_age E k b <=? stale_days self)%Z.

(** The three lists of records [analyze] builds from the sorted records,
    when the clock has been read [c] times before. *)
Definition stale_records E self (c : nat) (sorted : list BranchInfo) :=
  filter_at (stale_at E self) c sorted.

Definition active_records E self (c : nat) (sorted : list BranchInfo) :=
  filter_at (active_at E self) (c + List.length sorted) sorted.

Definition merged_records (sorted : list BranchInfo) :=
  filter is_merged sorted.

Definition analysis_of (E : env) (self : GitBranchAnalyzer) (c : nat)
    (sorted : list BranchInfo) : analysis :=
  let n := List.length sorted in
  let stale := stale_records E self c sorted in
  let active := active_records E self c sorted in
  let merged := merged_records sorted in
  let c2 := c + n + n in
  let c3 := c2 + List.length stale in
  let c4 := c3 + List.length active in
  mk_analysis
    (mk_summary n (List.length active) (List.length stale)
                (List.length merged)
                (current_branch self) (default_branch self) (stale_days self))
    (map_at (dict_at E) c2 stale)
    (map_at (dict_at E) c3 active)
    (map_at (dict_at E) c4 merged).

(** The branch names [get_branches] returns. *)
Definition listed (E : env) (self : GitBranchAnalyzer) : result (list string) :=
  match run_value E ["branch"; if include_remote self then "-a" else "-l"] with
  | Ok output => Ok (branch_names (split LF output))
  | Raise e => Raise e
  end.

(** The records of the branches [names], in their order. *)
Definition records (E : env) (self : GitBranchAnalyzer) (names : list string)
  : list BranchInfo :=
  flat_map (fun b => match inspect E self b with
                     | Some i => [i]
                     | None => []
                     end) names.

Definition analyze_value (E : env) (self : GitBranchAnalyzer) (c : nat)
  : result analysis :=
  match listed E self with
  | Raise e => Raise e
  | Ok names =>
      match sort_by_date (records E self names) with
      | Raise e => Raise e
      | Ok sorted =>
          if forallb naive sorted then Ok (analysis_of E self c sorted)
          else Raise NaiveAwareError
      end
  end.

(** Following the specification's words: the branch name appears in the
    listing of merged branches as a whole token. *)
Definition appears_as_token (branch listing : string) : bool :=
  existsb (String.eqb branch) (split_ws listing).

(** What the inspector does: the branch name is a substring of a line. *)
Definition appears_in_a_line (branch listing : string) : bool :=
  existsb (contains branch) (split LF listing).

(** [d] is the dictionary of the record [b], made at some reading of the
    clock. *)
Definition dict_of (E : env) (b : BranchInfo) (d : branch_dict) : Prop :=
  exists k, d = dict_at E k b.

(** [E'] answers every command but [q] as [E] does, and parses dates alike. *)
Definition same_but_for (q : list string) (E E' : env) : Prop :=
  fromisoformat E' = fromisoformat E
  /\ forall args, args <> q -> git E' args = git E args.

Definition yields_record (E : env) (self : GitBranchAnalyzer)
    (branch : string) : bool :=
  match inspect E self branch with Some _ => true | None => false end.

(** The list [x] stands in [l] as one run of consecutive elements. *)
Definition block {A} (x l : list A) : Prop :=
  exists pre post, l = pre ++ x ++ post.

(** The line of a recommendation that names a branch, and the line that
    counts the branches left out. *)
Definition item_line (b : branch_dict) : string :=
  ("  - " ++ d_name b)%string.

Definition more_line (n : nat) : string :=
  ("  ... and " ++ of_int (Z.of_nat n) ++ " more")%string.

(** [shown] lists the branches [q] of a recommendation: all of them when
    they are five or fewer; otherwise the first five, then the count of the
    others. *)
Definition capped_listing (q : list branch_dict) (shown : list string)
  : Prop :=
  (5 < List.length q ->
     shown = map item_line (firstn 5 q) ++ [more_line (List.length q - 5)]
     /\ List.length (firstn 5 q) = 5)
  /\ (List.length q <= 5 -> shown = map item_line q).

(** The lines below the heading of a recommendation, as the report builds
    them. *)
Definition shown_of (q : list branch_dict) : list string :=
  map (fun branch => ("  - " ++ d_name branch)%string) (firstn 5 q)
  ++ (if (len q >? 5)%Z
      then [ ("  ... and " ++ of_int (len q - 5) ++ " more")%string ]
      else []).

(** The headings of the two recommendations, for [n] branches, the note
    that ends the second one, and the last line of the report. *)
Definition deletable_heading (n : nat) : string :=
  (NL ++ glyph_merged ++ " " ++ of_int (Z.of_nat n)
      ++ " branches can be safely deleted (stale + merged):")%string.

Definition unmerged_heading (n : nat) : string :=
  (NL ++ glyph_warning ++ " " ++ of_int (Z.of_nat n)
      ++ " stale branches are NOT merged:")%string.

Definition review_note : string :=
  (NL ++ "  Review these branches before deleting!")%string.

Definition closing_rule : string := (NL ++ times "=" 70 ++ NL)%string.

(** [s] starts with [p]. *)
Fixpoint begins_with (p s : string) {struct p} : bool :=
  match p, s with
  | EmptyString, _ => true
  | String a p', String b s' => Ascii.eqb a b && begins_with p' s'
  | String _ _, EmptyString => false
  end.

(** The line counts branches left out: it starts as [more_line] does. *)
Definition remainder_line (line : string) : bool :=
  begins_with "  ... and " line.

(** The subject of the entry is all that the log line holds after its
    third bar. *)
Definition subject_in_full (E : env) (d : branch_dict) : Prop :=
  exists commit_info sha date_str author,
    run_value E (log_query (d_name d)) = Ok commit_info
    /\ commit_info =
       (sha ++ "|" ++ date_str ++ "|" ++ author ++ "|"
            ++ d_last_commit_msg d)%string.

(** ** Vocabulary of the further properties *)

(** A line of the listing as [get_branches] cleans it. *)
Definition clean_line (line : string) : string :=
  replace "remotes/" "" (replace "* " "" (strip line)).

(** A cleaned line that [get_branches] keeps. *)
Definition kept_name (n : string) : bool :=
  truthy n && negb (contains "->" n).

(** The command fails or prints nothing but whitespace. *)
Definition no_output (E : env) (args : list string) : Prop :=
  run_value E args = Ok EmptyString.

(** The number of occurrences of [c] in [s]. *)
Fixpoint count_char (c : ascii) (s : string) : nat :=
  match s with
  | EmptyString => 0
  | String c' s' => (if Ascii.eqb c' c then 1 else 0) + count_char c s'
  end.

(** The conditions under which the inspector yields the record [info] for
    [branch]: a non-empty log line of four fields, a date that parses, a
    count and a merged listing obtained without an exception, and a count
    that is empty or an integer. *)
Definition record_conditions (E : env) (self : GitBranchAnalyzer)
    (branch : string) (info : BranchInfo) : Prop :=
  exists commit_info sha date_str author msg commit_date count_out
         merged_output n,
    run_value E (log_query branch) = Ok commit_info
    /\ commit_info <> EmptyString
    /\ splitn 3 "|" commit_info = [sha; date_str; author; msg]
    /\ fromisoformat E (replace "Z" "+00:00" date_str) = Some commit_date
    /\ run_value E (count_query branch) = Ok count_out
    /\ run_value E (merged_query self) = Ok merged_output
    /\ (if truthy count_out then int count_out else Some 0%Z) = Some n
    /\ info =
       mk_BranchInfo branch commit_date sha msg author n
         (existsb (contains branch) (split LF merged_output))
         (ahead_behind_value E self branch).

(** No reading of the clock is earlier than a reading made before it. *)
Definition clock_never_goes_back (E : env) : Prop :=
  forall i j, i <= j -> (now_at E i <= now_at E j)%Z.

(** The age in whole days of every record of the run is the same at every
    reading of the clock. *)
Definition ages_steady (E : env) (self : GitBranchAnalyzer) : Prop :=
  forall names b,
    listed E self = Ok names -> In b (records E self names) ->
    forall i j, naive_age E i b = naive_age E j b.

(** [authors.get(author, 0)] *)
Fixpoint authors_get (author : string) (authors : list (string * Z)) : Z :=
  match authors with
  | [] => 0%Z
  | (a, n) :: rest =>
      if String.eqb a author then n else authors_get author rest
  end.

(** The number of the branches [branches] whose author is [author]. *)
Definition branches_of (author : string) (branches : list branch_dict) : Z :=
  Z.of_nat
    (List.length (filter (fun b => String.eqb (d_author b) author) branches)).

(** The authors the report shows with their counts. *)
Definition leaderboard (a : analysis) : list (string * Z) :=
  firstn 5 (sorted_by_count (count_authors (a_active_branches a))).

(** The line of the report for an author and a count. *)
Definition contributor_line (item : string * Z) : string :=
  let (author, count) := item in
  ("  - " ++ author ++ ": " ++ of_int count ++ " active branch(es)")%string.

(** The command by which [main] checks that it is in a repository. *)
Definition repo_check : list string := ["rev-parse"; "--git-dir"].

(** What [main] prints to standard output for the analysis [a]. *)
Definition rendered (json : bool) (a : analysis) : list printed :=
  if json then [PrintedJson a] else map Printed (print_text_report a).

(** The analyzer [main] constructs when the current branch is [cur] and
    the full listing is [listing]. *)
Definition constructed (days : Z) (remote : bool) (cur listing : string)
  : GitBranchAnalyzer :=
  mk_analyzer days remote cur (default_branch_of (split LF listing)).

(** The analysis of a run without any record. *)
Definition empty_analysis (self : GitBranchAnalyzer) : analysis :=
  mk_analysis
    (mk_summary 0 0 0 0 (current_branch self) (default_branch self)
                (stale_days self))
    [] [] [].

(** * Properties *)

(** ** Strings *)

Module PyStrFacts.
Import PyStr.

Lemma append_nil_r (s : string) : (s ++ "")%string = s.
Proof. induction s; simpl; congruence. Qed.

Lemma append_assoc (a b c : string) :
  ((a ++ b) ++ c)%string = (a ++ (b ++ c))%string.
Proof. induction a; simpl; congruence. Qed.

Lemma length_append (a b : string) :
  String.length (a ++ b) = String.length a + String.length b.
Proof. induction a; simpl; congruence. Qed.

Lemma is_empty_true (s : string) : is_empty s = true <-> s = EmptyString.
Proof. destruct s; simpl; split; congruence. Qed.

Lemma prefix_nil (s : string) : prefix EmptyString s = true.
Proof. destruct s; reflexivity. Qed.

Lemma prefix_iff (n s : string) :
  prefix n s = true <-> exists q, s = (n ++ q)%string.
Proof.
  revert s; induction n as [|a n IH]; intros s.
  - destruct s; simpl; split; eauto.
  - destruct s as [|b s]; simpl.
    + split; [discriminate | intros [q Hq]; discriminate].
    + destruct (ascii_dec a b) as [->|Hab].
      * rewrite IH. split; intros [q Hq]; exists q; congruence.
      * split; [discriminate | intros [q Hq]; congruence].
Qed.

Lemma contains_iff (n s : string) :
  contains n s = true <-> exists p q, s = (p ++ n ++ q)%string.
Proof.
  induction s as [|c s IH]; cbn [contains].
  - rewrite orb_false_r, prefix_iff. split.
    + intros [q Hq]. exists EmptyString, q. exact Hq.
    + intros (p & q & H). destruct p; simpl in H; [eauto | discriminate].
  - rewrite orb_true_iff, prefix_iff, IH. split.
    + intros [[q Hq] | (p & q & Hpq)].
      * exists EmptyString, q. exact Hq.
      * exists (String c p), q. simpl. congruence.
    + intros (p & q & H). destruct p as [|c' p]; simpl in H.
      * left; eauto.
      * right. exists p, q. congruence.
Qed.

Lemma prefix_contains (n s : string) :
  prefix n s = true -> contains n s = true.
Proof. intros H. destruct s; cbn [contains]; rewrite H; reflexivity. Qed.

Lemma contains_cons (n : string) (c : ascii) (s : string) :
  contains n s = true -> contains n (String c s) = true.
Proof. intros H. cbn [contains]. rewrite H. apply orb_true_r. Qed.

Lemma contains_refl (s : string) : contains s s = true.
Proof.
  apply contains_iff. exists EmptyString, EmptyString.
  simpl. now rewrite append_nil_r.
Qed.

Lemma contains_app (n p q : string) :
  contains n (p ++ n ++ q) = true.
Proof. apply contains_iff; eauto. Qed.

Lemma contains_trans (a b c : string) :
  contains a b = true -> contains b c = true -> contains a c = true.
Proof.
  rewrite !contains_iff. intros (p & q & ->) (p' & q' & ->).
  exists (p' ++ p)%string, (q ++ q')%string.
  now rewrite !append_assoc.
Qed.

(** *** strip *)

Lemma lstrip_spec (s : string) :
  exists l, s = (l ++ lstrip s)%string /\ all_space l.
Proof.
  induction s as [|c s (l & Hl & Hs)]; simpl.
  - exists EmptyString. split; [reflexivity | intros c []].
  - destruct (is_space c) eqn:Hc.
    + exists (String c l). split; [simpl; congruence|].
      intros c' [<-|Hin]; auto.
    + exists EmptyString. split; [reflexivity | intros c' []].
Qed.

Lemma rstrip_spec (s : string) :
  exists r, s = (rstrip s ++ r)%string /\ all_space r.
Proof.
  induction s as [|c s (r & Hr & Hs)]; simpl.
  - exists EmptyString. split; [reflexivity | intros c []].
  - destruct (is_space c && is_empty (rstrip s)) eqn:Hc.
    + apply andb_true_iff in Hc as [Hc He]. apply is_empty_true in He.
      rewrite He in Hr. simpl in Hr. subst r.
      exists (String c s). split; [reflexivity|].
      intros c' [<-|Hin]; auto.
    + exists r. split; [simpl; congruence | assumption].
Qed.

(** [s.strip()] is [s] without a whitespace prefix and a whitespace suffix. *)
Lemma strip_spec (s : string) :
  exists l r, s = (l ++ strip s ++ r)%string /\ all_space l /\ all_space r.
Proof.
  destruct (lstrip_spec s) as (l & Hl & Hsl).
  destruct (rstrip_spec (lstrip s)) as (r & Hr & Hsr).
  exists l, r. unfold strip. rewrite <- Hr. auto.
Qed.

Lemma lstrip_starts (s : string) : starts_with_space (lstrip s) = false.
Proof.
  induction s as [|c s IH]; simpl; auto.
  destruct (is_space c) eqn:Hc; simpl; auto.
Qed.

Lemma rstrip_starts (s : string) :
  starts_with_space s = false -> starts_with_space (rstrip s) = false.
Proof.
  destruct s as [|c s]; simpl; auto. intros Hc. rewrite Hc. simpl. exact Hc.
Qed.

Lemma rstrip_ends (s : string) : ends_with_space (rstrip s) = false.
Proof.
  induction s as [|c s IH]; simpl; auto.
  destruct (is_space c && is_empty (rstrip s)) eqn:Hc; auto.
  simpl. destruct (rstrip s) as [|c' r] eqn:Hr; auto.
  simpl in Hc. now rewrite andb_true_r in Hc.
Qed.

(** The trimmed text neither starts nor ends with whitespace. *)
Lemma strip_trimmed (s : string) :
  starts_with_space (strip s) = false /\ ends_with_space (strip s) = false.
Proof.
  unfold strip. split.
  - apply rstrip_starts, lstrip_starts.
  - apply rstrip_ends.
Qed.

Lemma contains_strip_sub (n s : string) :
  contains n (strip s) = true -> contains n s = true.
Proof.
  intros H. eapply contains_trans; [exact H|].
  destruct (strip_spec s) as (l & r & Hs & _).
  apply contains_iff. eauto.
Qed.

Lemma prefix_rstrip (n s : string) :
  n <> EmptyString -> no_space n = true ->
  prefix n s = true -> prefix n (rstrip s) = true.
Proof.
  revert s; induction n as [|a n IH]; intros s Hne Hn Hp; [congruence|].
  destruct s as [|b s]; simpl in Hp; [discriminate|].
  destruct (ascii_dec a b) as [->|]; [|discriminate].
  simpl in Hn. apply andb_true_iff in Hn as [Hb Hn].
  apply negb_true_iff in Hb. simpl. rewrite Hb. simpl.
  destruct (ascii_dec b b); [|congruence].
  destruct n as [|a' n]; [apply prefix_nil|].
  apply IH; auto. discriminate.
Qed.

Lemma contains_rstrip (n s : string) :
  n <> EmptyString -> no_space n = true ->
  contains n s = true -> contains n (rstrip s) = true.
Proof.
  intros Hne Hn. induction s as [|c s IH]; intros H.
  - destruct n; [congruence | discriminate].
  - cbn [contains] in H. apply orb_true_iff in H as [H|H].
    + apply (prefix_rstrip n _ Hne Hn) in H. now apply prefix_contains.
    + specialize (IH H). simpl.
      destruct (rstrip s) as [|c' r] eqn:Hr.
      * destruct n; [congruence | discriminate].
      * simpl. rewrite andb_false_r. now apply contains_cons.
Qed.

Lemma contains_lstrip (n s : string) :
  n <> EmptyString -> no_space n = true ->
  contains n s = true -> contains n (lstrip s) = true.
Proof.
  intros Hne Hn. induction s as [|c s IH]; intros H; [exact H|].
  simpl. destruct (is_space c) eqn:Hc; [|exact H].
  apply IH. cbn [contains] in H. apply orb_true_iff in H as [H|H]; [|exact H].
  destruct n as [|a n]; [congruence|]. simpl in H, Hn.
  destruct (ascii_dec a c) as [->|]; [|discriminate].
  rewrite Hc in Hn. discriminate.
Qed.

(** A word without whitespace is in the trimmed text exactly when it is in
    the text. *)
Lemma contains_strip (n s : string) :
  n <> EmptyString -> no_space n = true ->
  contains n (strip s) = contains n s.
Proof.
  intros Hne Hn. apply eq_true_iff_eq. split.
  - apply contains_strip_sub.
  - intros H. unfold strip.
    apply contains_rstrip, contains_lstrip; auto.
Qed.

(** *** replace, as the script uses it to drop the current-branch marker *)

Lemma no_space_lacks_space (n : string) :
  no_space n = true -> lacks " " n = true.
Proof.
  induction n as [|a n IH]; simpl; auto.
  intros H. apply andb_true_iff in H as [Ha Hn]. rewrite (IH Hn), andb_true_r.
  destruct (Ascii.eqb_spec a " ") as [->|]; [discriminate | reflexivity].
Qed.

Lemma no_space_lacks_LF (n : string) :
  no_space n = true -> lacks LF n = true.
Proof.
  induction n as [|a n IH]; simpl; auto.
  intros H. apply andb_true_iff in H as [Ha Hn]. rewrite (IH Hn), andb_true_r.
  destruct (Ascii.eqb_spec a LF) as [->|]; [discriminate | reflexivity].
Qed.

Lemma prefix_cons (a : ascii) (n : string) (b : ascii) (s : string) :
  prefix (String a n) (String b s) =
  if ascii_dec a b then prefix n s else false.
Proof. reflexivity. Qed.

Lemma prefix_marker_head (c : ascii) (s : string) :
  Ascii.eqb c "*" = false -> prefix "* " (String c s) = false.
Proof.
  intros Hc. rewrite prefix_cons.
  destruct (ascii_dec "*" c) as [<-|]; [|reflexivity].
  rewrite Ascii.eqb_refl in Hc. discriminate.
Qed.

Lemma prefix_marker_inv (s : string) :
  prefix "* " s = true -> exists s', s = String "*" (String " " s').
Proof.
  intros H. apply prefix_iff in H as [q ->]. exists q. reflexivity.
Qed.

Lemma replace_from_cons (old new : string) (c : ascii) (s : string) :
  replace_from old new 0 (String c s) =
  if prefix old (String c s)
  then (new ++ replace_from old new (String.length old - 1) s)%string
  else String c (replace_from old new 0 s).
Proof. reflexivity. Qed.

Lemma replace_marker_lacks (s : string) :
  lacks "*" s = true -> replace "* " "" s = s.
Proof.
  unfold replace. induction s as [|c s IH]; [reflexivity|].
  intros H. cbn [lacks] in H. apply andb_true_iff in H as [Hc Hs].
  apply negb_true_iff in Hc.
  rewrite replace_from_cons, (prefix_marker_head _ _ Hc), (IH Hs). reflexivity.
Qed.

Lemma prefix_replace_marker (n s : string) :
  lacks "*" n = true -> prefix n s = true ->
  prefix n (replace "* " "" s) = true.
Proof.
  unfold replace. revert s; induction n as [|a n IH]; intros s Hn Hp.
  - apply prefix_nil.
  - destruct s as [|b s]; [discriminate|]. simpl in Hp.
    destruct (ascii_dec a b) as [->|]; [|discriminate].
    cbn [lacks] in Hn. apply andb_true_iff in Hn as [Hb Hn].
    apply negb_true_iff in Hb.
    rewrite replace_from_cons, (prefix_marker_head _ _ Hb). simpl.
    destruct (ascii_dec b b); [|congruence]. now apply IH.
Qed.

Lemma contains_nil (s : string) : contains EmptyString s = true.
Proof. apply prefix_contains, prefix_nil. Qed.

Lemma contains_cons_inv (n : string) (c : ascii) (s : string) :
  contains n (String c s) = true ->
  prefix n (String c s) = true \/ contains n s = true.
Proof. cbn [contains]. apply orb_true_iff. Qed.

Lemma prefix_head_neq (a : ascii) (n : string) (c : ascii) (s : string) :
  Ascii.eqb a c = false -> prefix (String a n) (String c s) = false.
Proof.
  intros H. simpl. destruct (ascii_dec a c) as [->|]; [|reflexivity].
  now rewrite Ascii.eqb_refl in H.
Qed.

(** Dropping the markers ["* "] never removes an occurrence of a word that
    has neither an asterisk nor a blank. *)
Lemma contains_replace_marker (n s : string) :
  lacks "*" n = true -> lacks " " n = true ->
  contains n s = true -> contains n (replace "* " "" s) = true.
Proof.
  intros Hstar Hblank.
  destruct n as [|a n]; [intros _; apply contains_nil|].
  cbn [lacks] in Hstar, Hblank.
  apply andb_true_iff in Hstar as [Ha1 Hstar].
  apply andb_true_iff in Hblank as [Ha2 Hblank].
  apply negb_true_iff in Ha1, Ha2.
  assert (Hall : lacks "*" (String a n) = true)
    by (cbn [lacks]; now rewrite Ha1, Hstar).
  remember (String.length s) as k eqn:Hk.
  revert s Hk. induction k as [k IH] using lt_wf_ind. intros s Hk H.
  destruct s as [|c s]; [discriminate|].
  unfold replace. rewrite replace_from_cons.
  destruct (prefix "* " (String c s)) eqn:Hm.
  - apply prefix_marker_inv in Hm as [s' Hs']. inversion Hs'; subst c s.
    cbn [String.length Nat.sub replace_from append].
    apply contains_cons_inv in H as [H|H];
      [rewrite (prefix_head_neq _ _ _ _ Ha1) in H; discriminate|].
    apply contains_cons_inv in H as [H|H];
      [rewrite (prefix_head_neq _ _ _ _ Ha2) in H; discriminate|].
    destruct s' as [|c' s'']; [discriminate|].
    change (replace_from "* " "" 0) with (replace "* " "").
    apply (IH (String.length (String c' s''))); subst k; simpl; auto; lia.
  - apply contains_cons_inv in H as [H|H].
    + apply prefix_contains.
      pose proof (prefix_replace_marker _ _ Hall H) as Hp.
      unfold replace in Hp. now rewrite replace_from_cons, Hm in Hp.
    + apply contains_cons. change (replace_from "* " "" 0) with (replace "* " "").
      apply (IH (String.length s)); subst k; simpl; auto; lia.
Qed.

(** When the only asterisk of [s] is its first character, dropping the
    markers leaves a suffix of [s]. *)
Lemma replace_marker_suffix (s : string) :
  lacks "*" (tail s) = true ->
  exists p, s = (p ++ replace "* " "" s)%string.
Proof.
  destruct s as [|c s]; simpl; intros H; [exists EmptyString; reflexivity|].
  unfold replace. rewrite replace_from_cons.
  destruct (prefix "* " (String c s)) eqn:Hm.
  - apply prefix_marker_inv in Hm as [s' Hs']. inversion Hs'; subst c s.
    cbn [lacks] in H. apply andb_true_iff in H as [_ H].
    cbn [String.length Nat.sub replace_from append].
    pose proof (replace_marker_lacks _ H) as Hr. unfold replace in Hr.
    exists "* ". simpl.
    destruct s'; [reflexivity|]. now rewrite Hr.
  - pose proof (replace_marker_lacks _ H) as Hr. unfold replace in Hr.
    exists EmptyString. simpl. now rewrite Hr.
Qed.

Lemma contains_replace_marker_inv (n s : string) :
  lacks "*" (tail s) = true ->
  contains n (replace "* " "" s) = true -> contains n s = true.
Proof.
  intros Hs H. destruct (replace_marker_suffix s Hs) as [p Hp].
  eapply contains_trans; [exact H|].
  apply contains_iff. exists p, EmptyString. now rewrite append_nil_r.
Qed.

(** *** Lines and words *)

Lemma split_not_nil (sep : ascii) (s : string) : split sep s <> [].
Proof.
  destruct s as [|c s]; simpl; [discriminate|].
  destruct (Ascii.eqb c sep); [discriminate|].
  destruct (split sep s); discriminate.
Qed.

Lemma split_head_prefix (sep : ascii) (s : string) :
  prefix (hd EmptyString (split sep s)) s = true.
Proof.
  induction s as [|c s IH]; simpl; auto.
  destruct (Ascii.eqb c sep); simpl; auto.
  destruct (split sep s) as [|h t] eqn:Hs; simpl in *.
  - destruct (ascii_dec c c); [apply prefix_nil | congruence].
  - destruct (ascii_dec c c); [exact IH | congruence].
Qed.

(** Every line of a text is a part of the text. *)
Lemma split_line_contains (sep : ascii) (s line : string) :
  In line (split sep s) -> contains line s = true.
Proof.
  revert line; induction s as [|c s IH]; intros line; cbn [split].
  - intros [<-|[]]. reflexivity.
  - destruct (Ascii.eqb c sep).
    + intros [<-|Hin]; [apply contains_nil|]. apply contains_cons. now apply IH.
    + pose proof (split_head_prefix sep s) as Hh.
      destruct (split sep s) as [|h t] eqn:Hs.
      * now destruct (split_not_nil sep s).
      * cbn [hd] in Hh. intros [<-|Hin].
        -- apply prefix_contains. rewrite prefix_cons.
           destruct (ascii_dec c c); [exact Hh | congruence].
        -- apply contains_cons, IH. now right.
Qed.

Lemma prefix_first_line (n s : string) :
  lacks LF n = true -> prefix n s = true ->
  prefix n (hd EmptyString (split LF s)) = true.
Proof.
  revert s; induction n as [|a n IH]; intros s Hn Hp; [apply prefix_nil|].
  destruct s as [|b s]; [discriminate|]. simpl in Hp.
  destruct (ascii_dec a b) as [->|]; [|discriminate].
  cbn [lacks] in Hn. apply andb_true_iff in Hn as [Hb Hn].
  apply negb_true_iff in Hb. cbn [split]. rewrite Hb.
  specialize (IH s Hn Hp).
  destruct (split LF s) as [|h t] eqn:Hs;
    [now destruct (split_not_nil LF s)|].
  simpl in *. destruct (ascii_dec b b); [exact IH | congruence].
Qed.

(** A word that holds no line feed and occurs in a text occurs in one of its
    lines. *)
Lemma contains_some_line (n s : string) :
  n <> EmptyString -> lacks LF n = true ->
  contains n s = true -> existsb (contains n) (split LF s) = true.
Proof.
  intros Hne Hn. induction s as [|c s IH]; intros H.
  - destruct n; [congruence | discriminate].
  - apply contains_cons_inv in H. cbn [split].
    destruct (Ascii.eqb_spec c LF) as [->|Hc].
    + destruct H as [H|H].
      * destruct n as [|a n]; [congruence|]. cbn [lacks] in Hn.
        apply andb_true_iff in Hn as [Ha _]. apply negb_true_iff in Ha.
        rewrite (prefix_head_neq _ _ _ _ Ha) in H. discriminate.
      * cbn [existsb]. rewrite (IH H). apply orb_true_r.
    + destruct H as [H|H].
      * pose proof (prefix_first_line n (String c s) Hn H) as Hp.
        cbn [split] in Hp. destruct (Ascii.eqb_spec c LF); [congruence|].
        destruct (split LF s) as [|h t]; cbn [hd existsb] in *;
          rewrite (prefix_contains _ _ Hp); reflexivity.
      * specialize (IH H).
        destruct (split LF s) as [|h t]; [discriminate|].
        cbn [existsb] in *. apply orb_true_iff in IH as [IH|IH].
        -- now rewrite (contains_cons _ c _ IH).
        -- rewrite IH. apply orb_true_r.
Qed.

Lemma existsb_contains_lines (n s : string) :
  existsb (contains n) (split LF s) = true -> contains n s = true.
Proof.
  intros H. apply existsb_exists in H as (line & Hin & Hc).
  eapply contains_trans; [exact Hc|]. now apply split_line_contains in Hin.
Qed.

Lemma In_cons_word (t w : string) (ws : list string) :
  In t (cons_word w ws) -> (t = w /\ w <> EmptyString) \/ In t ws.
Proof.
  unfold cons_word. destruct w; simpl; auto.
  intros [<-|H]; auto. left. split; [reflexivity | discriminate].
Qed.

Lemma split_ws_aux_spec (s : string) :
  let (w, ws) := split_ws_aux s in
  no_space w = true /\ prefix w s = true /\
  forall t, In t ws ->
            t <> EmptyString /\ no_space t = true /\ contains t s = true.
Proof.
  induction s as [|c s IH]; simpl.
  - repeat split; auto; intros t [].
  - destruct (split_ws_aux s) as [w ws]. destruct IH as (Hw & Hp & Hws).
    destruct (is_space c) eqn:Hc.
    + split; [reflexivity|]. split; [reflexivity|].
      intros t Hin. apply In_cons_word in Hin as [[-> Hne]|Hin].
      * repeat split; auto. now apply contains_cons, prefix_contains.
      * destruct (Hws t Hin) as (? & ? & ?).
        repeat split; auto. now apply contains_cons.
    + split; [simpl; now rewrite Hc|]. split.
      * destruct (ascii_dec c c); [exact Hp | congruence].
      * intros t Hin. destruct (Hws t Hin) as (? & ? & ?).
        repeat split; auto. now apply contains_cons.
Qed.

(** A word of [s.split()] is non-empty, holds no whitespace, and is a part
    of [s]. *)
Lemma split_ws_word (s t : string) :
  In t (split_ws s) ->
  t <> EmptyString /\ no_space t = true /\ contains t s = true.
Proof.
  unfold split_ws. pose proof (split_ws_aux_spec s) as H.
  destruct (split_ws_aux s) as [w ws]. destruct H as (Hw & Hp & Hws).
  intros Hin. apply In_cons_word in Hin as [[-> Hne]|Hin]; auto.
  repeat split; auto. now apply prefix_contains.
Qed.

(** *** split with a bound, and slices *)

Lemma splitn_not_nil (n : nat) (sep : ascii) (s : string) :
  splitn n sep s <> [].
Proof.
  revert n; induction s as [|c s IH]; intros n; simpl; [discriminate|].
  destruct n; [discriminate|].
  destruct (Ascii.eqb c sep); [discriminate|].
  destruct (splitn (S n) sep s); discriminate.
Qed.

(** The fields of [s.split(sep, n)], joined by [sep], spell [s]. *)
Lemma join_splitn (n : nat) (sep : ascii) (s : string) :
  join sep (splitn n sep s) = s.
Proof.
  revert n; induction s as [|c s IH]; intros n; simpl; [reflexivity|].
  destruct n; [reflexivity|].
  destruct (Ascii.eqb_spec c sep) as [->|Hc].
  - specialize (IH n).
    destruct (splitn n sep s) as [|h t] eqn:Hs;
      [now destruct (splitn_not_nil n sep s)|].
    cbn [join append]. simpl in IH. now rewrite IH.
  - specialize (IH (S n)).
    destruct (splitn (S n) sep s) as [|h t] eqn:Hs;
      [now destruct (splitn_not_nil (S n) sep s)|].
    destruct t; simpl in *; now rewrite IH.
Qed.

Lemma take_length (n : nat) (s : string) :
  String.length (take n s) = Nat.min n (String.length s).
Proof.
  unfold take. revert s; induction n as [|n IH]; intros s.
  - destruct s; reflexivity.
  - destruct s; simpl; auto.
Qed.

Lemma take_prefix (n : nat) (s : string) :
  exists rest, s = (take n s ++ rest)%string.
Proof.
  unfold take. revert s; induction n as [|n IH]; intros s.
  - exists s. destruct s; reflexivity.
  - destruct s as [|c s]; simpl; [exists EmptyString; reflexivity|].
    destruct (IH s) as [r Hr]. exists r. congruence.
Qed.

Lemma take_all (n : nat) (s : string) :
  String.length s <= n -> take n s = s.
Proof.
  unfold take. revert s; induction n as [|n IH]; intros s H.
  - destruct s; simpl in *; [reflexivity | lia].
  - destruct s as [|c s]; simpl in *; [reflexivity|].
    rewrite IH; [reflexivity | lia].
Qed.

End PyStrFacts.

(** ** The command runner *)

Import PyStr PyStrFacts.

Lemma add_diags_nil (w : world) : add_diags w [] = w.
Proof. destruct w. unfold add_diags. simpl. now rewrite app_nil_r. Qed.

Lemma add_diags_app (w : world) (a b : list diag) :
  add_diags (add_diags w a) b = add_diags w (a ++ b).
Proof. unfold add_diags. simpl. now rewrite app_assoc. Qed.

Lemma run_git_command_eq (E : env) (args : list string) (w : world) :
  _run_git_command E args w = (run_value E args, add_diags w (run_diags E args)).
Proof.
  unfold _run_git_command, run_value, run_diags.
  destruct (git E args) as [rc out err|what].
  - destruct (rc =? 0)%Z.
    + now rewrite add_diags_nil.
    + unfold bind, eprint, ret, add_diags. simpl. now rewrite <- app_assoc.
  - now rewrite add_diags_nil.
Qed.

(** C5. Command runner: when the binary exits with a non-zero status, the
    runner prints its two diagnostics to the error stream, the second one
    carrying the captured standard error, and returns the empty string
    without raising; when the binary exits with status zero it prints
    nothing and returns the standard output with its leading and trailing
    whitespace removed. *)
Theorem C5_run_git_command_contract (E : env) (args : list string)
    (rc : Z) (out err : string) (w : world) :
  git E args = Exited rc out err ->
  (rc <> 0%Z ->
     _run_git_command E args w =
       (Ok EmptyString,
        mk_world (clock_reads w)
                 (err_stream w ++ [ErrorRunningGit args rc; StderrOf err])))
  /\
  (rc = 0%Z ->
     exists t l r,
       _run_git_command E args w = (Ok t, w)
       /\ out = (l ++ t ++ r)%string /\ all_space l /\ all_space r
       /\ starts_with_space t = false /\ ends_with_space t = false).
Proof.
  intros Hgit. rewrite run_git_command_eq.
  unfold run_value, run_diags. rewrite Hgit. split.
  - intros Hrc. apply Z.eqb_neq in Hrc. rewrite Hrc. reflexivity.
  - intros ->. simpl. rewrite add_diags_nil.
    destruct (strip_spec out) as (l & r & Hout & Hl & Hr).
    destruct (strip_trimmed out) as [Hs He].
    exists (strip out), l, r. auto 10.
Qed.

Lemma C5_run_git_command_contract_witness :
  _run_git_command Examples.no_repo ["branch"; "-a"] world0 =
    (Ok EmptyString,
     mk_world 0 [ErrorRunningGit ["branch"; "-a"] 128;
                 StderrOf Examples.not_a_repo_msg])
  /\ exists t l r,
       _run_git_command Examples.one_branch ["branch"; "-a"] world0 =
         (Ok t, world0)
       /\ Examples.lines ["* trunk"] = (l ++ t ++ r)%string
       /\ all_space l /\ all_space r
       /\ starts_with_space t = false /\ ends_with_space t = false.
Proof.
  split.
  - apply (proj1 (C5_run_git_command_contract Examples.no_repo
                    ["branch"; "-a"] 128 "" Examples.not_a_repo_msg world0
                    eq_refl)).
    discriminate.
  - apply (proj2 (C5_run_git_command_contract Examples.one_branch
                    ["branch"; "-a"] 0 (Examples.lines ["* trunk"]) "" world0
                    eq_refl)).
    reflexivity.
Defined.

(** ** The default branch *)

Lemma default_branch_of_cases (branches : list string) :
  default_branch_of branches = "main" \/ default_branch_of branches = "master".
Proof.
  induction branches as [|b rest IH]; simpl; auto.
  destruct (contains "main" _); auto.
Qed.

Lemma default_branch_of_main_iff (branches : list string) :
  default_branch_of branches = "main" <->
  exists line, In line branches /\
               contains "main" (replace "* " "" (strip line)) = true.
Proof.
  induction branches as [|b rest IH]; cbn [default_branch_of In].
  - split; [discriminate | intros (line & [] & _)].
  - destruct (contains "main" (replace "* " "" (strip b))) eqn:Hb.
    + split; eauto.
    + rewrite IH. split.
      * intros (line & Hin & Hc). eauto.
      * intros (line & [<-|Hin] & Hc); [congruence | eauto].
Qed.

Lemma main_in_cleaned_line (line : string) :
  contains "main" line = true ->
  contains "main" (replace "* " "" (strip line)) = true.
Proof.
  intros H. apply contains_replace_marker; try reflexivity.
  rewrite contains_strip; [exact H | discriminate | reflexivity].
Qed.

Lemma main_in_raw_line (line : string) :
  marker_only_leads line = true ->
  contains "main" (replace "* " "" (strip line)) = true ->
  contains "main" line = true.
Proof.
  intros Hwf H. apply contains_strip_sub.
  now apply contains_replace_marker_inv.
Qed.

Lemma init_inv (E : env) (sd : Z) (ir : bool) (w : world)
    (self : GitBranchAnalyzer) (w' : world) :
  GitBranchAnalyzer_init E sd ir w = (Ok self, w') ->
  exists cur listing,
    run_value E ["rev-parse"; "--abbrev-ref"; "HEAD"] = Ok cur
    /\ run_value E ["branch"; "-a"] = Ok listing
    /\ self = mk_analyzer sd ir cur (default_branch_of (split LF listing)).
Proof.
  unfold GitBranchAnalyzer_init, _get_current_branch, _get_default_branch, bind.
  rewrite !run_git_command_eq.
  destruct (run_value E ["rev-parse"; "--abbrev-ref"; "HEAD"]) as [cur|e];
    [|discriminate].
  destruct (run_value E ["branch"; "-a"]) as [listing|e]; [|discriminate].
  unfold ret. intros H. inversion H; subst. eauto.
Qed.

(** C10. Default branch: the name computed when the analyzer is constructed
    is the literal "main" or the literal "master".  It is "main" exactly
    when some line of the branch listing, trimmed and with its markers
    dropped, holds "main" as a substring; in particular whenever a line of
    the listing holds "main" anywhere, as in "domain-fix"; and on a listing
    shaped as [git branch] prints it, it is "master" when no line holds
    "main". *)
Theorem C10_default_branch_is_main_or_master (E : env) (sd : Z) (ir : bool)
    (w : world) (self : GitBranchAnalyzer) (w' : world) :
  GitBranchAnalyzer_init E sd ir w = (Ok self, w') ->
  exists listing,
    run_value E ["branch"; "-a"] = Ok listing
    /\ (default_branch self = "main" \/ default_branch self = "master")
    /\ (default_branch self = "main" <->
        exists line, In line (split LF listing) /\
                     contains "main" (replace "* " "" (strip line)) = true)
    /\ (forall line, In line (split LF listing) ->
                     contains "main" line = true ->
                     default_branch self = "main")
    /\ (forallb marker_only_leads (split LF listing) = true ->
        (forall line, In line (split LF listing) ->
                      contains "main" line = false) ->
        default_branch self = "master").
Proof.
  intros H. apply init_inv in H as (cur & listing & _ & Hl & ->).
  exists listing. cbn [default_branch].
  split; [exact Hl|]. split; [apply default_branch_of_cases|].
  split; [apply default_branch_of_main_iff|]. split.
  - intros line Hin Hc. apply default_branch_of_main_iff.
    exists line. split; [exact Hin | now apply main_in_cleaned_line].
  - intros Hwf Hno.
    destruct (default_branch_of_cases (split LF listing)) as [Hm|Hm]; [|exact Hm].
    apply default_branch_of_main_iff in Hm as (line & Hin & Hc).
    rewrite forallb_forall in Hwf.
    specialize (Hno line Hin).
    rewrite (main_in_raw_line line (Hwf line Hin) Hc) in Hno. discriminate.
Qed.

Lemma C10_default_branch_is_main_or_master_witness :
  (exists self,
     GitBranchAnalyzer_init Examples.domain_fix 30 false world0
       = (Ok self, world0)
     /\ default_branch self = "main")
  /\ (exists self,
        GitBranchAnalyzer_init Examples.no_main 30 false world0
          = (Ok self, world0)
        /\ default_branch self = "master").
Proof.
  split.
  - exists (mk_analyzer 30 false "trunk" "main"). split; [reflexivity|].
    destruct (C10_default_branch_is_main_or_master Examples.domain_fix 30 false
                world0 (mk_analyzer 30 false "trunk" "main") world0 eq_refl)
      as (listing & Hl & _ & _ & Hmain & _).
    apply (Hmain "domain-fix").
    + vm_compute in Hl. injection Hl as <-. left. reflexivity.
    + reflexivity.
  - exists (mk_analyzer 30 false "trunk" "master"). split; [reflexivity|].
    destruct (C10_default_branch_is_main_or_master Examples.no_main 30 false
                world0 (mk_analyzer 30 false "trunk" "master") world0 eq_refl)
      as (listing & Hl & _ & _ & _ & Hmaster).
    vm_compute in Hl. injection Hl as <-. apply Hmaster.
    + reflexivity.
    + intros line [<-|[<-|[]]]; reflexivity.
Defined.

(** ** Computations that only print *)

Lemma prints_ret {A} (a : A) : prints (ret a) (Ok a) [].
Proof. intros w. unfold ret. now rewrite add_diags_nil. Qed.

Lemma prints_raise {A} (e : exn) : prints (@raise A e) (Raise e) [].
Proof. intros w. unfold raise. now rewrite add_diags_nil. Qed.

Lemma prints_eprint (d : diag) : prints (eprint d) (Ok tt) [d].
Proof. intros w. reflexivity. Qed.

Lemma prints_run (E : env) (args : list string) :
  prints (_run_git_command E args) (run_value E args) (run_diags E args).
Proof. intros w. apply run_git_command_eq. Qed.

Lemma prints_bind_ok {A B} (m : M A) (k : A -> M B) a d1 v d2 :
  prints m (Ok a) d1 -> prints (k a) v d2 -> prints (bind m k) v (d1 ++ d2).
Proof.
  intros Hm Hk w. unfold bind. rewrite Hm, Hk. now rewrite add_diags_app.
Qed.

Lemma prints_bind_raise {A B} (m : M A) (k : A -> M B) e d :
  prints m (Raise e) d -> prints (bind m k) (Raise e) d.
Proof. intros Hm w. unfold bind. now rewrite Hm. Qed.

Lemma prints_try_ok {A} (m : M A) (h : exn -> M A) a d :
  prints m (Ok a) d -> prints (try_except m h) (Ok a) d.
Proof. intros Hm w. unfold try_except. now rewrite Hm. Qed.

Lemma prints_try_raise {A} (m : M A) (h : exn -> M A) e d1 v d2 :
  prints m (Raise e) d1 -> prints (h e) v d2 ->
  prints (try_except m h) v (d1 ++ d2).
Proof.
  intros Hm Hh w. unfold try_except. rewrite Hm, Hh. now rewrite add_diags_app.
Qed.

Lemma prints_fun {A} (m : M A) v1 d1 v2 d2 :
  prints m v1 d1 -> prints m v2 d2 -> v1 = v2 /\ d1 = d2.
Proof.
  intros H1 H2. specialize (H1 world0). rewrite (H2 world0) in H1.
  inversion H1. split; [reflexivity|].
  unfold add_diags in *. simpl in *. congruence.
Qed.

Lemma printer_ret {A} (a : A) : printer (ret a).
Proof. eexists _, _. apply prints_ret. Qed.

Lemma printer_raise {A} (e : exn) : printer (@raise A e).
Proof. eexists _, _. apply prints_raise. Qed.

Lemma printer_eprint (d : diag) : printer (eprint d).
Proof. eexists _, _. apply prints_eprint. Qed.

Lemma printer_run (E : env) (args : list string) :
  printer (_run_git_command E args).
Proof. eexists _, _. apply prints_run. Qed.

Lemma printer_bind {A B} (m : M A) (k : A -> M B) :
  printer m -> (forall a, printer (k a)) -> printer (bind m k).
Proof.
  intros (v & d & Hm) Hk. destruct v as [a|e].
  - destruct (Hk a) as (v' & d' & Hk'). eexists _, _.
    eapply prints_bind_ok; eauto.
  - eexists _, _. eapply prints_bind_raise; eauto.
Qed.

Lemma printer_try {A} (m : M A) (h : exn -> M A) :
  printer m -> (forall e, printer (h e)) -> printer (try_except m h).
Proof.
  intros (v & d & Hm) Hh. destruct v as [a|e].
  - eexists _, _. eapply prints_try_ok; eauto.
  - destruct (Hh e) as (v' & d' & Hh'). eexists _, _.
    eapply prints_try_raise; eauto.
Qed.

Lemma printer_or_raise {A} (o : option A) (e : exn) : printer (or_raise o e).
Proof. destruct o; [apply printer_ret | apply printer_raise]. Qed.

(** The value and the output of a computation that only prints are those of
    its run from the initial world. *)
Lemma printer_eq {A} (m : M A) :
  printer m ->
  prints m (fst (m world0)) (err_stream (snd (m world0))).
Proof.
  intros (v & d & Hm) w. rewrite (Hm w), (Hm world0). reflexivity.
Qed.

Ltac printer_step :=
  first
    [ apply printer_ret | apply printer_raise | apply printer_eprint
    | apply printer_run | apply printer_or_raise
    | apply printer_bind; [|intros ?]
    | apply printer_try; [|intros ?]
    | match goal with
      | |- printer (if ?b then _ else _) => destruct b
      | |- printer (match ?x with _ => _ end) => destruct x
      end ].

Ltac printer_auto := repeat printer_step.

Lemma printer_ahead_behind_of (E : env) (self : GitBranchAnalyzer)
    (branch : string) :
  printer (ahead_behind_of E self branch).
Proof. unfold ahead_behind_of. printer_auto. Qed.

Lemma printer_get_branch_info_body (E : env) (self : GitBranchAnalyzer)
    (branch : string) :
  printer (get_branch_info_body E self branch).
Proof.
  unfold get_branch_info_body. printer_auto.
  all: try apply printer_ahead_behind_of.
Qed.

Lemma printer_get_branch_info (E : env) (self : GitBranchAnalyzer)
    (branch : string) :
  printer (get_branch_info E self branch).
Proof.
  unfold get_branch_info. apply printer_try.
  - apply printer_get_branch_info_body.
  - intros e. printer_auto.
Qed.

(** ** Inversion of a run *)

Lemma bind_ok_inv {A B} (m : M A) (k : A -> M B) w b w' :
  bind m k w = (Ok b, w') ->
  exists a w1, m w = (Ok a, w1) /\ k a w1 = (Ok b, w').
Proof.
  unfold bind. destruct (m w) as [[a|e] w1]; [eauto | discriminate].
Qed.

Lemma ret_inv {A} (a b : A) w w' :
  ret a w = (Ok b, w') -> a = b /\ w = w'.
Proof. unfold ret. intros H. inversion H. auto. Qed.

Lemma or_raise_ok_inv {A} (o : option A) e a w w' :
  or_raise o e w = (Ok a, w') -> o = Some a /\ w = w'.
Proof.
  destruct o; simpl; unfold ret, raise; intros H; inversion H; auto.
Qed.

Lemma run_ok_inv (E : env) args out w w' :
  _run_git_command E args w = (Ok out, w') ->
  run_value E args = Ok out /\ w' = add_diags w (run_diags E args).
Proof. rewrite run_git_command_eq. intros H. inversion H. auto. Qed.

Lemma lift_result_ok_inv {A} (r : result A) a w w' :
  lift_result r w = (Ok a, w') -> r = Ok a /\ w = w'.
Proof. unfold lift_result. intros H. inversion H. auto. Qed.

(** ** The branch inspector *)

Lemma get_branch_info_of_body_ok E self branch w r w1 :
  get_branch_info_body E self branch w = (Ok r, w1) ->
  get_branch_info E self branch w = (Ok r, w1).
Proof. intros H. unfold get_branch_info, try_except. now rewrite H. Qed.

Lemma get_branch_info_of_body_raise E self branch w e w1 :
  get_branch_info_body E self branch w = (Raise e, w1) ->
  get_branch_info E self branch w =
    (Ok None, add_diags w1 [ErrorGettingInfo branch e]).
Proof. intros H. unfold get_branch_info, try_except. now rewrite H. Qed.

(** The inspector never raises. *)
Lemma get_branch_info_prints E self branch :
  prints (get_branch_info E self branch)
         (Ok (inspect E self branch)) (inspect_diags E self branch).
Proof.
  pose proof (printer_eq _ (printer_get_branch_info E self branch)) as H.
  unfold inspect, inspect_diags.
  destruct (get_branch_info_body E self branch world0) as [[r|e] w1] eqn:Hb.
  - rewrite (get_branch_info_of_body_ok _ _ _ _ _ _ Hb) in *. exact H.
  - rewrite (get_branch_info_of_body_raise _ _ _ _ _ _ Hb) in *. exact H.
Qed.

(** The ahead/behind step never raises. *)
Lemma ahead_behind_of_prints E self branch :
  exists ds,
    prints (ahead_behind_of E self branch)
           (Ok (ahead_behind_value E self branch)) ds.
Proof.
  pose proof (printer_eq _ (printer_ahead_behind_of E self branch)) as H.
  exists (err_stream (snd (ahead_behind_of E self branch world0))).
  unfold ahead_behind_value.
  destruct (fst (ahead_behind_of E self branch world0)) as [p|e] eqn:Hv;
    [exact H|].
  exfalso. revert Hv. unfold ahead_behind_of.
  destruct (negb (branch =? default_branch self)%string); [|discriminate].
  unfold try_except.
  match goal with |- context [match ?m world0 with _ => _ end] =>
    destruct (m world0) as [[a|e'] w1] end; discriminate.
Qed.

(** What a record returned by the body of the inspector is made of. *)
Lemma get_branch_info_body_some_inv E self branch w info w' :
  get_branch_info_body E self branch w = (Ok (Some info), w') ->
  exists commit_info sha date_str author msg commit_date count_out
         merged_output n,
    run_value E (log_query branch) = Ok commit_info
    /\ commit_info <> EmptyString
    /\ splitn 3 "|" commit_info = [sha; date_str; author; msg]
    /\ fromisoformat E (replace "Z" "+00:00" date_str) = Some commit_date
    /\ run_value E (count_query branch) = Ok count_out
    /\ run_value E (merged_query self) = Ok merged_output
    /\ (if truthy count_out then int count_out else Some 0%Z) = Some n
    /\ info =
       mk_BranchInfo branch commit_date sha msg author n
         (existsb (contains branch) (split LF merged_output))
         (ahead_behind_value E self branch).
Proof.
  intros H. unfold get_branch_info_body in H.
  apply bind_ok_inv in H as (commit_info & w1 & Hrun1 & H).
  apply run_ok_inv in Hrun1 as [Hv1 _].
  destruct (truthy commit_info) eqn:Ht; cbn [negb] in H;
    [|apply ret_inv in H as [H _]; discriminate].
  destruct (splitn 3 "|" commit_info)
    as [|sha [|date_str [|author [|msg [|x l]]]]] eqn:Hsp;
    try (unfold raise in H; discriminate).
  apply bind_ok_inv in H as (commit_date & w2 & Hd & H).
  apply or_raise_ok_inv in Hd as [Hd _].
  apply bind_ok_inv in H as (count_out & w3 & Hr2 & H).
  apply run_ok_inv in Hr2 as [Hv2 _].
  apply bind_ok_inv in H as (merged_output & w4 & Hr3 & H).
  apply run_ok_inv in Hr3 as [Hv3 _].
  apply bind_ok_inv in H as (n & w5 & Hn & H).
  apply bind_ok_inv in H as (ab & w6 & Hab & H).
  apply ret_inv in H as [Hinfo _].
  destruct (ahead_behind_of_prints E self branch) as [ds Hp].
  rewrite Hp in Hab. injection Hab as <- _.
  exists commit_info, sha, date_str, author, msg, commit_date, count_out,
         merged_output, n.
  repeat split; auto.
  - intros ->. discriminate.
  - destruct (truthy count_out).
    + now apply or_raise_ok_inv in Hn as [Hn _].
    + apply ret_inv in Hn as [Hn _]. congruence.
  - injection Hinfo as <-. reflexivity.
Qed.

(** The record is returned as is by the inspector, which then prints
    nothing of its own. *)
Lemma get_branch_info_some_inv E self branch w info w' :
  get_branch_info E self branch w = (Ok (Some info), w') ->
  get_branch_info_body E self branch w = (Ok (Some info), w').
Proof.
  unfold get_branch_info, try_except.
  destruct (get_branch_info_body E self branch w) as [[r|e] w1]; [auto|].
  unfold bind, eprint, ret. discriminate.
Qed.

(** The ahead/behind step, read as a function of the answer of [git]. *)
Lemma ahead_behind_value_eq E self branch :
  ahead_behind_value E self branch =
  if (branch =? default_branch self)%string then None
  else
    match run_value E (ahead_behind_query self branch) with
    | Raise _ => None
    | Ok out =>
        if truthy out then
          match split_ws out with
          | [behind; ahead] =>
              match int ahead, int behind with
              | Some a, Some b => Some (a, b)
              | _, _ => None
              end
          | _ => None
          end
        else None
    end.
Proof.
  unfold ahead_behind_value, ahead_behind_of, ahead_behind_query.
  destruct (branch =? default_branch self)%string; [reflexivity|].
  cbn [negb]. unfold try_except, bind. rewrite run_git_command_eq.
  destruct (run_value E _) as [out|e]; [|reflexivity].
  destruct (truthy out); [|reflexivity].
  destruct (split_ws out) as [|behind [|ahead [|x l]]]; try reflexivity.
  destruct (int ahead) as [a|]; [|reflexivity].
  destruct (int behind) as [b|]; reflexivity.
Qed.

(** The body of the inspector, read as a function of the answers of [git]. *)
Lemma body_value_eq E self branch :
  body_value E self branch =
  match run_value E (log_query branch) with
  | Raise e => Raise e
  | Ok commit_info =>
      if negb (truthy commit_info) then Ok None
      else
        match splitn 3 "|" commit_info with
        | [sha; date_str; author; msg] =>
            match fromisoformat E (replace "Z" "+00:00" date_str) with
            | None => Raise (InvalidIsoformat (replace "Z" "+00:00" date_str))
            | Some commit_date =>
                match run_value E (count_query branch) with
                | Raise e => Raise e
                | Ok count_out =>
                    match run_value E (merged_query self) with
                    | Raise e => Raise e
                    | Ok merged_output =>
                        match (if truthy count_out then int count_out
                               else Some 0%Z) with
                        | None => Raise (InvalidIntLiteral count_out)
                        | Some n =>
                            Ok (Some
                                  (mk_BranchInfo branch commit_date sha msg
                                     author n
                                     (existsb (contains branch)
                                        (split LF merged_output))
                                     (ahead_behind_value E self branch)))
                        end
                    end
                end
            end
        | parts => Raise (UnpackError 4 (List.length parts))
        end
  end.
Proof.
  unfold body_value, get_branch_info_body, log_query, count_query, merged_query.
  unfold bind at 1. rewrite run_git_command_eq.
  destruct (run_value E _) as [commit_info|e]; [|reflexivity].
  destruct (negb (truthy commit_info)); [reflexivity|].
  destruct (splitn 3 "|" commit_info)
    as [|sha [|date_str [|author [|msg [|x l]]]]]; try reflexivity.
  unfold bind at 1.
  destruct (fromisoformat E _) as [commit_date|]; [|reflexivity].
  cbn [or_raise]. unfold ret at 1. cbv beta iota.
  unfold bind at 1. rewrite run_git_command_eq.
  destruct (run_value E _) as [count_out|e]; [|reflexivity].
  unfold bind at 1. rewrite run_git_command_eq.
  destruct (run_value E _) as [merged_output|e]; [|reflexivity].
  unfold bind at 1.
  destruct (ahead_behind_of_prints E self branch) as [ds Hp].
  destruct (truthy count_out).
  - destruct (int count_out) as [n|]; [|reflexivity].
    cbn [or_raise]. unfold ret at 1. cbv beta iota.
    unfold bind. rewrite Hp. reflexivity.
  - unfold ret at 1. cbv beta iota. unfold bind. rewrite Hp. reflexivity.
Qed.

Lemma inspect_eq E self branch :
  inspect E self branch =
  match body_value E self branch with
  | Ok r => r
  | Raise _ => None
  end.
Proof.
  unfold inspect, body_value.
  destruct (get_branch_info_body E self branch world0) as [[r|e] w1] eqn:Hb.
  - now rewrite (get_branch_info_of_body_ok _ _ _ _ _ _ Hb).
  - now rewrite (get_branch_info_of_body_raise _ _ _ _ _ _ Hb).
Qed.

(** ** The stable descending sort *)

Lemma subseq_refl {A} (l : list A) : subseq l l.
Proof. induction l; constructor; auto. Qed.

Lemma subseq_filter {A} (f : A -> bool) (l1 l2 : list A) :
  subseq l1 l2 -> subseq (filter f l1) (filter f l2).
Proof.
  induction 1; simpl.
  - constructor.
  - destruct (f x); [constructor|]; auto.
  - destruct (f x); [constructor|]; auto.
Qed.

Lemma subseq_In {A} (l1 l2 : list A) (x : A) :
  subseq l1 l2 -> In x l1 -> In x l2.
Proof.
  induction 1; simpl; auto.
  intros [->|Hin]; auto.
Qed.

Lemma subseq_filter_self {A} (f : A -> bool) (l : list A) :
  subseq (filter f l) l.
Proof.
  induction l as [|x l IH]; simpl; [constructor|].
  destruct (f x); constructor; auto.
Qed.

Lemma subseq_strongly_sorted {A} (R : A -> A -> Prop) (l1 l2 : list A) :
  subseq l1 l2 -> StronglySorted R l2 -> StronglySorted R l1.
Proof.
  induction 1; intros Hs.
  - constructor.
  - inversion Hs as [|? ? Hs' Hall]; subst. constructor; auto.
    rewrite Forall_forall in *. intros y Hy. apply Hall.
    eapply subseq_In; eauto.
  - inversion Hs; subst. auto.
Qed.

Section SortFacts.

Context {A K : Type}.
Variable key : A -> K.
Variable lt : K -> K -> option bool.
Variable rank : K -> Z.

(** When the comparison of two keys succeeds, it compares their ranks. *)
Hypothesis lt_rank :
  forall a b v, lt a b = Some v -> v = (rank a <? rank b)%Z.

Lemma insert_desc_perm (x : A) (l r : list A) :
  insert_desc key lt x l = Ok r -> Permutation (x :: l) r.
Proof.
  revert r; induction l as [|y l IH]; intros r; simpl.
  - intros H; inversion H. auto.
  - destruct (lt (key x) (key y)) as [[|]|]; [| |discriminate].
    + destruct (insert_desc key lt x l) as [r'|]; [|discriminate].
      intros H; inversion H; subst.
      rewrite perm_swap. constructor. now apply IH.
    + intros H; inversion H. auto.
Qed.

Lemma sort_desc_perm (l r : list A) :
  sort_desc key lt l = Ok r -> Permutation l r.
Proof.
  revert r; induction l as [|x l IH]; intros r; simpl.
  - intros H; inversion H. auto.
  - destruct (sort_desc key lt l) as [r'|]; [|discriminate].
    intros H. apply insert_desc_perm in H.
    rewrite <- H. constructor. now apply IH.
Qed.

Lemma insert_desc_sorted (x : A) (l r : list A) :
  StronglySorted (not_before key rank) l ->
  insert_desc key lt x l = Ok r -> StronglySorted (not_before key rank) r.
Proof.
  revert r; induction l as [|y l IH]; intros r Hs; simpl.
  - intros H; inversion H. repeat constructor.
  - destruct (lt (key x) (key y)) as [[|]|] eqn:Hlt; [| |discriminate].
    + destruct (insert_desc key lt x l) as [r'|] eqn:Hi; [|discriminate].
      intros H; inversion H; subst.
      inversion Hs as [|? ? Hs' Hall]; subst.
      constructor; [now apply IH|].
      apply insert_desc_perm in Hi.
      rewrite Forall_forall in *. intros z Hz.
      apply (Permutation_in _ (Permutation_sym Hi)) in Hz.
      destruct Hz as [<-|Hz]; [|now apply Hall].
      apply lt_rank in Hlt. symmetry in Hlt. apply Z.ltb_lt in Hlt.
      unfold not_before. lia.
    + intros H; inversion H; subst. constructor; [exact Hs|].
      apply lt_rank in Hlt. symmetry in Hlt. apply Z.ltb_ge in Hlt.
      inversion Hs as [|? ? Hs' Hall]; subst.
      constructor; [exact Hlt|].
      rewrite Forall_forall in *. intros z Hz. specialize (Hall z Hz).
      unfold not_before in *. lia.
Qed.

(** The sort leaves the list in descending order of rank. *)
Lemma sort_desc_sorted (l r : list A) :
  sort_desc key lt l = Ok r -> StronglySorted (not_before key rank) r.
Proof.
  revert r; induction l as [|x l IH]; intros r; simpl.
  - intros H; inversion H. constructor.
  - destruct (sort_desc key lt l) as [r'|]; [|discriminate].
    intros H. eapply insert_desc_sorted; eauto.
Qed.

Lemma insert_desc_stable (p : Z) (x : A) (l r : list A) :
  insert_desc key lt x l = Ok r ->
  filter (has_rank key rank p) r = filter (has_rank key rank p) (x :: l).
Proof.
  revert r; induction l as [|y l IH]; intros r; simpl.
  - intros H; inversion H. reflexivity.
  - destruct (lt (key x) (key y)) as [[|]|] eqn:Hlt; [| |discriminate].
    + destruct (insert_desc key lt x l) as [r'|] eqn:Hi; [|discriminate].
      intros H; inversion H; subst. simpl. rewrite (IH r' eq_refl). simpl.
      apply lt_rank in Hlt. symmetry in Hlt. apply Z.ltb_lt in Hlt.
      unfold has_rank.
      destruct (Z.eqb_spec (rank (key x)) p), (Z.eqb_spec (rank (key y)) p);
        try reflexivity; lia.
    + intros H; inversion H. reflexivity.
Qed.

(** The sort is stable: the elements of one rank keep their order. *)
Lemma sort_desc_stable (p : Z) (l r : list A) :
  sort_desc key lt l = Ok r ->
  filter (has_rank key rank p) r = filter (has_rank key rank p) l.
Proof.
  revert r; induction l as [|x l IH]; intros r; simpl.
  - intros H; inversion H. reflexivity.
  - destruct (sort_desc key lt l) as [r'|]; [|discriminate].
    intros H. rewrite (insert_desc_stable p _ _ _ H). simpl.
    now rewrite (IH r' eq_refl).
Qed.

(** The only exception of the sort is that of a failed comparison. *)
Lemma sort_desc_raise (l : list A) (e : exn) :
  sort_desc key lt l = Raise e -> e = NaiveAwareError.
Proof.
  assert (Hins : forall x l e, insert_desc key lt x l = Raise e ->
                               e = NaiveAwareError).
  { intros x l0. induction l0 as [|y l0 IH]; intros e0; simpl; [discriminate|].
    destruct (lt (key x) (key y)) as [[|]|].
    - destruct (insert_desc key lt x l0); [discriminate|].
      intros H; inversion H; subst. now apply IH.
    - discriminate.
    - intros H; inversion H. reflexivity. }
  revert e; induction l as [|x l IH]; intros e; simpl; [discriminate|].
  destruct (sort_desc key lt l) as [r'|e'].
  - apply Hins.
  - intros H; inversion H; subst. now apply IH.
Qed.

(** Where every comparison succeeds, the sort returns. *)
Lemma sort_desc_total (l : list A) :
  (forall a b, In a l -> In b l -> lt (key a) (key b) <> None) ->
  exists r, sort_desc key lt l = Ok r.
Proof.
  assert (Hins : forall x l,
             (forall b, In b l -> lt (key x) (key b) <> None) ->
             exists r, insert_desc key lt x l = Ok r).
  { intros x l0. induction l0 as [|y l0 IH]; intros H; simpl; eauto.
    destruct (lt (key x) (key y)) as [[|]|] eqn:Hlt; eauto.
    - destruct IH as [r Hr]; [intros b Hb; apply H; now right|].
      rewrite Hr. eauto.
    - exfalso. apply (H y); [now left | exact Hlt]. }
  induction l as [|x l IH]; intros H; simpl; eauto.
  destruct IH as [r Hr]; [intros a b Ha Hb; apply H; now right|].
  rewrite Hr. apply Hins. intros b Hb. apply H; [now left|].
  right. apply (Permutation_in _ (Permutation_sym (sort_desc_perm _ _ Hr)) Hb).
Qed.

End SortFacts.

Lemma dt_lt_rank (a b : datetime) (v : bool) :
  dt_lt a b = Some v -> v = (dt_point a <? dt_point b)%Z.
Proof.
  unfold dt_lt. destruct (Bool.eqb _ _); [|discriminate].
  intros H; inversion H. reflexivity.
Qed.

Lemma sort_by_date_sorted (l r : list BranchInfo) :
  sort_by_date l = Ok r -> StronglySorted newer_or_same r.
Proof. apply (sort_desc_sorted last_commit_date dt_lt dt_point dt_lt_rank). Qed.

Lemma sort_by_date_stable (p : Z) (l r : list BranchInfo) :
  sort_by_date l = Ok r -> filter (committed_at p) r = filter (committed_at p) l.
Proof. apply (sort_desc_stable last_commit_date dt_lt dt_point dt_lt_rank). Qed.

Lemma sort_by_date_perm (l r : list BranchInfo) :
  sort_by_date l = Ok r -> Permutation l r.
Proof. apply sort_desc_perm. Qed.

(** ** The analyzer, read as a function *)

Lemma get_branches_prints E self :
  prints (get_branches E self) (listed E self)
         (run_diags E ["branch"; if include_remote self then "-a" else "-l"]).
Proof.
  intros w. unfold get_branches, listed, bind. rewrite run_git_command_eq.
  destruct (run_value E _); reflexivity.
Qed.

Lemma inspect_all_prints E self names :
  prints (inspect_all E self names) (Ok (records E self names))
         (flat_map (inspect_diags E self) names).
Proof.
  induction names as [|b rest IH]; cbn [inspect_all records flat_map].
  - apply prints_ret.
  - eapply prints_bind_ok; [apply get_branch_info_prints|].
    replace (flat_map (inspect_diags E self) rest)
      with (flat_map (inspect_diags E self) rest ++ [])
      by apply app_nil_r.
    eapply prints_bind_ok; [exact IH|].
    destruct (inspect E self b); apply prints_ret.
Qed.

Lemma advance_advance w a b : advance (advance w a) b = advance w (a + b).
Proof. unfold advance. simpl. now rewrite Nat.add_assoc. Qed.

Lemma advance_0 w : advance w 0 = w.
Proof. destruct w. unfold advance. simpl. now rewrite Nat.add_0_r. Qed.

Lemma days_since_update_eq E b w :
  days_since_update E b w =
    (if naive b then Ok (naive_age E (clock_reads w) b)
     else Raise NaiveAwareError,
     advance w 1).
Proof.
  unfold days_since_update, days_between, naive, naive_age, is_aware, advance.
  rewrite Nat.add_1_r. destruct (dt_utcoffset (last_commit_date b)); reflexivity.
Qed.

Lemma filterM_days_ok E (test : Z -> bool) l w :
  forallb naive l = true ->
  filterM (fun b => d <- days_since_update E b ;; ret (test d)) l w =
    (Ok (filter_at (fun k b => test (naive_age E k b)) (clock_reads w) l),
     advance w (List.length l)).
Proof.
  revert w; induction l as [|x l IH]; intros w Hl; cbn [filterM filter_at].
  - unfold ret. simpl. now rewrite advance_0.
  - cbn [forallb] in Hl. apply andb_true_iff in Hl as [Hx Hl].
    unfold bind at 1. unfold bind at 1.
    rewrite days_since_update_eq, Hx. unfold ret at 1. cbv beta iota.
    unfold bind. rewrite (IH _ Hl). unfold ret.
    rewrite advance_advance. cbn [advance clock_reads List.length].
    rewrite Nat.add_1_r. reflexivity.
Qed.

Lemma filterM_days_raise E (test : Z -> bool) l w :
  forallb naive l = false ->
  exists w',
    filterM (fun b => d <- days_since_update E b ;; ret (test d)) l w =
      (Raise NaiveAwareError, w').
Proof.
  revert w; induction l as [|x l IH]; intros w Hl; [discriminate|].
  cbn [forallb] in Hl. cbn [filterM].
  unfold bind at 1. unfold bind at 1. rewrite days_since_update_eq.
  destruct (naive x); cbn [andb] in Hl.
  - unfold ret at 1. cbv beta iota. unfold bind at 1.
    destruct (IH (advance w 1) Hl) as [w' Hw']. rewrite Hw'. eauto.
  - eauto.
Qed.

Lemma mapM_to_dict_ok E l w :
  forallb naive l = true ->
  mapM (to_dict E) l w =
    (Ok (map_at (dict_at E) (clock_reads w) l), advance w (List.length l)).
Proof.
  revert w; induction l as [|x l IH]; intros w Hl; cbn [mapM map_at].
  - unfold ret. now rewrite advance_0.
  - cbn [forallb] in Hl. apply andb_true_iff in Hl as [Hx Hl].
    unfold bind at 1. unfold to_dict at 1. unfold bind at 1.
    rewrite days_since_update_eq, Hx. unfold ret at 1. cbv beta iota.
    unfold bind. rewrite (IH _ Hl). unfold ret.
    rewrite advance_advance. cbn [advance clock_reads List.length].
    rewrite Nat.add_1_r. reflexivity.
Qed.

Lemma forallb_filter_at {A} (q : A -> bool) (p : nat -> A -> bool) k l :
  forallb q l = true -> forallb q (filter_at p k l) = true.
Proof.
  revert k; induction l as [|x l IH]; intros k Hl; cbn [filter_at]; auto.
  cbn [forallb] in Hl. apply andb_true_iff in Hl as [Hx Hl].
  destruct (p k x); cbn [forallb]; rewrite ?Hx; cbn [andb]; auto.
Qed.

Lemma forallb_filter {A} (q f : A -> bool) l :
  forallb q l = true -> forallb q (filter f l) = true.
Proof.
  induction l as [|x l IH]; intros Hl; cbn [filter]; auto.
  cbn [forallb] in Hl. apply andb_true_iff in Hl as [Hx Hl].
  destruct (f x); cbn [forallb]; rewrite ?Hx; cbn [andb]; auto.
Qed.

(** [analyze] returns what its functional reading returns. *)
Lemma analyze_eq E self w :
  exists w', analyze E self w = (analyze_value E self (clock_reads w), w').
Proof.
  unfold analyze, analyze_value.
  unfold bind at 1. rewrite get_branches_prints.
  destruct (listed E self) as [names|e]; [|eauto].
  unfold bind at 1. rewrite inspect_all_prints.
  unfold bind at 1. unfold lift_result at 1.
  destruct (sort_by_date (records E self names)) as [sorted|e]; [|eauto].
  destruct (forallb naive sorted) eqn:Hn.
  - unfold bind at 1. rewrite (filterM_days_ok _ _ _ _ Hn).
    unfold bind at 1. rewrite (filterM_days_ok _ _ _ _ Hn).
    unfold bind at 1.
    rewrite mapM_to_dict_ok by (apply forallb_filter_at; exact Hn).
    unfold bind at 1.
    rewrite mapM_to_dict_ok by (apply forallb_filter_at; exact Hn).
    unfold bind at 1.
    rewrite mapM_to_dict_ok by (apply forallb_filter; exact Hn).
    unfold ret. eexists. reflexivity.
  - unfold bind at 1.
    destruct (filterM_days_raise E (fun d => (d >? stale_days self)%Z)
                _ (add_diags (add_diags w
                     (run_diags E ["branch";
                        if include_remote self then "-a" else "-l"]))
                     (flat_map (inspect_diags E self) names)) Hn)
      as [w' Hw'].
    rewrite Hw'. eauto.
Qed.

Lemma analyze_ok_inv E self w r w' :
  analyze E self w = (Ok r, w') ->
  exists names sorted,
    listed E self = Ok names
    /\ sort_by_date (records E self names) = Ok sorted
    /\ forallb naive sorted = true
    /\ r = analysis_of E self (clock_reads w) sorted.
Proof.
  destruct (analyze_eq E self w) as [w1 H1]. rewrite H1.
  unfold analyze_value.
  destruct (listed E self) as [names|e]; [|discriminate].
  destruct (sort_by_date (records E self names)) as [sorted|e] eqn:Hs;
    [|discriminate].
  destruct (forallb naive sorted) eqn:Hn; [|discriminate].
  intros H. inversion H. exists names, sorted. auto.
Qed.

(** The sort returns on records whose dates are all naive or all aware. *)
Lemma sort_by_date_returns (l : list BranchInfo) :
  (forall a b, In a l -> In b l -> naive a = naive b) ->
  exists r, sort_by_date l = Ok r.
Proof.
  intros Hsame. apply sort_desc_total. intros a b Ha Hb.
  specialize (Hsame a b Ha Hb). unfold naive in Hsame. unfold dt_lt.
  destruct (is_aware (last_commit_date a)), (is_aware (last_commit_date b));
    simpl in *; congruence.
Qed.

(** [analyze] returns an analysis whenever the listing command does not
    raise and every record has a naive date. *)
Lemma analyze_returns E self w names :
  listed E self = Ok names ->
  forallb naive (records E self names) = true ->
  exists r w', analyze E self w = (Ok r, w').
Proof.
  intros Hl Hn. rewrite forallb_forall in Hn.
  destruct (sort_by_date_returns (records E self names)) as [sorted Hs].
  { intros a b Ha Hb. now rewrite (Hn a Ha), (Hn b Hb). }
  destruct (analyze_eq E self w) as [w' Hw'].
  exists (analysis_of E self (clock_reads w) sorted), w'.
  rewrite Hw'. f_equal. unfold analyze_value. rewrite Hl, Hs.
  assert (Hall : forallb naive sorted = true).
  { apply forallb_forall. intros b Hb. apply Hn.
    apply (Permutation_in _ (Permutation_sym (sort_by_date_perm _ _ Hs)) Hb). }
  now rewrite Hall.
Qed.

(** ** Merge status *)

Lemma inspect_some_inv E self branch info :
  inspect E self branch = Some info ->
  get_branch_info_body E self branch world0 =
    (Ok (Some info), add_diags world0 (inspect_diags E self branch)).
Proof.
  intros H. apply get_branch_info_some_inv.
  rewrite get_branch_info_prints. now rewrite H.
Qed.

Lemma get_branch_info_inspect E self branch w r w' :
  get_branch_info E self branch w = (Ok r, w') -> inspect E self branch = r.
Proof.
  rewrite get_branch_info_prints. intros H. now inversion H.
Qed.

(** The merged flag of a record is the substring test on the listing. *)
Lemma merged_flag_is_substring_test E self branch w info w' :
  get_branch_info E self branch w = (Ok (Some info), w') ->
  exists listing,
    run_value E (merged_query self) = Ok listing
    /\ is_merged info = appears_in_a_line branch listing.
Proof.
  intros H. apply get_branch_info_some_inv in H.
  apply get_branch_info_body_some_inv in H
    as (ci & sha & ds & au & msg & cd & co & mo & n & _ & _ & _ & _ & _
        & Hm & _ & ->).
  exists mo. split; [exact Hm | reflexivity].
Qed.

(** A name that is a whole token of the listing passes the substring test:
    the flag is never missed, it is only raised too often. *)
Lemma token_appears_in_a_line (branch listing : string) :
  appears_as_token branch listing = true ->
  appears_in_a_line branch listing = true.
Proof.
  unfold appears_as_token, appears_in_a_line. intros H.
  apply existsb_exists in H as (t & Hin & Heq).
  apply String.eqb_eq in Heq. subst t.
  apply split_ws_word in Hin as (Hne & Hns & Hc).
  apply contains_some_line; auto using no_space_lacks_LF.
Qed.

(** C1. Merge status: on a repository where [feat-2] is merged into the
    default branch and [feat] is not, the inspector sets the merged flag of
    [feat], although [feat] is no whole token of the listing of merged
    branches: the flag follows the substring test, not the token test. *)
Theorem C1_merged_flag_by_substring :
  exists info listing,
    get_branch_info Examples.suffix_repo (Examples.on_main 30) "feat" world0
      = (Ok (Some info), world0)
    /\ run_value Examples.suffix_repo (merged_query (Examples.on_main 30))
       = Ok listing
    /\ appears_as_token "feat" listing = false
    /\ appears_in_a_line "feat" listing = true
    /\ is_merged info = true.
Proof.
  eexists _, _. split; [vm_compute; reflexivity|].
  split; [vm_compute; reflexivity|].
  repeat split; vm_compute; reflexivity.
Qed.

(** ** Classification by age *)

Lemma filter_at_ext {A} (p : nat -> A -> bool) (q : A -> bool) k l :
  (forall i x, In x l -> p i x = q x) -> filter_at p k l = filter q l.
Proof.
  revert k; induction l as [|x l IH]; intros k H; cbn [filter_at filter]; auto.
  rewrite (H k x) by now left.
  rewrite (IH (S k)) by (intros; apply H; now right). reflexivity.
Qed.

Lemma map_at_ext {A B} (f : nat -> A -> B) (g : A -> B) k l :
  (forall i x, In x l -> f i x = g x) -> map_at f k l = map g l.
Proof.
  revert k; induction l as [|x l IH]; intros k H; cbn [map_at map]; auto.
  rewrite (H k x) by now left.
  rewrite (IH (S k)) by (intros; apply H; now right). reflexivity.
Qed.

Lemma filter_at_subseq {A} (p : nat -> A -> bool) k l :
  subseq (filter_at p k l) l.
Proof.
  revert k; induction l as [|x l IH]; intros k; cbn [filter_at].
  - constructor.
  - destruct (p k x); constructor; auto.
Qed.

Lemma map_at_length {A B} (f : nat -> A -> B) k l :
  List.length (map_at f k l) = List.length l.
Proof. revert k; induction l; intros k; simpl; auto. Qed.

(** The element at position [i] is kept when the test at the reading
    [k + i] holds. *)
Lemma filter_at_In {A} (p : nat -> A -> bool) k l x :
  In x (filter_at p k l) <->
  exists i, nth_error l i = Some x /\ p (k + i) x = true.
Proof.
  revert k; induction l as [|y l IH]; intros k; cbn [filter_at].
  - split; [intros [] | intros ([|i] & H & _); discriminate].
  - split.
    + intros H. destruct (p k y) eqn:Hp.
      * destruct H as [->|H].
        -- exists 0. rewrite Nat.add_0_r. auto.
        -- apply IH in H as (i & Hi & Hpi). exists (S i).
           rewrite Nat.add_succ_r. auto.
      * apply IH in H as (i & Hi & Hpi). exists (S i).
        rewrite Nat.add_succ_r. auto.
    + intros ([|i] & Hi & Hpi).
      * rewrite Nat.add_0_r in Hpi. inversion Hi; subst. rewrite Hpi. now left.
      * rewrite Nat.add_succ_r in Hpi.
        assert (In x (filter_at p (S k) l)) by (apply IH; eauto).
        destruct (p k y); [now right | assumption].
Qed.

(** On a run that returns, a record is put in the stale bucket exactly when
    its age in whole days, at the reading of the clock made for it, exceeds
    the threshold; a record of exactly the threshold age is not. *)
Lemma stale_iff_age_exceeds E self w r w' :
  analyze E self w = (Ok r, w') ->
  exists sorted,
    a_stale_branches r =
      map_at (dict_at E)
             (clock_reads w + List.length sorted + List.length sorted)
             (stale_records E self (clock_reads w) sorted)
    /\ forall b,
         In b (stale_records E self (clock_reads w) sorted) <->
         exists i, nth_error sorted i = Some b
                   /\ (naive_age E (clock_reads w + i) b > stale_days self)%Z.
Proof.
  intros H. apply analyze_ok_inv in H as (names & sorted & _ & _ & _ & ->).
  exists sorted. split; [reflexivity|].
  intros b. unfold stale_records. rewrite filter_at_In.
  unfold stale_at. split; intros (i & Hi & Hp); exists i; split; auto.
  - now apply Z.gtb_gt.
  - now apply Z.gtb_gt.
Qed.

(** A record whose date carries a UTC offset stops the analysis. *)
Lemma aware_record_aborts E self w names b :
  listed E self = Ok names ->
  In b (records E self names) -> naive b = false ->
  exists w', analyze E self w = (Raise NaiveAwareError, w').
Proof.
  intros Hl Hin Hb. destruct (analyze_eq E self w) as [w' Hw'].
  exists w'. rewrite Hw'. f_equal. unfold analyze_value. rewrite Hl.
  destruct (sort_by_date (records E self names)) as [sorted|e] eqn:Hs.
  - destruct (forallb naive sorted) eqn:Hn; [|reflexivity].
    rewrite forallb_forall in Hn.
    rewrite (Hn b) in Hb; [discriminate|].
    eapply Permutation_in; [apply sort_by_date_perm; exact Hs | exact Hin].
  - apply sort_desc_raise in Hs. now subst.
Qed.

(** C3. Classification by age: on a repository whose only branch has a
    last commit 45 days old, dated as [git log --format=%aI] prints it
    (with its UTC offset), and with a threshold of 30 days, the analysis
    classifies nothing: subtracting the date from the naive
    [datetime.now()] raises, [analyze] aborts and [main] exits with
    status 1. *)
Theorem C3_aware_date_aborts_classification :
  (exists info,
      inspect Examples.real_repo (Examples.on_main 30) "main" = Some info
      /\ ((now_at Examples.real_repo 0 - dt_point (last_commit_date info))
          / us_per_day = 45)%Z)
  /\ fst (analyze Examples.real_repo (Examples.on_main 30) world0)
     = Raise NaiveAwareError
  /\ main Examples.real_repo 30 false false world0
     = (Ok ([], 1%Z), mk_world 1 [ErrorDuringAnalysis NaiveAwareError]).
Proof.
  split.
  - destruct (inspect Examples.real_repo (Examples.on_main 30) "main")
      as [info|] eqn:Hi; [|vm_compute in Hi; discriminate].
    exists info. split; [reflexivity|].
    vm_compute in Hi. injection Hi as <-. vm_compute. reflexivity.
  - split; vm_compute; reflexivity.
Qed.

(** ** The stale/active partition *)

Lemma filter_split_perm {A} (f : A -> bool) (l : list A) :
  Permutation (filter f l ++ filter (fun x => negb (f x)) l) l.
Proof.
  induction l as [|x l IH]; simpl; [constructor|].
  destruct (f x); simpl.
  - now constructor.
  - rewrite <- Permutation_middle. now constructor.
Qed.

Lemma active_is_not_stale (age t : Z) : (age <=? t)%Z = negb (age >? t)%Z.
Proof. rewrite Z.gtb_ltb. apply Z.leb_antisym. Qed.

Lemma map_name_dict_at E k l :
  map d_name (map (dict_at E k) l) = map name l.
Proof. rewrite map_map. reflexivity. Qed.

(** The two tests read the clock separately.  With a date that carries no
    offset and one branch whose age passes from 30 to 31 whole days between
    the stale test and the active test of a run with threshold 30, the
    branch is put in neither bucket: the stale count and the active count
    are both 0 while the total is 1. *)
Lemma two_clock_readings_can_miss_a_branch :
  exists r w',
    analyze Examples.midnight (Examples.on_main 30) world0 = (Ok r, w')
    /\ a_stale_branches r = [] /\ a_active_branches r = []
    /\ s_total_branches (a_summary r) = 1
    /\ s_stale_branches (a_summary r) + s_active_branches (a_summary r)
       <> s_total_branches (a_summary r).
Proof.
  eexists _, _. split; [vm_compute; reflexivity|].
  repeat split. simpl. discriminate.
Qed.

(** On every run that returns, and on which the age in whole days of
    every analyzed branch is the same at every reading of the clock, the
    stale and the active bucket partition the analyzed branches: their
    names together are the names of the analyzed branches, no entry is in
    both, and the stale count plus the active count is the total count of
    the summary. *)
Lemma partition_when_ages_steady (E : env) (self : GitBranchAnalyzer)
    (w : world) (r : analysis) (w' : world) :
  analyze E self w = (Ok r, w') ->
  (forall names b, listed E self = Ok names ->
                   In b (records E self names) ->
                   forall i j, naive_age E i b = naive_age E j b) ->
  exists names,
    listed E self = Ok names
    /\ s_total_branches (a_summary r) = List.length (records E self names)
    /\ s_stale_branches (a_summary r) = List.length (a_stale_branches r)
    /\ s_active_branches (a_summary r) = List.length (a_active_branches r)
    /\ s_stale_branches (a_summary r) + s_active_branches (a_summary r)
       = s_total_branches (a_summary r)
    /\ Permutation (map d_name (a_stale_branches r)
                    ++ map d_name (a_active_branches r))
                   (map name (records E self names))
    /\ (forall d, In d (a_stale_branches r) -> ~ In d (a_active_branches r)).
Proof.
  intros H Hsteady.
  apply analyze_ok_inv in H as (names & sorted & Hl & Hs & Hn & ->).
  pose proof (sort_by_date_perm _ _ Hs) as Hperm.
  set (c := clock_reads w).
  set (old := fun b => (naive_age E 0 b >? stale_days self)%Z).
  assert (Hage : forall i b, In b sorted -> naive_age E i b = naive_age E 0 b).
  { intros i b Hb. apply (Hsteady names b Hl).
    apply (Permutation_in _ (Permutation_sym Hperm) Hb). }
  assert (Hst : stale_records E self c sorted = filter old sorted).
  { apply filter_at_ext. intros i b Hb. unfold stale_at, old.
    now rewrite (Hage i b Hb). }
  assert (Hac : active_records E self c sorted
                = filter (fun b => negb (old b)) sorted).
  { apply filter_at_ext. intros i b Hb. unfold active_at, old.
    rewrite (Hage i b Hb). apply active_is_not_stale. }
  assert (Hd : forall k l, (forall b, In b l -> In b sorted) ->
                           map_at (dict_at E) k l = map (dict_at E 0) l).
  { intros k l Hsub. apply map_at_ext. intros i b Hb. unfold dict_at.
    now rewrite (Hage i b (Hsub b Hb)). }
  assert (Hlen : List.length (filter old sorted)
                 + List.length (filter (fun b => negb (old b)) sorted)
                 = List.length sorted).
  { rewrite <- length_app. apply Permutation_length, filter_split_perm. }
  exists names. unfold analysis_of. fold c.
  cbn [a_summary a_stale_branches a_active_branches s_total_branches
       s_stale_branches s_active_branches].
  rewrite !map_at_length, Hst, Hac.
  rewrite !Hd by (intros b Hb; apply filter_In in Hb; tauto).
  rewrite !map_name_dict_at.
  split; [exact Hl|]. split; [symmetry; now apply Permutation_length|].
  split; [reflexivity|]. split; [reflexivity|].
  split; [exact Hlen|]. split.
  - rewrite <- map_app. apply Permutation_map.
    rewrite filter_split_perm. now apply Permutation_sym.
  - intros d Hin1 Hin2.
    apply in_map_iff in Hin1 as (b1 & <- & Hb1).
    apply in_map_iff in Hin2 as (b2 & Heq & Hb2).
    apply filter_In in Hb1 as [_ Hold1]. apply filter_In in Hb2 as [_ Hold2].
    assert (Hdays : naive_age E 0 b2 = naive_age E 0 b1)
      by (apply (f_equal d_days_since_update) in Heq; exact Heq).
    unfold old in *. rewrite Hdays, Hold1 in Hold2. discriminate.
Qed.

Lemma partition_when_ages_steady_example :
  exists r w',
    analyze Examples.scenario (Examples.on_main 30) world0 = (Ok r, w')
    /\ s_stale_branches (a_summary r) + s_active_branches (a_summary r)
       = s_total_branches (a_summary r)
    /\ s_total_branches (a_summary r) = 3.
Proof.
  destruct (analyze Examples.scenario (Examples.on_main 30) world0)
    as [[r|e] w'] eqn:Hrun; [|vm_compute in Hrun; discriminate].
  exists r, w'. split; [reflexivity|].
  destruct (partition_when_ages_steady Examples.scenario
              (Examples.on_main 30) world0 r w' Hrun)
    as (names & Hl & Htot & _ & _ & Hsum & _).
  - intros names b _ _ i j. reflexivity.
  - split; [exact Hsum|].
    vm_compute in Hrun. injection Hrun as <- _. reflexivity.
Defined.

(** C2. The stale/active partition: on a repository whose dates all carry
    their UTC offset, as [git log --format=%aI] prints them, the analysis
    never partitions an analyzed branch.  When at least one listed branch
    yields a record, [analyze] raises on the subtraction of the date from
    the naive [datetime.now()], before any bucket or count exists, so the
    analyzed branches are in no bucket; a run returns only when no branch
    yields a record, and its analysis is the empty one. *)
Theorem C2_analyzed_branches_reach_no_bucket (E : env)
    (self : GitBranchAnalyzer) (w : world) (names : list string) :
  listed E self = Ok names ->
  (forall b, In b (records E self names) ->
             is_aware (last_commit_date b) = true) ->
  match analyze E self w with
  | (Ok r, _) => records E self names = [] /\ r = empty_analysis self
  | (Raise e, _) => records E self names <> [] /\ e = NaiveAwareError
  end.
Proof.
  intros Hl Haware.
  destruct (records E self names) as [|b l] eqn:Hr.
  - destruct (analyze_eq E self w) as [w' Hw']. rewrite Hw'.
    unfold analyze_value. rewrite Hl, Hr. cbn. split; reflexivity.
  - destruct (aware_record_aborts E self w names b Hl) as [w' Hw'].
    + rewrite Hr. now left.
    + unfold naive. rewrite (Haware b) by now left. reflexivity.
    + rewrite Hw'. split; [discriminate | reflexivity].
Qed.

Lemma C2_analyzed_branches_reach_no_bucket_witness :
  List.length (records Examples.dated_scenario (Examples.on_main 30)
                 ["feature-x"; "feature-y"; "main"]) = 3
  /\ exists w',
       analyze Examples.dated_scenario (Examples.on_main 30) world0
         = (Raise NaiveAwareError, w').
Proof.
  split; [vm_compute; reflexivity|].
  assert (Haware : forall b,
             In b (records Examples.dated_scenario (Examples.on_main 30)
                     ["feature-x"; "feature-y"; "main"]) ->
             is_aware (last_commit_date b) = true).
  { intros b Hb. vm_compute in Hb.
    destruct Hb as [<-|[<-|[<-|[]]]]; reflexivity. }
  pose proof (C2_analyzed_branches_reach_no_bucket Examples.dated_scenario
                (Examples.on_main 30) world0
                ["feature-x"; "feature-y"; "main"] eq_refl Haware) as H.
  destruct (analyze Examples.dated_scenario (Examples.on_main 30) world0)
    as [[r|e] w'].
  - destruct H as [Hnone _]. vm_compute in Hnone. discriminate Hnone.
  - destruct H as [_ ->]. exists w'. reflexivity.
Defined.

(** ** Order of the buckets *)

Lemma Forall2_map_at E k l :
  Forall2 (dict_of E) l (map_at (dict_at E) k l).
Proof.
  revert k; induction l as [|x l IH]; intros k; cbn [map_at]; constructor.
  - now exists k.
  - apply IH.
Qed.

(** C4. Order of the buckets: on every run that returns, each of the three
    buckets holds the dictionaries of a list of records that is in
    descending order of last-commit instant, and in which the records of
    one instant stand in the order in which their branches were listed. *)
Theorem C4_buckets_sorted_newest_first (E : env) (self : GitBranchAnalyzer)
    (w : world) (r : analysis) (w' : world) :
  analyze E self w = (Ok r, w') ->
  exists names stale active merged,
    listed E self = Ok names
    /\ Forall2 (dict_of E) stale (a_stale_branches r)
    /\ Forall2 (dict_of E) active (a_active_branches r)
    /\ Forall2 (dict_of E) merged (a_merged_branches r)
    /\ StronglySorted newer_or_same stale
    /\ StronglySorted newer_or_same active
    /\ StronglySorted newer_or_same merged
    /\ forall p,
         let listed_at_p := filter (committed_at p) (records E self names) in
         subseq (filter (committed_at p) stale) listed_at_p
         /\ subseq (filter (committed_at p) active) listed_at_p
         /\ subseq (filter (committed_at p) merged) listed_at_p.
Proof.
  intros H. apply analyze_ok_inv in H as (names & sorted & Hl & Hs & Hn & ->).
  pose proof (sort_by_date_sorted _ _ Hs) as Hsorted.
  exists names, (stale_records E self (clock_reads w) sorted),
         (active_records E self (clock_reads w) sorted),
         (merged_records sorted).
  assert (H1 : subseq (stale_records E self (clock_reads w) sorted) sorted)
    by apply filter_at_subseq.
  assert (H2 : subseq (active_records E self (clock_reads w) sorted) sorted)
    by apply filter_at_subseq.
  assert (H3 : subseq (merged_records sorted) sorted)
    by apply subseq_filter_self.
  split; [exact Hl|].
  repeat (split; [apply Forall2_map_at|]).
  repeat (split; [eapply subseq_strongly_sorted; eassumption|]).
  intros p. cbv zeta. rewrite <- (sort_by_date_stable p _ _ Hs).
  repeat split; now apply subseq_filter.
Qed.

Lemma C4_buckets_sorted_newest_first_witness :
  exists names stale active merged,
    listed Examples.scenario (Examples.on_main 30) = Ok names
    /\ map name stale = ["feature-x"]
    /\ map name active = ["main"; "feature-y"]
    /\ map name merged = ["main"; "feature-x"]
    /\ StronglySorted newer_or_same stale
    /\ StronglySorted newer_or_same active
    /\ StronglySorted newer_or_same merged.
Proof.
  destruct (analyze Examples.scenario (Examples.on_main 30) world0)
    as [[r|e] w'] eqn:Hrun; [|vm_compute in Hrun; discriminate].
  destruct (C4_buckets_sorted_newest_first Examples.scenario
              (Examples.on_main 30) world0 r w' Hrun)
    as (names & stale & active & merged & Hl & F1 & F2 & F3
        & S1 & S2 & S3 & _).
  exists names, stale, active, merged.
  assert (Hn : forall l ds, Forall2 (dict_of Examples.scenario) l ds ->
                            map name l = map d_name ds).
  { induction 1 as [|b d l ds [k ->] _ IH]; simpl; congruence. }
  vm_compute in Hrun. injection Hrun as <- _.
  rewrite (Hn _ _ F1), (Hn _ _ F2), (Hn _ _ F3).
  repeat split; auto.
Defined.

(** ** Ahead and behind *)

Lemma run_value_same q E E' args :
  same_but_for q E E' -> args <> q -> run_value E' args = run_value E args.
Proof. intros [_ H] Hne. unfold run_value. now rewrite (H args Hne). Qed.

(** Whether the inspection yields a record, and every field of the record
    but the pair, do not depend on the answer to the ahead/behind query. *)
Lemma inspect_same_but_for_query E E' self branch :
  same_but_for (ahead_behind_query self branch) E E' ->
  option_map (set_ahead_behind None) (inspect E' self branch)
  = option_map (set_ahead_behind None) (inspect E self branch).
Proof.
  intros Hsame. rewrite !inspect_eq, !body_value_eq.
  rewrite (run_value_same _ _ _ (log_query branch) Hsame) by discriminate.
  rewrite (run_value_same _ _ _ (count_query branch) Hsame) by discriminate.
  rewrite (run_value_same _ _ _ (merged_query self) Hsame) by discriminate.
  destruct Hsame as [-> _].
  destruct (run_value E (log_query branch)) as [ci|e]; [|reflexivity].
  destruct (negb (truthy ci)); [reflexivity|].
  destruct (splitn 3 "|" ci) as [|sha [|ds [|au [|msg [|x l]]]]];
    try reflexivity.
  destruct (fromisoformat E _); [|reflexivity].
  destruct (run_value E (count_query branch)) as [co|e]; [|reflexivity].
  destruct (run_value E (merged_query self)) as [mo|e]; [|reflexivity].
  destruct (if truthy co then int co else Some 0%Z); reflexivity.
Qed.

Lemma ahead_behind_of_record E self branch w info w' :
  get_branch_info E self branch w = (Ok (Some info), w') ->
  ahead_behind info = ahead_behind_value E self branch.
Proof.
  intros H. apply get_branch_info_some_inv in H.
  apply get_branch_info_body_some_inv in H
    as (ci & sha & ds & au & msg & cd & co & mo & n & _ & _ & _ & _ & _
        & _ & _ & ->).
  reflexivity.
Qed.

Lemma split_ws_two_truthy (s a b : string) :
  split_ws s = [a; b] -> truthy s = true.
Proof. destruct s; [discriminate | reflexivity]. Qed.

(** C7. Ahead and behind: for a branch other than the default branch whose
    inspection yields a record, when the count query exits with status zero
    and prints exactly two words that [int] parses, the first is taken as
    the behind count and the second as the ahead count, and the record
    stores the pair (ahead, behind); when the query fails, prints nothing,
    prints another number of words, or prints a word that is no integer,
    the pair is left unset.  For the default branch the pair is unset.
    Whether a record is yielded, and its other fields, do not depend on the
    answer to the query. *)
Theorem C7_ahead_behind_pair (E : env) (self : GitBranchAnalyzer)
    (branch : string) (w : world) (info : BranchInfo) (w' : world) :
  get_branch_info E self branch w = (Ok (Some info), w') ->
  let query := ahead_behind_query self branch in
  (branch = default_branch self -> ahead_behind info = None)
  /\ (branch <> default_branch self ->
      (forall out err behind ahead a b,
          git E query = Exited 0 out err ->
          split_ws (strip out) = [behind; ahead] ->
          int ahead = Some a -> int behind = Some b ->
          ahead_behind info = Some (a, b))
      /\ (forall rc out err,
             git E query = Exited rc out err -> rc <> 0%Z ->
             ahead_behind info = None)
      /\ (forall what,
             git E query = RunRaised what -> ahead_behind info = None)
      /\ (forall out err,
             git E query = Exited 0 out err ->
             (forall behind ahead, split_ws (strip out) <> [behind; ahead]) ->
             ahead_behind info = None)
      /\ (forall out err behind ahead,
             git E query = Exited 0 out err ->
             split_ws (strip out) = [behind; ahead] ->
             int ahead = None \/ int behind = None ->
             ahead_behind info = None))
  /\ (forall E', same_but_for query E E' ->
         exists info',
           inspect E' self branch = Some info'
           /\ set_ahead_behind None info' = set_ahead_behind None info).
Proof.
  intros H query.
  pose proof (ahead_behind_of_record _ _ _ _ _ _ H) as Hab.
  rewrite ahead_behind_value_eq in Hab. fold query in Hab.
  split; [|split].
  - intros ->. now rewrite String.eqb_refl in Hab.
  - intros Hne. apply String.eqb_neq in Hne. rewrite Hne in Hab.
    unfold run_value in Hab. repeat split.
    + intros out err behind ahead a b Hgit Hsp Ha Hb.
      rewrite Hgit in Hab. cbn [Z.eqb] in Hab.
      now rewrite (split_ws_two_truthy _ _ _ Hsp), Hsp, Ha, Hb in Hab.
    + intros rc out err Hgit Hrc. rewrite Hgit in Hab.
      apply Z.eqb_neq in Hrc. now rewrite Hrc in Hab.
    + intros what Hgit. now rewrite Hgit in Hab.
    + intros out err Hgit Hnot. rewrite Hgit in Hab. cbn [Z.eqb] in Hab.
      destruct (truthy (strip out)); [|exact Hab].
      destruct (split_ws (strip out)) as [|bh [|ah [|x l]]]; try exact Hab.
      now destruct (Hnot bh ah).
    + intros out err behind ahead Hgit Hsp Hor.
      rewrite Hgit in Hab. cbn [Z.eqb] in Hab.
      rewrite (split_ws_two_truthy _ _ _ Hsp), Hsp in Hab.
      destruct Hor as [Hn|Hn]; rewrite Hn in Hab; [exact Hab|].
      destruct (int ahead); exact Hab.
  - intros E' Hsame.
    pose proof (inspect_same_but_for_query E E' self branch Hsame) as Heq.
    rewrite (get_branch_info_inspect _ _ _ _ _ _ H) in Heq.
    destruct (inspect E' self branch) as [info'|]; [|discriminate].
    exists info'. split; [reflexivity|].
    cbn [option_map] in Heq.
    exact (f_equal (fun o => match o with
                             | Some i => i
                             | None => set_ahead_behind None info
                             end) Heq).
Qed.

Lemma C7_ahead_behind_pair_witness :
  exists info w',
    get_branch_info Examples.scenario (Examples.on_main 30) "feature-x" world0
      = (Ok (Some info), w')
    /\ ahead_behind info = Some (0%Z, 2%Z).
Proof.
  destruct (get_branch_info Examples.scenario (Examples.on_main 30)
              "feature-x" world0) as [[[info|]|e] w'] eqn:Hrun;
    try (vm_compute in Hrun; discriminate).
  exists info, w'. split; [reflexivity|].
  destruct (C7_ahead_behind_pair _ _ _ _ _ _ Hrun) as (_ & Hpair & _).
  destruct Hpair as (Hok & _); [discriminate|].
  apply (Hok (Examples.lines ["2" ++ Examples.TAB ++ "0"])%string
             EmptyString "2" "0"); reflexivity.
Defined.

(** ** Branches that yield no record *)

Lemma records_app E self l1 l2 :
  records E self (l1 ++ l2) = records E self l1 ++ records E self l2.
Proof. unfold records. apply flat_map_app. Qed.

Lemma records_In E self names b :
  In b (records E self names) ->
  exists branch, In branch names /\ inspect E self branch = Some b.
Proof.
  unfold records. intros H. apply in_flat_map in H as (branch & Hin & Hb).
  exists branch. split; [exact Hin|].
  destruct (inspect E self branch) as [i|]; [|destruct Hb].
  destruct Hb as [->|[]]. reflexivity.
Qed.

Lemma records_length E self names :
  List.length (records E self names)
  = List.length (filter (yields_record E self) names).
Proof.
  induction names as [|b rest IH]; [reflexivity|].
  unfold records in *. cbn [flat_map filter]. unfold yields_record at 1.
  destruct (inspect E self b); simpl; now rewrite IH.
Qed.

(** A record bears the name of the branch it was made for. *)
Lemma inspect_name E self branch b :
  inspect E self branch = Some b -> name b = branch.
Proof.
  intros H. apply inspect_some_inv in H.
  apply get_branch_info_body_some_inv in H
    as (ci & sha & ds & au & msg & cd & co & mo & n & _ & _ & _ & _ & _
        & _ & _ & ->).
  reflexivity.
Qed.

Lemma In_map_at {A B} (f : nat -> A -> B) k l d :
  In d (map_at f k l) -> exists i b, In b l /\ d = f i b.
Proof.
  revert k; induction l as [|x l IH]; intros k; cbn [map_at]; [intros []|].
  intros [<-|H].
  - exists k, x. split; [now left | reflexivity].
  - apply IH in H as (i & b & Hb & ->). exists i, b. split; [now right|auto].
Qed.

(** Every entry of a bucket is the dictionary of the record of a listed
    branch. *)
Lemma bucket_entry_origin E self w r w' d :
  analyze E self w = (Ok r, w') ->
  In d (a_stale_branches r ++ a_active_branches r ++ a_merged_branches r) ->
  exists names b,
    listed E self = Ok names
    /\ In (d_name d) names
    /\ inspect E self (d_name d) = Some b
    /\ dict_of E b d.
Proof.
  intros H Hd. apply analyze_ok_inv in H as (names & sorted & Hl & Hs & _ & ->).
  pose proof (sort_by_date_perm _ _ Hs) as Hperm.
  assert (Hfrom : forall k bucket,
             subseq bucket sorted -> In d (map_at (dict_at E) k bucket) ->
             exists b, In (d_name d) names
                       /\ inspect E self (d_name d) = Some b /\ dict_of E b d).
  { intros k bucket Hsub Hin.
    apply In_map_at in Hin as (i & b & Hb & ->).
    apply (subseq_In _ _ _ Hsub) in Hb.
    apply (Permutation_in _ (Permutation_sym Hperm)) in Hb.
    apply records_In in Hb as (branch & Hbr & Hi).
    pose proof (inspect_name _ _ _ _ Hi) as Hname.
    exists b. cbn [dict_at d_name]. rewrite Hname.
    repeat split; auto. now exists i. }
  unfold analysis_of in Hd.
  cbn [a_stale_branches a_active_branches a_merged_branches] in Hd.
  exists names.
  apply in_app_or in Hd as [Hd|Hd]; [|apply in_app_or in Hd as [Hd|Hd]].
  - destruct (Hfrom _ _ (filter_at_subseq _ _ _) Hd) as (b & ? & ? & ?); eauto.
  - destruct (Hfrom _ _ (filter_at_subseq _ _ _) Hd) as (b & ? & ? & ?); eauto.
  - destruct (Hfrom _ _ (subseq_filter_self _ _) Hd) as (b & ? & ? & ?); eauto.
Qed.

(** C6. Skipped branches: when the log query yields no output the inspector
    returns no record and prints nothing of its own; when the assembly of
    the record raises, the inspector prints the failure to the error stream
    and returns no record; it never raises.  A branch that yields no record
    does not stop the loop over the other branches, is in none of the three
    buckets, and is not counted in the total. *)
Theorem C6_failed_inspection_is_skipped (E : env) (self : GitBranchAnalyzer)
    (branch : string) :
  (forall w w1,
      _run_git_command E (log_query branch) w = (Ok EmptyString, w1) ->
      get_branch_info E self branch w = (Ok None, w1))
  /\ (forall w e w1,
         get_branch_info_body E self branch w = (Raise e, w1) ->
         get_branch_info E self branch w =
           (Ok None,
            mk_world (clock_reads w1)
                     (err_stream w1 ++ [ErrorGettingInfo branch e])))
  /\ (forall w, exists r w1, get_branch_info E self branch w = (Ok r, w1))
  /\ (forall w0 w1,
         get_branch_info E self branch w0 = (Ok None, w1) ->
         (forall before after w,
             exists w',
               inspect_all E self (before ++ branch :: after) w =
                 (Ok (records E self before ++ records E self after), w'))
         /\ (forall w r w',
                analyze E self w = (Ok r, w') ->
                ~ In branch (map d_name (a_stale_branches r))
                /\ ~ In branch (map d_name (a_active_branches r))
                /\ ~ In branch (map d_name (a_merged_branches r))
                /\ exists names,
                     listed E self = Ok names
                     /\ yields_record E self branch = false
                     /\ s_total_branches (a_summary r) =
                        List.length (filter (yields_record E self) names))).
Proof.
  split; [|split; [|split]].
  - intros w w1 Hrun. apply get_branch_info_of_body_ok.
    unfold get_branch_info_body, bind. fold (log_query branch).
    rewrite Hrun. reflexivity.
  - intros w e w1 Hb. now apply get_branch_info_of_body_raise.
  - intros w. rewrite get_branch_info_prints. eauto.
  - intros w0 w1 Hnone. apply get_branch_info_inspect in Hnone.
    split.
    + intros before after w. rewrite inspect_all_prints. eexists.
      f_equal. f_equal. rewrite records_app. f_equal.
      unfold records. cbn [flat_map]. now rewrite Hnone.
    + intros w r w' Hrun.
      assert (Hout : forall d,
                 In d (a_stale_branches r ++ a_active_branches r
                       ++ a_merged_branches r) -> d_name d <> branch).
      { intros d Hd Heq.
        destruct (bucket_entry_origin _ _ _ _ _ _ Hrun Hd)
          as (names & b & _ & _ & Hi & _).
        rewrite Heq in Hi. congruence. }
      repeat split.
      * intros Hin. apply in_map_iff in Hin as (d & Hn & Hd).
        apply (Hout d); [|exact Hn]. apply in_or_app. now left.
      * intros Hin. apply in_map_iff in Hin as (d & Hn & Hd).
        apply (Hout d); [|exact Hn]. apply in_or_app. right.
        apply in_or_app. now left.
      * intros Hin. apply in_map_iff in Hin as (d & Hn & Hd).
        apply (Hout d); [|exact Hn]. apply in_or_app. right.
        apply in_or_app. now right.
      * apply analyze_ok_inv in Hrun as (names & sorted & Hl & Hs & _ & ->).
        exists names. split; [exact Hl|]. split.
        -- unfold yields_record. now rewrite Hnone.
        -- cbn [analysis_of a_summary s_total_branches].
           rewrite <- records_length. symmetry.
           apply Permutation_length, (sort_by_date_perm _ _ Hs).
Qed.

Lemma C6_failed_inspection_is_skipped_witness :
  get_branch_info Examples.ghost_repo (Examples.on_main 30) "broken" world0
    = (Ok None,
       mk_world 0 [ErrorGettingInfo "broken" (InvalidIsoformat "not-a-date")])
  /\ exists r w',
       analyze Examples.ghost_repo (Examples.on_main 30) world0 = (Ok r, w')
       /\ ~ In "ghost" (map d_name (a_active_branches r))
       /\ map d_name (a_active_branches r) = ["main"]
       /\ s_total_branches (a_summary r) = 1.
Proof.
  split.
  - apply (proj1 (proj2 (C6_failed_inspection_is_skipped Examples.ghost_repo
                           (Examples.on_main 30) "broken"))
             world0 (InvalidIsoformat "not-a-date") world0).
    vm_compute. reflexivity.
  - destruct (analyze Examples.ghost_repo (Examples.on_main 30) world0)
      as [[r|e] w'] eqn:Hrun; [|vm_compute in Hrun; discriminate].
    exists r, w'. split; [reflexivity|].
    destruct (proj2 (proj2 (proj2
                (C6_failed_inspection_is_skipped Examples.ghost_repo
                   (Examples.on_main 30) "ghost")))
                world0
                (mk_world 0 [ErrorRunningGit (log_query "ghost") 128;
                             StderrOf "fatal: bad revision"]))
      as [_ Hex]; [vm_compute; reflexivity|].
    destruct (Hex world0 r w' Hrun) as (_ & Hact & _ & _).
    split; [exact Hact|].
    vm_compute in Hrun. injection Hrun as <- _. split; reflexivity.
Defined.

(** ** The text report *)

Lemma block_refl {A} (x : list A) : block x x.
Proof. exists [], []. simpl. now rewrite app_nil_r. Qed.

Lemma block_app_r {A} (x l l' : list A) : block x l -> block x (l ++ l').
Proof.
  intros (pre & post & ->). exists pre, (post ++ l').
  now rewrite <- !app_assoc.
Qed.

Lemma block_app_l {A} (x l l' : list A) : block x l -> block x (l' ++ l).
Proof.
  intros (pre & post & ->). exists (l' ++ pre), post.
  now rewrite <- !app_assoc.
Qed.

Lemma block_flat_map {A B} (f : A -> list B) (l : list A) (d : A) :
  In d l -> block (f d) (flat_map f l).
Proof.
  intros H. apply in_split in H as (l1 & l2 & ->).
  rewrite flat_map_app. cbn [flat_map].
  exists (flat_map f l1), (flat_map f l2). reflexivity.
Qed.

Lemma capped_listing_of_code (q : list branch_dict) :
  capped_listing q
    (map (fun branch => ("  - " ++ d_name branch)%string) (firstn 5 q)
     ++ (if (len q >? 5)%Z
         then [ ("  ... and " ++ of_int (len q - 5) ++ " more")%string ]
         else [])).
Proof.
  unfold capped_listing, len. split; intros Hq.
  - assert (Hgt : (Z.of_nat (List.length q) >? 5)%Z = true)
      by (apply Z.gtb_gt; lia).
    rewrite Hgt. split; [|apply firstn_length_le; lia].
    unfold more_line. rewrite Nat2Z.inj_sub by lia. reflexivity.
  - assert (Hle : (Z.of_nat (List.length q) >? 5)%Z = false)
      by (rewrite Z.gtb_ltb; apply Z.ltb_ge; lia).
    rewrite Hle, app_nil_r, firstn_all2 by exact Hq. reflexivity.
Qed.

Lemma deletable_recommendation_eq (a : analysis) :
  let deletable := filter d_is_merged (a_stale_branches a) in
  deletable_recommendation a =
  match deletable with
  | [] => []
  | _ :: _ =>
      (NL ++ glyph_merged ++ " " ++ of_int (len deletable)
         ++ " branches can be safely deleted (stale + merged):")%string
      :: shown_of deletable
  end.
Proof.
  unfold deletable_recommendation, shown_of. cbv zeta.
  destruct (filter d_is_merged (a_stale_branches a)); reflexivity.
Qed.

Lemma unmerged_recommendation_eq (a : analysis) :
  let stale_unmerged :=
    filter (fun b => negb (d_is_merged b)) (a_stale_branches a) in
  unmerged_recommendation a =
  match stale_unmerged with
  | [] => []
  | _ :: _ =>
      (NL ++ glyph_warning ++ " " ++ of_int (len stale_unmerged)
         ++ " stale branches are NOT merged:")%string
      :: shown_of stale_unmerged
         ++ [ (NL ++ "  Review these branches before deleting!")%string ]
  end.
Proof.
  unfold unmerged_recommendation, shown_of. cbv zeta.
  destruct (filter (fun b => negb (d_is_merged b)) (a_stale_branches a));
    [reflexivity|].
  cbn [app]. now rewrite <- app_assoc.
Qed.

Lemma filter_none {A} (p : A -> bool) (l : list A) :
  (forall x, In x l -> p x = false) -> filter p l = [].
Proof.
  induction l as [|x l IH]; intros H; cbn [filter]; [reflexivity|].
  rewrite (H x) by now left. apply IH. intros y Hy. apply H. now right.
Qed.

Lemma filter_flat_map_none {A B} (p : B -> bool) (f : A -> list B) l :
  (forall x, filter p (f x) = []) -> filter p (flat_map f l) = [].
Proof.
  intros H. induction l as [|x l IH]; cbn [flat_map]; [reflexivity|].
  now rewrite filter_app, H, IH.
Qed.

Lemma remainder_line_more (n : nat) : remainder_line (more_line n) = true.
Proof. reflexivity. Qed.

Lemma remainder_line_item (b : branch_dict) :
  remainder_line (item_line b) = false.
Proof. reflexivity. Qed.

(** Nothing above the recommendations looks like a count of branches left
    out, whatever the names, authors and subjects are. *)
Lemma no_remainder_in_header (a : analysis) :
  filter remainder_line (report_header a) = [].
Proof. reflexivity. Qed.

Lemma no_remainder_in_stale_entry (d : branch_dict) :
  filter remainder_line (stale_entry d) = [].
Proof.
  unfold stale_entry. cbv zeta.
  destruct (d_ahead_behind d) as [[ahead behind]|]; reflexivity.
Qed.

Lemma no_remainder_in_stale_section (a : analysis) :
  filter remainder_line (stale_section a) = [].
Proof.
  unfold stale_section. destruct (a_stale_branches a) as [|d l] eqn:Hl;
    [reflexivity|].
  rewrite filter_app, filter_flat_map_none by apply no_remainder_in_stale_entry.
  reflexivity.
Qed.

Lemma no_remainder_in_contributors (a : analysis) :
  filter remainder_line (contributors_section a) = [].
Proof.
  unfold contributors_section. destruct (a_active_branches a) as [|d l];
    [reflexivity|].
  cbv zeta. rewrite filter_app. cbn [app].
  replace (filter remainder_line
             [(NL ++ glyph_chart ++ " Most active contributors:")%string])
    with (@nil string) by reflexivity.
  apply filter_none. intros line Hin.
  apply in_map_iff in Hin as ([author count] & <- & _). reflexivity.
Qed.

(** The lines below a heading hold one count of branches left out when
    there are more than five branches, and none otherwise. *)
Lemma remainder_of_shown (q : list branch_dict) :
  filter remainder_line (shown_of q) =
  if (5 <? List.length q)%nat then [more_line (List.length q - 5)] else [].
Proof.
  destruct (capped_listing_of_code q) as [Hmore Hall]. fold (shown_of q) in *.
  destruct (5 <? List.length q)%nat eqn:Hq.
  - apply Nat.ltb_lt in Hq. destruct (Hmore Hq) as [-> _].
    rewrite filter_app, filter_none.
    + cbn [filter app]. now rewrite remainder_line_more.
    + intros line Hin. apply in_map_iff in Hin as (b & <- & _).
      apply remainder_line_item.
  - apply Nat.ltb_ge in Hq. rewrite (Hall Hq). apply filter_none.
    intros line Hin. apply in_map_iff in Hin as (b & <- & _).
    apply remainder_line_item.
Qed.

(** C9. Recommendations: the report is its header, the stale branches
    section, the heading of the recommendations, the recommendation of the
    stale merged branches, the recommendation of the stale branches that
    are not merged, the contributors and the closing line, and nothing
    else.  Each recommendation is printed only when its list is not empty:
    its heading, the lines of its list, and for the second one the review
    note.  The lines of a list name every branch, and hold nothing else,
    when there are five or fewer; otherwise they name exactly the first
    five and end with the line "... and N more", N being the number of
    branches minus five.  In the whole report no other line counts
    branches left out. *)
Theorem C9_recommendations_capped (a : analysis) :
  let deletable := filter d_is_merged (a_stale_branches a) in
  let stale_unmerged :=
    filter (fun b => negb (d_is_merged b)) (a_stale_branches a) in
  exists shown1 shown2,
    print_text_report a =
      report_header a ++ stale_section a
      ++ [ (NL ++ rule)%string; "RECOMMENDATIONS"; rule ]
      ++ match deletable with
         | [] => []
         | _ :: _ => deletable_heading (List.length deletable) :: shown1
         end
      ++ match stale_unmerged with
         | [] => []
         | _ :: _ =>
             unmerged_heading (List.length stale_unmerged)
             :: shown2 ++ [review_note]
         end
      ++ contributors_section a ++ [closing_rule]
    /\ capped_listing deletable shown1
    /\ capped_listing stale_unmerged shown2
    /\ filter remainder_line (print_text_report a) =
       (if (5 <? List.length deletable)%nat
        then [more_line (List.length deletable - 5)] else [])
       ++ (if (5 <? List.length stale_unmerged)%nat
           then [more_line (List.length stale_unmerged - 5)] else []).
Proof.
  intros deletable stale_unmerged.
  exists (shown_of deletable), (shown_of stale_unmerged).
  assert (Heq : print_text_report a =
      report_header a ++ stale_section a
      ++ [ (NL ++ rule)%string; "RECOMMENDATIONS"; rule ]
      ++ match deletable with
         | [] => []
         | _ :: _ =>
             deletable_heading (List.length deletable) :: shown_of deletable
         end
      ++ match stale_unmerged with
         | [] => []
         | _ :: _ =>
             unmerged_heading (List.length stale_unmerged)
             :: shown_of stale_unmerged ++ [review_note]
         end
      ++ contributors_section a ++ [closing_rule]).
  { unfold print_text_report.
    rewrite deletable_recommendation_eq, unmerged_recommendation_eq.
    cbv zeta. fold deletable stale_unmerged. reflexivity. }
  split; [exact Heq|].
  split; [apply capped_listing_of_code|].
  split; [apply capped_listing_of_code|].
  rewrite Heq, !filter_app.
  rewrite no_remainder_in_header, no_remainder_in_stale_section,
    no_remainder_in_contributors.
  cbn [app]. rewrite ?app_nil_r.
  replace (filter remainder_line [(NL ++ rule)%string; "RECOMMENDATIONS"; rule])
    with (@nil string) by reflexivity.
  replace (filter remainder_line [closing_rule])
    with (@nil string) by reflexivity.
  cbn [app]. rewrite ?app_nil_r. f_equal.
  - destruct deletable as [|d l] eqn:Hd; [reflexivity|]. rewrite <- Hd.
    cbn [filter].
    replace (remainder_line (deletable_heading (List.length deletable)))
      with false by reflexivity.
    apply remainder_of_shown.
  - destruct stale_unmerged as [|d l] eqn:Hu; [reflexivity|]. rewrite <- Hu.
    cbn [filter].
    replace (remainder_line (unmerged_heading (List.length stale_unmerged)))
      with false by reflexivity.
    rewrite filter_app, remainder_of_shown.
    replace (filter remainder_line [review_note])
      with (@nil string) by reflexivity.
    apply app_nil_r.
Qed.

Lemma C9_recommendations_capped_witness :
  block (deletable_heading 7
         :: "  - m1" :: "  - m2" :: "  - m3" :: "  - m4" :: "  - m5"
         :: "  ... and 2 more"
         :: unmerged_heading 2 :: "  - u1" :: "  - u2" :: review_note
         :: closing_rule :: nil)
        (print_text_report Examples.crowded)
  /\ filter remainder_line (print_text_report Examples.crowded)
     = "  ... and 2 more" :: nil.
Proof.
  destruct (C9_recommendations_capped Examples.crowded)
    as (s1 & s2 & Heq & [Hfive _] & [_ Hall] & Hrem).
  split; [|exact Hrem].
  rewrite Heq. cbn [Examples.crowded a_stale_branches a_active_branches filter
                    Examples.stale_dict d_is_merged negb contributors_section
                    List.length].
  destruct Hfive as [-> _]; [simpl; lia|].
  rewrite Hall by (simpl; lia).
  exists (report_header Examples.crowded ++ stale_section Examples.crowded
          ++ [ (NL ++ rule)%string; "RECOMMENDATIONS"; rule ]), [].
  rewrite app_nil_r, <- !app_assoc. reflexivity.
Defined.

(** ** The last-commit subject *)

Lemma to_dict_ok_inv E b w d w' :
  to_dict E b w = (Ok d, w') -> dict_of E b d.
Proof.
  unfold to_dict. intros H. apply bind_ok_inv in H as (age & w1 & Hage & H).
  apply ret_inv in H as [<- _].
  rewrite days_since_update_eq in Hage.
  destruct (naive b); [|discriminate].
  injection Hage as <- _. now exists (clock_reads w).
Qed.

Lemma main_json_ok_inv E days remote w out w' :
  main E days remote true w = (Ok (out, 0%Z), w') ->
  exists self w1 a w2,
    analyze E self w1 = (Ok a, w2) /\ out = [PrintedJson a].
Proof.
  unfold main. destruct (git E _) as [rc o e|what]; [|discriminate].
  destruct (negb (rc =? 0)%Z).
  - unfold bind, eprint, ret. intros H. inversion H.
  - intros H. apply bind_ok_inv in H as (self & w1 & _ & H).
    unfold try_except in H.
    match type of H with
    | match ?m w1 with _ => _ end = _ =>
        destruct (m w1) as [[v|ex] w2] eqn:Hin
    end.
    + apply bind_ok_inv in Hin as (a & w3 & Hrun & Hret).
      apply ret_inv in Hret as [<- _]. inversion H; subst.
      exists self, w1, a, w3. auto.
    + unfold bind, eprint, ret in H. inversion H.
Qed.

Lemma bucket_entry_subject E self w r w' d :
  analyze E self w = (Ok r, w') ->
  In d (a_stale_branches r ++ a_active_branches r ++ a_merged_branches r) ->
  subject_in_full E d.
Proof.
  intros Hrun Hd.
  destruct (bucket_entry_origin _ _ _ _ _ _ Hrun Hd)
    as (names & b & _ & _ & Hi & [k ->]).
  unfold subject_in_full. cbn [dict_at d_name d_last_commit_msg] in *.
  pose proof Hi as Hbody. apply inspect_some_inv in Hbody.
  apply get_branch_info_body_some_inv in Hbody
    as (ci & sha & ds & au & msg & cd & co & mo & n & Hlog & _ & Hsp & _ & _
        & _ & _ & Hb).
  exists ci, sha, ds, au. split; [exact Hlog|].
  rewrite Hb. cbn [last_commit_msg].
  rewrite <- (join_splitn 3 "|" ci), Hsp. reflexivity.
Qed.

(** C8. Subject of the last commit: in the text report every stale branch
    has its block of lines, whose fifth line shows the first 50 characters
    of the subject, exactly 50 when the subject is longer and the whole
    subject otherwise; the dictionary of a branch holds the subject
    unchanged, and the document printed in JSON mode holds, for every
    branch of its three lists, the subject as the log line gave it. *)
Theorem C8_subject_cut_in_text_only :
  (forall a d,
      In d (a_stale_branches a) ->
      exists shown rest,
        block (stale_entry d) (print_text_report a)
        /\ nth_error (stale_entry d) 4
           = Some ("  Last commit: " ++ shown)%string
        /\ d_last_commit_msg d = (shown ++ rest)%string
        /\ (50 < String.length (d_last_commit_msg d) ->
            String.length shown = 50)
        /\ (String.length (d_last_commit_msg d) <= 50 ->
            shown = d_last_commit_msg d))
  /\ (forall E b w d w',
         to_dict E b w = (Ok d, w') ->
         d_last_commit_msg d = last_commit_msg b)
  /\ (forall E days remote w out w',
         main E days remote true w = (Ok (out, 0%Z), w') ->
         exists a,
           out = [PrintedJson a]
           /\ forall d,
                In d (a_stale_branches a ++ a_active_branches a
                      ++ a_merged_branches a) ->
                subject_in_full E d).
Proof.
  split; [|split].
  - intros a d Hin.
    destruct (take_prefix 50 (d_last_commit_msg d)) as [rest Hrest].
    exists (take 50 (d_last_commit_msg d)), rest.
    split; [|split; [|split; [|split]]].
    + unfold print_text_report. apply block_app_l, block_app_r.
      unfold stale_section.
      destruct (a_stale_branches a) as [|d0 l] eqn:Hst; [destruct Hin|].
      apply block_app_l. now apply block_flat_map.
    + reflexivity.
    + exact Hrest.
    + intros Hlong. rewrite take_length. lia.
    + intros Hshort. now apply take_all.
  - intros E b w d w' H. apply to_dict_ok_inv in H as [k ->]. reflexivity.
  - intros E days remote w out w' H.
    apply main_json_ok_inv in H as (self & w1 & a & w2 & Hrun & ->).
    exists a. split; [reflexivity|].
    intros d Hd. eapply bucket_entry_subject; eassumption.
Qed.

Lemma C8_subject_cut_in_text_only_witness :
  (exists a w',
      analyze Examples.scenario (Examples.on_main 30) world0 = (Ok a, w')
      /\ In ("  Last commit: "
             ++ "rework the parser so that nested lists are read in")%string
            (print_text_report a))
  /\ (exists a d w',
         main Examples.scenario 30 false true world0
           = (Ok ([PrintedJson a], 0%Z), w')
         /\ a_stale_branches a = [d]
         /\ d_last_commit_msg d
            = "rework the parser so that nested lists are read in one pass"
         /\ subject_in_full Examples.scenario d).
Proof.
  destruct C8_subject_cut_in_text_only as (Htext & _ & Hjson).
  split.
  - destruct (analyze Examples.scenario (Examples.on_main 30) world0)
      as [[a|e] w'] eqn:Hrun; [|vm_compute in Hrun; discriminate].
    exists a, w'. split; [reflexivity|].
    vm_compute in Hrun. injection Hrun as <- _.
    match goal with
    | |- In _ (print_text_report ?r) =>
        destruct (Htext r (hd (Examples.stale_dict "" true)
                              (a_stale_branches r)))
          as (shown & rest & (pre & post & Hblock) & Hline & _ & _ & _);
          [left; reflexivity|]
    end.
    rewrite Hblock. apply in_or_app. right. apply in_or_app. left.
    apply (nth_error_In _ 4). reflexivity.
  - destruct (main Examples.scenario 30 false true world0)
      as [[[out code]|e] w'] eqn:Hrun; [|vm_compute in Hrun; discriminate].
    assert (Hcode : code = 0%Z)
      by (vm_compute in Hrun; now injection Hrun as _ <- _).
    subst code.
    destruct (Hjson _ _ _ _ _ _ Hrun) as (a & -> & Hfull).
    vm_compute in Hrun. injection Hrun as <- <-.
    eexists _, _, _. split; [reflexivity|]. split; [reflexivity|].
    split; [reflexivity|].
    apply Hfull. left. reflexivity.
Defined.

(** * Further properties *)

(** ** The branch lister *)

Lemma branch_names_filter (lines : list string) :
  branch_names lines = filter kept_name (map clean_line lines).
Proof.
  induction lines as [|line rest IH]; [reflexivity|].
  cbn [branch_names map filter]. fold (clean_line line).
  fold (kept_name (clean_line line)). rewrite IH. reflexivity.
Qed.

Lemma kept_name_spec (n : string) :
  kept_name n = true <-> n <> EmptyString /\ contains "->" n = false.
Proof.
  unfold kept_name, truthy. rewrite andb_true_iff, !negb_true_iff. split.
  - intros [Hn Hc]. split; [|exact Hc]. intros ->. discriminate.
  - intros [Hn Hc]. split; [|exact Hc]. destruct n; [congruence|reflexivity].
Qed.

(** X1. Branch lister: the names [get_branches] returns are non-empty
    and hold no ["->"]; they are cleaned lines of the listing, in the order
    of the listing; every cleaned line that is non-empty and holds no
    ["->"] is returned; and when the command prints nothing or fails, the
    list is empty. *)
Theorem get_branches_names (E : env) (self : GitBranchAnalyzer) (w : world)
    (names : list string) (w' : world) :
  get_branches E self w = (Ok names, w') ->
  exists output,
    run_value E ["branch"; if include_remote self then "-a" else "-l"]
      = Ok output
    /\ Forall (fun n => n <> EmptyString /\ contains "->" n = false) names
    /\ subseq names (map clean_line (split LF output))
    /\ (forall line, In line (split LF output) ->
                     clean_line line <> EmptyString ->
                     contains "->" (clean_line line) = false ->
                     In (clean_line line) names)
    /\ (output = EmptyString -> names = []).
Proof.
  rewrite get_branches_prints. unfold listed.
  destruct (run_value E _) as [output|e]; [|discriminate].
  intros H. injection H as <- _. exists output.
  rewrite branch_names_filter. split; [reflexivity|]. split; [|split; [|split]].
  - apply Forall_forall. intros n Hn. apply filter_In in Hn as [_ Hk].
    now apply kept_name_spec.
  - apply subseq_filter_self.
  - intros line Hin Hne Hc. apply filter_In. split.
    + now apply in_map.
    + now apply kept_name_spec.
  - intros ->. reflexivity.
Qed.

Lemma get_branches_names_witness :
  exists w',
    get_branches Examples.remote_repo Examples.with_remote world0
      = (Ok ["main"; "origin/main"; "origin/topic"], w')
    /\ Forall (fun n => n <> EmptyString /\ contains "->" n = false)
              ["main"; "origin/main"; "origin/topic"].
Proof.
  destruct (get_branches Examples.remote_repo Examples.with_remote world0)
    as [[names|e] w'] eqn:Hrun; [|vm_compute in Hrun; discriminate].
  destruct (get_branches_names _ _ _ _ _ Hrun) as (out & _ & Hall & _).
  vm_compute in Hrun. injection Hrun as <- <-.
  eexists. split; [reflexivity | exact Hall].
Defined.

(** ** Age in whole days *)

Lemma us_per_day_pos : (0 < us_per_day)%Z.
Proof. reflexivity. Qed.

(** X2. Age in days: when [days_since_update] returns [d], the date of
    the record is naive, the clock was read exactly once, nothing was
    printed, and [d] is the floor of the elapsed time in days: [d] days
    have fully elapsed and [d + 1] have not.  In particular a commit dated
    after the reading of the clock has a negative age. *)
Theorem days_since_update_floor (E : env) (b : BranchInfo) (w : world)
    (d : Z) (w' : world) :
  days_since_update E b w = (Ok d, w') ->
  let elapsed := (now_at E (clock_reads w) - dt_wall (last_commit_date b))%Z in
  is_aware (last_commit_date b) = false
  /\ clock_reads w' = S (clock_reads w)
  /\ err_stream w' = err_stream w
  /\ (d * us_per_day <= elapsed < (d + 1) * us_per_day)%Z
  /\ ((elapsed < 0)%Z -> (d < 0)%Z)
  /\ ((0 <= elapsed)%Z -> (0 <= d)%Z).
Proof.
  rewrite days_since_update_eq. unfold naive, naive_age.
  destruct (is_aware (last_commit_date b)); [discriminate|].
  cbn [negb]. intros H. injection H as <- <-. cbv zeta.
  pose proof us_per_day_pos as Hpos.
  set (elapsed := (now_at E (clock_reads w) - dt_wall (last_commit_date b))%Z).
  pose proof (Z.mul_div_le elapsed us_per_day Hpos) as Hlo.
  pose proof (Z.mul_succ_div_gt elapsed us_per_day Hpos) as Hhi.
  split; [reflexivity|]. split; [simpl; lia|]. split; [reflexivity|].
  split; [|split].
  - unfold Z.succ in Hhi. lia.
  - intros Hneg. apply Z.div_lt_upper_bound; lia.
  - intros Hnn. apply Z.div_pos; lia.
Qed.

Lemma days_since_update_floor_witness :
  exists d w',
    days_since_update Examples.midnight
      (BranchInfo_init "main"
         (mk_datetime (Concrete.at_time 2024 1 1 0 0 0) None) "" "" "")
      world0 = (Ok d, w')
    /\ d = 30%Z /\ clock_reads w' = 1.
Proof.
  destruct (days_since_update Examples.midnight
              (BranchInfo_init "main"
                 (mk_datetime (Concrete.at_time 2024 1 1 0 0 0) None) "" "" "")
              world0) as [[d|e] w'] eqn:Hrun;
    [|vm_compute in Hrun; discriminate].
  exists d, w'. split; [reflexivity|].
  destruct (days_since_update_floor _ _ _ _ _ Hrun)
    as (_ & Hreads & _ & _ & _ & _).
  split; [|exact Hreads].
  vm_compute in Hrun. now injection Hrun as <- _.
Defined.

(** ** When the inspector yields a record *)

Lemma truthy_nonempty (s : string) : s <> EmptyString -> truthy s = true.
Proof. destruct s; [congruence | reflexivity]. Qed.

(** The inspector yields [info] exactly under the conditions of a record. *)
Lemma inspect_some_iff (E : env) (self : GitBranchAnalyzer)
    (branch : string) (info : BranchInfo) :
  inspect E self branch = Some info <-> record_conditions E self branch info.
Proof.
  split.
  - intros H. apply inspect_some_inv in H.
    apply get_branch_info_body_some_inv in H
      as (ci & sha & ds & au & msg & cd & co & mo & n & H).
    exists ci, sha, ds, au, msg, cd, co, mo, n. exact H.
  - intros (ci & sha & ds & au & msg & cd & co & mo & n
            & Hlog & Hne & Hsp & Hd & Hco & Hmo & Hn & ->).
    rewrite inspect_eq, body_value_eq, Hlog, (truthy_nonempty _ Hne).
    cbn [negb]. rewrite Hsp, Hd, Hco, Hmo, Hn. reflexivity.
Qed.

(** X3. Inspector: the inspection of a branch yields a record exactly
    when the log query prints a non-empty line of four bar-separated fields
    whose date parses, the count query and the merged listing do not raise,
    and the count printed is empty or an integer; the record then holds
    those fields, the merged flag of the substring test, and the pair of
    the ahead/behind step. *)
Theorem inspect_yields_record_iff (E : env) (self : GitBranchAnalyzer)
    (branch : string) (info : BranchInfo) :
  inspect E self branch = Some info <-> record_conditions E self branch info.
Proof.
  split.
  - intros H. apply inspect_some_inv in H.
    apply get_branch_info_body_some_inv in H
      as (ci & sha & ds & au & msg & cd & co & mo & n & H).
    exists ci, sha, ds, au, msg, cd, co, mo, n. exact H.
  - intros (ci & sha & ds & au & msg & cd & co & mo & n
            & Hlog & Hne & Hsp & Hd & Hco & Hmo & Hn & ->).
    rewrite inspect_eq, body_value_eq, Hlog, (truthy_nonempty _ Hne).
    cbn [negb]. rewrite Hsp, Hd, Hco, Hmo, Hn. reflexivity.
Qed.

Lemma inspect_yields_record_iff_witness :
  exists info,
    inspect Examples.scenario (Examples.on_main 30) "feature-y" = Some info
    /\ record_conditions Examples.scenario (Examples.on_main 30)
                         "feature-y" info.
Proof.
  destruct (inspect Examples.scenario (Examples.on_main 30) "feature-y")
    as [info|] eqn:Hi; [|vm_compute in Hi; discriminate].
  exists info. split; [reflexivity|].
  now apply (proj1 (inspect_yields_record_iff _ _ _ _)).
Defined.

Lemma contains_in_empty (s : string) :
  s <> EmptyString -> contains s EmptyString = false.
Proof. destruct s; [congruence | reflexivity]. Qed.

(** X4. Inspector, secondary queries: when the log line of a branch is
    read and its date parses, the failure of the count query, of the merged
    listing and of the ahead/behind query does not drop the branch: the
    record is yielded with a commit count of 0, the merged flag unset and
    no ahead/behind pair. *)
Theorem secondary_failures_keep_branch (E : env) (self : GitBranchAnalyzer)
    (branch commit_info sha date_str author msg : string)
    (commit_date : datetime) :
  branch <> EmptyString ->
  run_value E (log_query branch) = Ok commit_info ->
  commit_info <> EmptyString ->
  splitn 3 "|" commit_info = [sha; date_str; author; msg] ->
  fromisoformat E (replace "Z" "+00:00" date_str) = Some commit_date ->
  no_output E (count_query branch) ->
  no_output E (merged_query self) ->
  no_output E (ahead_behind_query self branch) ->
  inspect E self branch =
    Some (mk_BranchInfo branch commit_date sha msg author 0%Z false None).
Proof.
  unfold no_output. intros Hb Hlog Hne Hsp Hd Hco Hmo Hab.
  apply inspect_some_iff.
  exists commit_info, sha, date_str, author, msg, commit_date,
         EmptyString, EmptyString, 0%Z.
  repeat (split; [assumption || reflexivity|]).
  rewrite ahead_behind_value_eq, Hab. cbn [truthy is_empty negb split existsb].
  rewrite (contains_in_empty _ Hb).
  destruct (branch =? default_branch self)%string; reflexivity.
Qed.

Lemma secondary_failures_keep_branch_witness :
  exists info,
    inspect Examples.bare_log (Examples.on_main 30) "topic" = Some info
    /\ commit_count info = 0%Z /\ is_merged info = false
    /\ ahead_behind info = None
    /\ last_commit_msg info = "fix | and | more".
Proof.
  eexists. split.
  - apply (secondary_failures_keep_branch Examples.bare_log
             (Examples.on_main 30) "topic"
             "9d9d9d9|2024-03-01T09:30:00|Dee|fix | and | more"
             "9d9d9d9" "2024-03-01T09:30:00" "Dee" "fix | and | more"
             (mk_datetime (Concrete.at_time 2024 3 1 9 30 0) None));
      try reflexivity; discriminate.
  - repeat split.
Defined.

(** ** The fields of the log line *)

Lemma splitn_all_but_last_lack_sep (n : nat) (sep : ascii) (s : string) :
  Forall (fun part => lacks sep part = true) (removelast (splitn n sep s)).
Proof.
  revert n; induction s as [|c s IH]; intros n; [constructor|].
  cbn [splitn]. destruct n as [|m]; [constructor|].
  destruct (Ascii.eqb c sep) eqn:Hc.
  - specialize (IH m).
    destruct (splitn m sep s) as [|h t] eqn:Hs;
      [now destruct (splitn_not_nil m sep s)|].
    cbn [removelast] in *. constructor; [reflexivity | exact IH].
  - specialize (IH (S m)).
    destruct (splitn (S m) sep s) as [|h t] eqn:Hs;
      [now destruct (splitn_not_nil (S m) sep s)|].
    destruct t as [|h' t']; [constructor|].
    cbn [removelast] in *. inversion IH as [|? ? Hh Ht]; subst.
    constructor; [|exact Ht]. cbn [lacks]. now rewrite Hc, Hh.
Qed.

Lemma splitn_length (n : nat) (sep : ascii) (s : string) :
  List.length (splitn n sep s) = S (Nat.min n (count_char sep s)).
Proof.
  revert n; induction s as [|c s IH]; intros n.
  - simpl. now rewrite Nat.min_0_r.
  - cbn [splitn count_char]. destruct n as [|m]; [reflexivity|].
    destruct (Ascii.eqb c sep).
    + cbn [List.length]. rewrite IH. cbn [Nat.add]. now rewrite <- Nat.succ_min_distr.
    + specialize (IH (S m)).
      destruct (splitn (S m) sep s) as [|h t];
        [discriminate|]. cbn [List.length Nat.add] in *. exact IH.
Qed.

(** X5. Fields of a record: the log line of a branch that yields a
    record is its hash, the text of its date, its author and its subject
    joined by bars, where the hash, the date and the author hold no bar (so
    bars of the subject are kept in the subject), the text of the date
    parses to the date of the record, and the record bears the name of the
    branch. *)
Theorem record_fields_of_log_line (E : env) (self : GitBranchAnalyzer)
    (branch : string) (info : BranchInfo) :
  inspect E self branch = Some info ->
  exists commit_info date_str,
    run_value E (log_query branch) = Ok commit_info
    /\ commit_info =
       (last_commit_sha info ++ "|" ++ date_str ++ "|" ++ author info
          ++ "|" ++ last_commit_msg info)%string
    /\ lacks "|" (last_commit_sha info) = true
    /\ lacks "|" date_str = true
    /\ lacks "|" (author info) = true
    /\ fromisoformat E (replace "Z" "+00:00" date_str)
       = Some (last_commit_date info)
    /\ name info = branch.
Proof.
  intros H. apply inspect_some_iff in H
    as (ci & sha & ds & au & msg & cd & co & mo & n
        & Hlog & _ & Hsp & Hd & _ & _ & _ & ->).
  exists ci, ds. cbn [last_commit_sha author last_commit_msg
                      last_commit_date name].
  pose proof (splitn_all_but_last_lack_sep 3 "|" ci) as Hparts.
  rewrite Hsp in Hparts. cbn [removelast] in Hparts.
  inversion Hparts as [|? ? H1 Hparts1]; subst.
  inversion Hparts1 as [|? ? H2 Hparts2]; subst.
  inversion Hparts2 as [|? ? H3 _]; subst.
  repeat (split; [assumption || reflexivity || idtac|]); try reflexivity.
  rewrite <- (join_splitn 3 "|" ci), Hsp. reflexivity.
Qed.

Lemma record_fields_of_log_line_witness :
  exists info,
    inspect Examples.bare_log (Examples.on_main 30) "topic" = Some info
    /\ last_commit_msg info = "fix | and | more"
    /\ lacks "|" (author info) = true.
Proof.
  destruct (inspect Examples.bare_log (Examples.on_main 30) "topic")
    as [info|] eqn:Hi; [|vm_compute in Hi; discriminate].
  exists info. split; [reflexivity|].
  destruct (record_fields_of_log_line _ _ _ _ Hi)
    as (ci & ds & _ & _ & _ & _ & Hau & _ & _).
  split; [|exact Hau].
  vm_compute in Hi. now injection Hi as <-.
Defined.

(** What the inspector prints when its body raises. *)
Lemma inspector_logs_failure E self branch e :
  body_value E self branch = Raise e ->
  exists ds,
    forall w,
      get_branch_info E self branch w =
        (Ok None, add_diags w (ds ++ [ErrorGettingInfo branch e])).
Proof.
  intros Hv.
  pose proof (printer_eq _ (printer_get_branch_info_body E self branch)) as Hp.
  fold (body_value E self branch) in Hp. rewrite Hv in Hp.
  eexists. intros w.
  rewrite (get_branch_info_of_body_raise _ _ _ _ _ _ (Hp w)).
  now rewrite add_diags_app.
Qed.

(** X6. Log line with too few fields: when the log query prints a
    non-empty line with fewer than three bars, the inspector yields no
    record and the last line it prints to the error stream reports the
    failed unpacking of four values from as many fields as the line has. *)
Theorem short_log_line_is_reported (E : env) (self : GitBranchAnalyzer)
    (branch commit_info : string) :
  run_value E (log_query branch) = Ok commit_info ->
  commit_info <> EmptyString ->
  count_char "|" commit_info < 3 ->
  exists ds,
    forall w,
      get_branch_info E self branch w =
        (Ok None,
         add_diags w
           (ds ++ [ErrorGettingInfo branch
                     (UnpackError 4 (S (count_char "|" commit_info)))])).
Proof.
  intros Hlog Hne Hbars. apply inspector_logs_failure.
  rewrite body_value_eq, Hlog, (truthy_nonempty _ Hne). cbn [negb].
  pose proof (splitn_length 3 "|" commit_info) as Hlen.
  rewrite Nat.min_r in Hlen by lia.
  destruct (splitn 3 "|" commit_info) as [|a [|b [|c [|d [|x l]]]]];
    cbn [List.length] in Hlen; try (rewrite <- Hlen; reflexivity); lia.
Qed.

Lemma short_log_line_is_reported_witness :
  get_branch_info Examples.ghost_repo (Examples.on_main 30) "broken" world0
    = (Ok None,
       mk_world 0 [ErrorGettingInfo "broken" (InvalidIsoformat "not-a-date")])
  /\ exists ds,
       get_branch_info
         (Concrete.env_of
            [ (log_query "short", Concrete.ok "abc|2024-03-01T09:30:00") ]
            (Concrete.frozen 0))
         (Examples.on_main 30) "short" world0
       = (Ok None,
          add_diags world0 (ds ++ [ErrorGettingInfo "short" (UnpackError 4 2)])).
Proof.
  split; [vm_compute; reflexivity|].
  destruct (short_log_line_is_reported
              (Concrete.env_of
                 [ (log_query "short", Concrete.ok "abc|2024-03-01T09:30:00") ]
                 (Concrete.frozen 0))
              (Examples.on_main 30) "short" "abc|2024-03-01T09:30:00")
    as [ds Hds]; try reflexivity; [discriminate | simpl; lia|].
  exists ds. apply Hds.
Defined.

(** ** The analysis as a whole *)

Lemma forallb_false_witness {A} (f : A -> bool) (l : list A) :
  forallb f l = false -> exists x, In x l /\ f x = false.
Proof.
  induction l as [|x l IH]; [discriminate|]. cbn [forallb].
  destruct (f x) eqn:Hx.
  - intros H. destruct (IH H) as (y & Hy & Hfy). exists y. split; [now right|auto].
  - intros _. exists x. split; [now left | exact Hx].
Qed.

(** X7. Outcome of the analysis: when the listing command does not
    raise, [analyze] returns an analysis exactly when the date of every
    record is naive; when the date of some record carries a UTC offset it
    raises the error of mixing naive and aware dates. *)
Theorem analyze_returns_iff_dates_naive (E : env) (self : GitBranchAnalyzer)
    (w : world) (names : list string) :
  listed E self = Ok names ->
  ((exists r w', analyze E self w = (Ok r, w'))
   <-> forallb naive (records E self names) = true)
  /\ (forallb naive (records E self names) = false ->
      exists w', analyze E self w = (Raise NaiveAwareError, w')).
Proof.
  intros Hl. split; [split|].
  - intros (r & w' & Hrun).
    apply analyze_ok_inv in Hrun as (names' & sorted & Hl' & Hs & Hn & _).
    rewrite Hl in Hl'. injection Hl' as <-.
    rewrite forallb_forall in *. intros b Hb. apply Hn.
    apply (Permutation_in _ (sort_by_date_perm _ _ Hs) Hb).
  - intros Hn. now apply (analyze_returns E self w names).
  - intros Hn. apply forallb_false_witness in Hn as (b & Hb & Hnb).
    now apply (aware_record_aborts E self w names b).
Qed.

Lemma analyze_returns_iff_dates_naive_witness :
  (exists r w',
      analyze Examples.scenario (Examples.on_main 30) world0 = (Ok r, w'))
  /\ (exists w',
         analyze Examples.suffix_repo (Examples.on_main 30) world0
           = (Raise NaiveAwareError, w')).
Proof.
  split.
  - apply (proj1 (analyze_returns_iff_dates_naive Examples.scenario
                    (Examples.on_main 30) world0
                    ["feature-x"; "feature-y"; "main"] eq_refl)).
    vm_compute. reflexivity.
  - apply (proj2 (analyze_returns_iff_dates_naive Examples.suffix_repo
                    (Examples.on_main 30) world0
                    ["feat"; "feat-2"; "main"] eq_refl)).
    vm_compute. reflexivity.
Defined.

Lemma subseq_length {A} (l1 l2 : list A) :
  subseq l1 l2 -> List.length l1 <= List.length l2.
Proof. induction 1; simpl; lia. Qed.

(** X8. Summary: on every run that returns, the stale, active and
    merged counts of the summary are the lengths of the three lists, none
    exceeds the total count, and the summary repeats the current branch,
    the default branch and the threshold of the analyzer. *)
Theorem summary_counts_match_lists (E : env) (self : GitBranchAnalyzer)
    (w : world) (r : analysis) (w' : world) :
  analyze E self w = (Ok r, w') ->
  let s := a_summary r in
  s_stale_branches s = List.length (a_stale_branches r)
  /\ s_active_branches s = List.length (a_active_branches r)
  /\ s_merged_branches s = List.length (a_merged_branches r)
  /\ s_stale_branches s <= s_total_branches s
  /\ s_active_branches s <= s_total_branches s
  /\ s_merged_branches s <= s_total_branches s
  /\ s_current_branch s = current_branch self
  /\ s_default_branch s = default_branch self
  /\ s_stale_threshold_days s = stale_days self.
Proof.
  intros H. apply analyze_ok_inv in H as (names & sorted & _ & _ & _ & ->).
  unfold analysis_of. cbv zeta.
  cbn [a_summary a_stale_branches a_active_branches a_merged_branches
       s_total_branches s_stale_branches s_active_branches s_merged_branches
       s_current_branch s_default_branch s_stale_threshold_days].
  rewrite !map_at_length.
  repeat split;
    apply subseq_length;
    first [apply filter_at_subseq | apply subseq_filter_self].
Qed.

Lemma summary_counts_match_lists_witness :
  exists r w',
    analyze Examples.scenario (Examples.on_main 30) world0 = (Ok r, w')
    /\ s_merged_branches (a_summary r) = List.length (a_merged_branches r)
    /\ s_merged_branches (a_summary r) <= s_total_branches (a_summary r).
Proof.
  destruct (analyze Examples.scenario (Examples.on_main 30) world0)
    as [[r|e] w'] eqn:Hrun; [|vm_compute in Hrun; discriminate].
  exists r, w'. split; [reflexivity|].
  destruct (summary_counts_match_lists _ _ _ _ _ Hrun)
    as (_ & _ & Hm & _ & _ & Hle & _).
  split; assumption.
Defined.

Lemma naive_age_mono (E : env) (i j : nat) (b : BranchInfo) :
  clock_never_goes_back E -> i <= j -> (naive_age E i b <= naive_age E j b)%Z.
Proof.
  intros Hclock Hij. unfold naive_age.
  apply Z.div_le_mono; [reflexivity|]. specialize (Hclock i j Hij). lia.
Qed.

Lemma filter_at_exclusive_length {A} (p q : nat -> A -> bool) (l : list A) :
  forall k k',
    (forall i x, p (k + i) x = true -> q (k' + i) x = false) ->
    List.length (filter_at p k l) + List.length (filter_at q k' l)
    <= List.length l.
Proof.
  induction l as [|x l IH]; intros k k' Hex; [reflexivity|].
  cbn [filter_at].
  assert (Hrest : List.length (filter_at p (S k) l)
                  + List.length (filter_at q (S k') l) <= List.length l).
  { apply IH. intros i y Hp. specialize (Hex (S i) y).
    rewrite !Nat.add_succ_r in Hex. now apply Hex. }
  specialize (Hex 0 x). rewrite !Nat.add_0_r in Hex.
  destruct (p k x).
  - rewrite (Hex eq_refl). cbn [List.length]. lia.
  - destruct (q k' x); cbn [List.length]; lia.
Qed.

Lemma In_map_at_from {A B} (f : nat -> A -> B) k l d :
  In d (map_at f k l) -> exists j b, In b l /\ d = f (k + j) b.
Proof.
  revert k; induction l as [|x l IH]; intros k; cbn [map_at]; [intros []|].
  intros [<-|H].
  - exists 0, x. rewrite Nat.add_0_r. split; [now left | reflexivity].
  - apply IH in H as (j & b & Hb & ->). exists (S j), b.
    rewrite Nat.add_succ_r. split; [now right | reflexivity].
Qed.

(** An entry of the stale list, or of the active list, is the dictionary
    of a sorted record that passed the test at an earlier reading. *)
Lemma bucket_entry_test E self c sorted d :
  (In d (a_stale_branches (analysis_of E self c sorted)) ->
   exists i j b, In b sorted /\ i <= j
                 /\ stale_at E self i b = true /\ d = dict_at E j b)
  /\ (In d (a_active_branches (analysis_of E self c sorted)) ->
      exists i j b, In b sorted /\ i <= j
                    /\ active_at E self i b = true /\ d = dict_at E j b).
Proof.
  unfold analysis_of. cbv zeta. cbn [a_stale_branches a_active_branches].
  split; intros H; apply In_map_at_from in H as (j & b & Hb & ->);
    apply filter_at_In in Hb as (i & Hi & Hp);
    pose proof (nth_error_In _ _ Hi) as Hin;
    assert (Hlt : i < List.length sorted)
      by (apply nth_error_Some; congruence);
    eexists _, _, b; (split; [exact Hin|]); (split; [|split; [exact Hp|reflexivity]]);
    lia.
Qed.

Lemma map_d_name_map_at E k l :
  map d_name (map_at (dict_at E) k l) = map name l.
Proof. revert k; induction l as [|x l IH]; intros k; simpl; congruence. Qed.

(** Two tests that exclude each other at the readings made for one
    element select disjoint parts of the list. *)
Lemma filter_at_exclusive_perm {A} (p q : nat -> A -> bool) (l : list A) :
  forall k k',
    (forall i x, p (k + i) x = true -> q (k' + i) x = false) ->
    exists rest,
      Permutation (filter_at p k l ++ filter_at q k' l ++ rest) l.
Proof.
  induction l as [|x l IH]; intros k k' Hex.
  - exists []. constructor.
  - destruct (IH (S k) (S k')) as [rest Hperm].
    { intros i y Hp. specialize (Hex (S i) y).
      rewrite !Nat.add_succ_r in Hex. now apply Hex. }
    specialize (Hex 0 x). rewrite !Nat.add_0_r in Hex.
    cbn [filter_at]. destruct (p k x).
    + rewrite (Hex eq_refl). exists rest. cbn [app]. now constructor.
    + destruct (q k' x).
      * exists rest. apply Permutation_sym.
        change (Permutation (x :: l)
                  (filter_at p (S k) l
                   ++ x :: (filter_at q (S k') l ++ rest))).
        apply Permutation_cons_app. now apply Permutation_sym.
      * exists (x :: rest). apply Permutation_sym.
        rewrite app_assoc. apply Permutation_cons_app.
        rewrite <- app_assoc. now apply Permutation_sym.
Qed.

Lemma NoDup_app_disjoint {A} (l1 l2 : list A) (a : A) :
  NoDup (l1 ++ l2) -> In a l1 -> In a l2 -> False.
Proof.
  induction l1 as [|x l1 IH]; cbn [app]; intros Hnd H1 H2; [destruct H1|].
  inversion Hnd as [|? ? Hx Hnd']; subst. destruct H1 as [->|H1].
  - apply Hx, in_or_app. now right.
  - now apply IH.
Qed.

(** The records bear the names of the listing that yield a record, in the
    order of the listing. *)
Lemma records_names E self names :
  map name (records E self names) = filter (yields_record E self) names.
Proof.
  induction names as [|b rest IH]; [reflexivity|].
  unfold records in *. cbn [flat_map filter]. unfold yields_record at 1.
  destruct (inspect E self b) as [i|] eqn:Hi; cbn [app map].
  - now rewrite IH, (inspect_name _ _ _ _ Hi).
  - exact IH.
Qed.

(** X9. Clock that never goes back: on every run that returns and
    whose clock readings never decrease, no branch is put in both the stale
    and the active bucket.  The two buckets are the dictionaries of two
    lists of records which, with the records put in neither, make up the
    records of the listed branches, each record once; so when the listing
    names no branch twice, no name is in both buckets.  The stale count
    plus the active count is then at most the total count, and every entry
    of the stale list reports an age above the threshold. *)
Theorem no_branch_in_both_buckets (E : env) (self : GitBranchAnalyzer)
    (w : world) (r : analysis) (w' : world) :
  analyze E self w = (Ok r, w') ->
  clock_never_goes_back E ->
  (exists names stale active neither,
      listed E self = Ok names
      /\ Forall2 (dict_of E) stale (a_stale_branches r)
      /\ Forall2 (dict_of E) active (a_active_branches r)
      /\ Permutation (stale ++ active ++ neither) (records E self names)
      /\ (NoDup names ->
          forall n, In n (map d_name (a_stale_branches r)) ->
                    ~ In n (map d_name (a_active_branches r))))
  /\ s_stale_branches (a_summary r) + s_active_branches (a_summary r)
     <= s_total_branches (a_summary r)
  /\ forall d, In d (a_stale_branches r) ->
               (d_days_since_update d > stale_days self)%Z.
Proof.
  intros H Hclock.
  apply analyze_ok_inv in H as (names & sorted & Hl & Hs & _ & ->).
  assert (Hex : forall i b,
             stale_at E self (clock_reads w + i) b = true ->
             active_at E self (clock_reads w + List.length sorted + i) b
             = false).
  { intros i b Hp. unfold stale_at, active_at in *.
    apply Z.gtb_gt in Hp. apply Z.leb_gt.
    pose proof (naive_age_mono E (clock_reads w + i)
                  (clock_reads w + List.length sorted + i) b Hclock).
    lia. }
  split; [|split].
  - destruct (filter_at_exclusive_perm _ _ sorted _ _ Hex) as [neither Hperm].
    fold (stale_records E self (clock_reads w) sorted) in Hperm.
    fold (active_records E self (clock_reads w) sorted) in Hperm.
    assert (Hall : Permutation
                     (stale_records E self (clock_reads w) sorted
                      ++ active_records E self (clock_reads w) sorted
                      ++ neither)
                     (records E self names)).
    { eapply Permutation_trans; [exact Hperm|].
      apply Permutation_sym, sort_by_date_perm, Hs. }
    exists names, (stale_records E self (clock_reads w) sorted),
           (active_records E self (clock_reads w) sorted), neither.
    unfold analysis_of. cbv zeta. cbn [a_stale_branches a_active_branches].
    split; [exact Hl|]. split; [apply Forall2_map_at|].
    split; [apply Forall2_map_at|]. split; [exact Hall|].
    intros Hnd n Hst Hac. rewrite map_d_name_map_at in Hst, Hac.
    assert (Hnames : NoDup (map name (records E self names)))
      by (rewrite records_names; now apply NoDup_filter).
    apply (Permutation_NoDup (Permutation_map name (Permutation_sym Hall)))
      in Hnames.
    rewrite !map_app in Hnames.
    apply (NoDup_app_disjoint _ _ n Hnames Hst).
    apply in_or_app. now left.
  - unfold analysis_of. cbv zeta.
    cbn [a_summary s_total_branches s_stale_branches s_active_branches].
    unfold stale_records, active_records.
    now apply filter_at_exclusive_length.
  - intros d Hd.
    apply (proj1 (bucket_entry_test E self _ sorted d)) in Hd
      as (i & j & b & _ & Hij & Hp & ->).
    cbn [dict_at d_days_since_update]. unfold stale_at in Hp.
    apply Z.gtb_gt in Hp.
    pose proof (naive_age_mono E i j b Hclock Hij). lia.
Qed.

Lemma no_branch_in_both_buckets_witness :
  exists r w',
    analyze Examples.ticking (Examples.on_main 30) world0 = (Ok r, w')
    /\ map d_name (a_stale_branches r) = ["feature-x"]
    /\ map d_name (a_active_branches r) = ["main"; "feature-y"]
    /\ (forall n, In n (map d_name (a_stale_branches r)) ->
                  ~ In n (map d_name (a_active_branches r)))
    /\ s_stale_branches (a_summary r) + s_active_branches (a_summary r)
       <= s_total_branches (a_summary r).
Proof.
  destruct (analyze Examples.ticking (Examples.on_main 30) world0)
    as [[r|e] w'] eqn:Hrun; [|vm_compute in Hrun; discriminate].
  exists r, w'. split; [reflexivity|].
  assert (Hclock : clock_never_goes_back Examples.ticking).
  { intros i j Hij. cbn [now_at Examples.ticking Concrete.env_of].
    unfold Examples.ticking_clock. lia. }
  destruct (no_branch_in_both_buckets _ _ _ _ _ Hrun Hclock)
    as ((names & stale & active & neither & Hl & _ & _ & _ & Hnames)
        & Hsum & _).
  assert (Hnd : NoDup names).
  { vm_compute in Hl. injection Hl as <-.
    repeat constructor; cbn [In]; intros H;
      repeat (destruct H as [H|H]; [discriminate H|]); exact H. }
  specialize (Hnames Hnd).
  vm_compute in Hrun. injection Hrun as <- _.
  split; [reflexivity|]. split; [reflexivity|].
  split; [exact Hnames | exact Hsum].
Defined.

(** X10. Steady ages: on every run that returns and on which the age
    in whole days of every analyzed branch is the same at every reading of
    the clock, every entry of the stale list reports an age above the
    threshold and every entry of the active list an age of at most the
    threshold; an entry whose age is exactly the threshold is active. *)
Theorem reported_age_agrees_with_bucket (E : env) (self : GitBranchAnalyzer)
    (w : world) (r : analysis) (w' : world) :
  analyze E self w = (Ok r, w') ->
  ages_steady E self ->
  (forall d, In d (a_stale_branches r) ->
             (d_days_since_update d > stale_days self)%Z)
  /\ (forall d, In d (a_active_branches r) ->
                (d_days_since_update d <= stale_days self)%Z).
Proof.
  intros H Hsteady.
  apply analyze_ok_inv in H as (names & sorted & Hl & Hs & _ & ->).
  assert (Hage : forall i j b, In b sorted ->
                               naive_age E i b = naive_age E j b).
  { intros i j b Hb. apply (Hsteady names b Hl).
    apply (Permutation_in _ (Permutation_sym (sort_by_date_perm _ _ Hs)) Hb). }
  split; intros d Hd.
  - apply (proj1 (bucket_entry_test E self _ sorted d)) in Hd
      as (i & j & b & Hb & _ & Hp & ->).
    cbn [dict_at d_days_since_update]. unfold stale_at in Hp.
    apply Z.gtb_gt in Hp. now rewrite (Hage j i b Hb).
  - apply (proj2 (bucket_entry_test E self _ sorted d)) in Hd
      as (i & j & b & Hb & _ & Hp & ->).
    cbn [dict_at d_days_since_update]. unfold active_at in Hp.
    apply Z.leb_le in Hp. now rewrite (Hage j i b Hb).
Qed.

Lemma reported_age_agrees_with_bucket_witness :
  exists r w',
    analyze Examples.scenario (Examples.on_main 45) world0 = (Ok r, w')
    /\ map d_name (a_stale_branches r) = []
    /\ map d_days_since_update (a_active_branches r) = [0; 10; 45]%Z
    /\ forall d, In d (a_active_branches r) ->
                 (d_days_since_update d <= 45)%Z.
Proof.
  destruct (analyze Examples.scenario (Examples.on_main 45) world0)
    as [[r|e] w'] eqn:Hrun; [|vm_compute in Hrun; discriminate].
  exists r, w'. split; [reflexivity|].
  destruct (reported_age_agrees_with_bucket _ _ _ _ _ Hrun) as [_ Hact].
  { intros names b _ _ i j. reflexivity. }
  vm_compute in Hrun. injection Hrun as <- _.
  repeat split. exact Hact.
Defined.

(** X11. Merged bucket: on every run that returns, every entry of the
    merged list has its merged flag set, and every entry of the stale or of
    the active list whose merged flag is set has its name in the merged
    list. *)
Theorem merged_bucket_holds_the_flagged (E : env) (self : GitBranchAnalyzer)
    (w : world) (r : analysis) (w' : world) :
  analyze E self w = (Ok r, w') ->
  (forall d, In d (a_merged_branches r) -> d_is_merged d = true)
  /\ (forall d, In d (a_stale_branches r ++ a_active_branches r) ->
                d_is_merged d = true ->
                In (d_name d) (map d_name (a_merged_branches r))).
Proof.
  intros H. apply analyze_ok_inv in H as (names & sorted & _ & _ & _ & ->).
  unfold analysis_of. cbv zeta.
  cbn [a_stale_branches a_active_branches a_merged_branches]. split.
  - intros d Hd. apply In_map_at in Hd as (i & b & Hb & ->).
    apply filter_In in Hb as [_ Hm]. exact Hm.
  - intros d Hd Hm. rewrite map_d_name_map_at.
    assert (Hb : exists i b, In b sorted /\ d = dict_at E i b).
    { apply in_app_or in Hd as [Hd|Hd];
        apply In_map_at in Hd as (i & b & Hb & ->);
        exists i, b; (split; [|reflexivity]);
        eapply subseq_In; try exact Hb; apply filter_at_subseq. }
    destruct Hb as (i & b & Hb & ->). cbn [dict_at d_name d_is_merged] in *.
    apply in_map. apply filter_In. split; assumption.
Qed.

Lemma merged_bucket_holds_the_flagged_witness :
  exists r w',
    analyze Examples.scenario (Examples.on_main 30) world0 = (Ok r, w')
    /\ map d_name (a_merged_branches r) = ["main"; "feature-x"]
    /\ forall d, In d (a_merged_branches r) -> d_is_merged d = true.
Proof.
  destruct (analyze Examples.scenario (Examples.on_main 30) world0)
    as [[r|e] w'] eqn:Hrun; [|vm_compute in Hrun; discriminate].
  exists r, w'. split; [reflexivity|].
  destruct (merged_bucket_holds_the_flagged _ _ _ _ _ Hrun) as [Hm _].
  split; [|exact Hm].
  vm_compute in Hrun. now injection Hrun as <- _.
Defined.

(** ** The most active contributors *)

Lemma bump_get (a a' : string) (authors : list (string * Z)) :
  authors_get a' (bump a authors)
  = (authors_get a' authors + (if String.eqb a a' then 1 else 0))%Z.
Proof.
  induction authors as [|[x n] rest IH]; cbn [bump authors_get].
  - destruct (String.eqb a a'); reflexivity.
  - destruct (String.eqb_spec x a) as [->|Hxa]; cbn [authors_get].
    + destruct (String.eqb a a'); lia.
    + destruct (String.eqb_spec x a') as [->|Hxa'].
      * destruct (String.eqb_spec a a'); [congruence | lia].
      * exact IH.
Qed.

Lemma bump_keys (a k : string) (authors : list (string * Z)) :
  In k (map fst (bump a authors)) <-> k = a \/ In k (map fst authors).
Proof.
  induction authors as [|[x n] rest IH]; cbn [bump map fst In].
  - intuition.
  - destruct (String.eqb_spec x a) as [->|Hxa]; cbn [map fst In].
    + intuition.
    + rewrite IH. intuition.
Qed.

Lemma bump_NoDup (a : string) (authors : list (string * Z)) :
  NoDup (map fst authors) -> NoDup (map fst (bump a authors)).
Proof.
  induction authors as [|[x n] rest IH]; cbn [bump map fst]; intros Hnd.
  - repeat constructor. intros [].
  - inversion Hnd as [|? ? Hx Hrest]; subst.
    destruct (String.eqb_spec x a) as [->|Hxa]; cbn [map fst].
    + constructor; assumption.
    + constructor; [|now apply IH].
      rewrite bump_keys. intros [->|Hin]; [congruence | contradiction].
Qed.

Lemma bump_positive (a : string) (authors : list (string * Z)) :
  Forall (fun item => (1 <= snd item)%Z) authors ->
  Forall (fun item => (1 <= snd item)%Z) (bump a authors).
Proof.
  induction authors as [|[x n] rest IH]; cbn [bump]; intros H.
  - repeat constructor. simpl. lia.
  - inversion H as [|? ? Hn Hrest]; subst. cbn [snd] in Hn.
    destruct (String.eqb x a); constructor; cbn [snd]; auto; lia.
Qed.

Lemma authors_get_In (a : string) (n : Z) (authors : list (string * Z)) :
  NoDup (map fst authors) -> In (a, n) authors -> authors_get a authors = n.
Proof.
  induction authors as [|[x m] rest IH]; cbn [map fst authors_get];
    intros Hnd Hin; [destruct Hin|].
  inversion Hnd as [|? ? Hx Hrest]; subst.
  destruct Hin as [Heq|Hin].
  - injection Heq as -> ->. now rewrite String.eqb_refl.
  - destruct (String.eqb_spec x a) as [->|_]; [|now apply IH].
    exfalso. apply Hx. apply (in_map fst) in Hin. exact Hin.
Qed.

Lemma count_authors_from (branches : list branch_dict)
    (authors : list (string * Z)) :
  NoDup (map fst authors) ->
  Forall (fun item => (1 <= snd item)%Z) authors ->
  let r := fold_left (fun acc branch => bump (d_author branch) acc)
                     branches authors in
  NoDup (map fst r)
  /\ Forall (fun item => (1 <= snd item)%Z) r
  /\ (forall a, authors_get a r
                = (authors_get a authors + branches_of a branches)%Z)
  /\ (forall k, In k (map fst r) <->
                In k (map fst authors) \/ In k (map d_author branches)).
Proof.
  revert authors; induction branches as [|b rest IH]; intros authors Hnd Hpos;
    cbn [fold_left].
  - unfold branches_of. cbn [filter List.length Z.of_nat].
    repeat split; auto; try tauto.
    + intros a. lia.
    + intros [H|[]]. exact H.
  - destruct (IH (bump (d_author b) authors)
                 (bump_NoDup _ _ Hnd) (bump_positive _ _ Hpos))
      as (Hnd' & Hpos' & Hget & Hkeys).
    repeat split; auto.
    + intros a. rewrite Hget, bump_get. unfold branches_of. cbn [filter].
      destruct (String.eqb (d_author b) a); cbn [List.length]; lia.
    + intros Hk. apply Hkeys in Hk as [Hk|Hk].
      * apply bump_keys in Hk as [->|Hk]; [right; now left | now left].
      * right. now right.
    + intros [Hk|[<-|Hk]]; apply Hkeys.
      * left. apply bump_keys. now right.
      * left. apply bump_keys. now left.
      * now right.
Qed.

(** What the dictionary of authors holds. *)
Lemma count_authors_spec (branches : list branch_dict) :
  let authors := count_authors branches in
  NoDup (map fst authors)
  /\ (forall a, authors_get a authors = branches_of a branches)
  /\ (forall a n, In (a, n) authors ->
                  n = branches_of a branches /\ (1 <= n)%Z)
  /\ (forall a, In a (map fst authors) <-> In a (map d_author branches)).
Proof.
  destruct (count_authors_from branches [] (NoDup_nil _) (Forall_nil _))
    as (Hnd & Hpos & Hget & Hkeys).
  fold (count_authors branches) in *. cbv zeta.
  split; [exact Hnd|]. split; [|split].
  - intros a. rewrite Hget. reflexivity.
  - intros a n Hin. split.
    + rewrite <- (authors_get_In a n _ Hnd Hin), Hget. reflexivity.
    + rewrite Forall_forall in Hpos. exact (Hpos (a, n) Hin).
  - intros a. rewrite Hkeys. cbn [map In]. tauto.
Qed.

(** X12. Counting authors: the dictionary built from a list of
    branches has every author of the list exactly once, and the count of
    an author is the number of branches of the list that have this author,
    which is at least one; an author of no branch is not in it. *)
Theorem count_authors_counts_branches (branches : list branch_dict) :
  let authors := count_authors branches in
  NoDup (map fst authors)
  /\ (forall a, authors_get a authors = branches_of a branches)
  /\ (forall a n, In (a, n) authors ->
                  n = branches_of a branches /\ (1 <= n)%Z)
  /\ (forall a, In a (map fst authors) <-> In a (map d_author branches)).
Proof.
  destruct (count_authors_from branches [] (NoDup_nil _) (Forall_nil _))
    as (Hnd & Hpos & Hget & Hkeys).
  fold (count_authors branches) in *. cbv zeta.
  split; [exact Hnd|]. split; [|split].
  - intros a. rewrite Hget. reflexivity.
  - intros a n Hin. split.
    + rewrite <- (authors_get_In a n _ Hnd Hin), Hget. reflexivity.
    + rewrite Forall_forall in Hpos. exact (Hpos (a, n) Hin).
  - intros a. rewrite Hkeys. cbn [map In]. tauto.
Qed.

Lemma int_lt_rank (a b : Z) (v : bool) :
  int_lt a b = Some v -> v = ((fun z : Z => z) a <? (fun z : Z => z) b)%Z.
Proof. unfold int_lt. intros H. now injection H as <-. Qed.

(** Sorting by count never takes the branch of a failed comparison. *)
Lemma sorted_by_count_sorts (items : list (string * Z)) :
  sort_desc snd int_lt items = Ok (sorted_by_count items).
Proof.
  unfold sorted_by_count.
  destruct (sort_desc_total snd int_lt items) as [r Hr];
    [intros a b _ _; discriminate|].
  now rewrite Hr.
Qed.

Lemma strongly_sorted_app_inv {A} (R : A -> A -> Prop) (l1 l2 : list A) :
  StronglySorted R (l1 ++ l2) ->
  forall x y, In x l1 -> In y l2 -> R x y.
Proof.
  induction l1 as [|a l1 IH]; cbn [app]; intros Hs x y Hx Hy; [destruct Hx|].
  inversion Hs as [|? ? Hs' Hall]; subst. destruct Hx as [<-|Hx].
  - rewrite Forall_forall in Hall. apply Hall. apply in_or_app. now right.
  - now apply IH.
Qed.

(** X13. Leaderboard of the report: the section of the most active
    contributors is printed only when there are active branches; it shows
    at most five authors, each once, in descending order of their counts,
    each with the number of active branches of that author; and no author
    left out has more active branches than an author shown. *)
Theorem leaderboard_shows_top_authors (a : analysis) :
  let active := a_active_branches a in
  let board := leaderboard a in
  (active = [] -> contributors_section a = [])
  /\ (active <> [] ->
      exists heading,
        contributors_section a = heading :: map contributor_line board)
  /\ List.length board <= 5
  /\ NoDup (map fst board)
  /\ StronglySorted (fun x y => (snd y <= snd x)%Z) board
  /\ (forall author n, In (author, n) board ->
                       n = branches_of author active /\ (1 <= n)%Z)
  /\ (forall author n other,
         In (author, n) board ->
         In other (map d_author active) ->
         ~ In other (map fst board) ->
         (branches_of other active <= n)%Z).
Proof.
  intros active board. unfold board, leaderboard. fold active.
  set (authors := count_authors active).
  set (sorted := sorted_by_count authors).
  pose proof (sorted_by_count_sorts authors) as Hsort. fold sorted in Hsort.
  pose proof (sort_desc_perm _ _ _ _ Hsort) as Hperm.
  pose proof (sort_desc_sorted snd int_lt (fun z => z) int_lt_rank _ _ Hsort)
    as Hsorted.
  destruct (count_authors_spec active)
    as (Hnd & Hget & Hcount & Hkeys).
  fold authors in Hnd, Hget, Hcount, Hkeys.
  assert (Hsplit : sorted = firstn 5 sorted ++ skipn 5 sorted)
    by (symmetry; apply firstn_skipn).
  assert (Hin : forall item, In item (firstn 5 sorted) -> In item authors).
  { intros item Hi. apply (Permutation_in _ (Permutation_sym Hperm)).
    rewrite Hsplit. apply in_or_app. now left. }
  assert (Hnd_sorted : NoDup (map fst sorted)).
  { eapply Permutation_NoDup; [|exact Hnd]. now apply Permutation_map. }
  split; [|split; [|split; [|split; [|split; [|split]]]]].
  - unfold contributors_section. fold active. intros ->. reflexivity.
  - intros Hne. unfold contributors_section. fold active.
    destruct active as [|b rest] eqn:Hact; [congruence|].
    eexists. cbn [app]. reflexivity.
  - apply firstn_le_length.
  - rewrite Hsplit, map_app in Hnd_sorted.
    now apply NoDup_app_remove_r in Hnd_sorted.
  - rewrite Hsplit in Hsorted.
    clear - Hsorted. revert Hsorted. generalize (skipn 5 sorted).
    induction (firstn 5 sorted) as [|x l IH]; intros rest Hs; [constructor|].
    cbn [app] in Hs. inversion Hs as [|? ? Hs' Hall]; subst.
    constructor; [now apply (IH rest)|].
    rewrite Forall_forall in *. intros y Hy. apply Hall.
    apply in_or_app. now left.
  - intros author n Hi. apply Hcount. now apply Hin.
  - intros author n other Hi Hother Hout.
    assert (Hkey : In other (map fst sorted)).
    { apply (Permutation_in _ (Permutation_map fst Hperm)). now apply Hkeys. }
    rewrite Hsplit, map_app in Hkey. apply in_app_or in Hkey as [Hk|Hk];
      [contradiction|].
    apply in_map_iff in Hk as ([o m] & Ho & Hm). cbn [fst] in Ho. subst o.
    assert (Hm' : In (other, m) authors).
    { apply (Permutation_in _ (Permutation_sym Hperm)).
      rewrite Hsplit. apply in_or_app. now right. }
    destruct (Hcount other m Hm') as [-> _].
    rewrite Hsplit in Hsorted.
    exact (strongly_sorted_app_inv _ _ _ Hsorted _ _ Hi Hm).
Qed.

Lemma count_authors_counts_branches_witness :
  count_authors (a_active_branches Examples.busy)
    = [("Bob", 1); ("Ann", 3); ("Cy", 2); ("Dee", 1); ("Eve", 1);
       ("Fay", 1); ("Gus", 1)]%Z
  /\ branches_of "Ann" (a_active_branches Examples.busy) = 3%Z.
Proof.
  split; [reflexivity|].
  destruct (count_authors_counts_branches (a_active_branches Examples.busy))
    as (_ & _ & Hcount & _).
  symmetry. apply (Hcount "Ann" 3%Z). right. left. reflexivity.
Defined.

Lemma leaderboard_shows_top_authors_witness :
  leaderboard Examples.busy
    = [("Ann", 3); ("Cy", 2); ("Bob", 1); ("Dee", 1); ("Eve", 1)]%Z
  /\ (branches_of "Gus" (a_active_branches Examples.busy) <= 1)%Z.
Proof.
  split; [reflexivity|].
  destruct (leaderboard_shows_top_authors Examples.busy)
    as (_ & _ & _ & _ & _ & _ & Htop).
  apply (Htop "Eve" 1%Z "Gus").
  - vm_compute. auto 10.
  - vm_compute. auto 20.
  - vm_compute. intros [H|[H|[H|[H|[H|[]]]]]]; discriminate.
Defined.

(** ** main *)

Lemma init_ok (E : env) (days : Z) (remote : bool) (cur listing : string)
    (w : world) :
  run_value E ["rev-parse"; "--abbrev-ref"; "HEAD"] = Ok cur ->
  run_value E ["branch"; "-a"] = Ok listing ->
  exists w1,
    GitBranchAnalyzer_init E days remote w
      = (Ok (constructed days remote cur listing), w1)
    /\ clock_reads w1 = clock_reads w.
Proof.
  intros Hcur Hl.
  unfold GitBranchAnalyzer_init, _get_current_branch, _get_default_branch, bind.
  rewrite !run_git_command_eq, Hcur, Hl. unfold ret.
  eexists. split; reflexivity.
Qed.

(** X14. Outcome of [main]: whenever [main] returns, either the exit
    status is 0 and the standard output is the rendering, in the format
    asked for, of the analysis of the analyzer constructed with the given
    threshold and remote flag; or the exit status is 1, nothing is written
    to the standard output, and the last line of the error stream is the
    not-a-repository message or the error of the analysis. *)
Theorem main_outcome (E : env) (days : Z) (remote json : bool) (w : world)
    (out : list printed) (code : Z) (w' : world) :
  main E days remote json w = (Ok (out, code), w') ->
  (code = 0%Z
   /\ exists self w1 a,
        analyze E self w1 = (Ok a, w')
        /\ stale_days self = days /\ include_remote self = remote
        /\ out = rendered json a)
  \/ (code = 1%Z /\ out = []
      /\ exists before line,
           err_stream w' = before ++ [line]
           /\ (line = ErrorNotARepo
               \/ exists e, line = ErrorDuringAnalysis e)).
Proof.
  unfold main. destruct (git E _) as [rc o e|what]; [|discriminate].
  destruct (negb (rc =? 0)%Z).
  - unfold bind, eprint, ret. intros H. injection H as <- <- <-. right.
    repeat split. cbn [err_stream].
    exists (err_stream w), ErrorNotARepo. split; auto.
  - intros H. apply bind_ok_inv in H as (self & w1 & Hinit & H).
    apply init_inv in Hinit as (cur & listing & _ & _ & ->).
    unfold try_except in H.
    match type of H with
    | match ?m w1 with _ => _ end = _ =>
        destruct (m w1) as [[v|ex] w2] eqn:Hin
    end.
    + apply bind_ok_inv in Hin as (a & w3 & Hrun & Hret).
      apply ret_inv in Hret as [Hv Hw]. subst w3.
      injection H as Hvc Hw2. subst v w2.
      injection Hvc as <- <-. left.
      split; [reflexivity|]. eexists _, w1, a.
      split; [exact Hrun|]. repeat split.
    + unfold bind, eprint, ret in H. injection H as <- <- <-. right.
      repeat split. cbn [err_stream].
      exists (err_stream w2), (ErrorDuringAnalysis ex). split; eauto.
Qed.

Lemma main_outcome_witness :
  (exists out w',
      main Examples.scenario 30 false false world0 = (Ok (out, 0%Z), w')
      /\ exists a, out = rendered false a)
  /\ (exists w',
         main Examples.no_repo 30 false true world0 = (Ok ([], 1%Z), w')
         /\ exists before, err_stream w' = before ++ [ErrorNotARepo]).
Proof.
  split.
  - destruct (main Examples.scenario 30 false false world0)
      as [[[out code]|e] w'] eqn:Hrun; [|vm_compute in Hrun; discriminate].
    assert (Hcode : code = 0%Z)
      by (vm_compute in Hrun; now injection Hrun as _ <- _).
    subst code. exists out, w'. split; [reflexivity|].
    destruct (main_outcome _ _ _ _ _ _ _ _ Hrun)
      as [(_ & self & w1 & a & _ & _ & _ & ->)|(Hone & _)];
      [eauto | discriminate].
  - destruct (main Examples.no_repo 30 false true world0)
      as [[[out code]|e] w'] eqn:Hrun; [|vm_compute in Hrun; discriminate].
    assert (Hcode : code = 1%Z)
      by (vm_compute in Hrun; now injection Hrun as _ <- _).
    subst code.
    destruct (main_outcome _ _ _ _ _ _ _ _ Hrun)
      as [(Hzero & _)|(_ & -> & before & line & Herr & _)]; [discriminate|].
    exists w'. split; [reflexivity|].
    vm_compute in Hrun. injection Hrun as <-. now exists [].
Defined.

(** X15. Dates with a UTC offset: when the repository check passes, the
    constructor succeeds, the listing does not raise, and the date of the
    record of some listed branch carries a UTC offset, [main] writes
    nothing to the standard output, reports the error of mixing naive and
    aware dates on the error stream, and exits with status 1, in either
    output format. *)
Theorem main_exits_1_on_aware_date (E : env) (days : Z) (remote json : bool)
    (w : world) (o e cur listing : string) (names : list string)
    (b : BranchInfo) :
  git E repo_check = Exited 0 o e ->
  run_value E ["rev-parse"; "--abbrev-ref"; "HEAD"] = Ok cur ->
  run_value E ["branch"; "-a"] = Ok listing ->
  let self := constructed days remote cur listing in
  listed E self = Ok names ->
  In b (records E self names) ->
  is_aware (last_commit_date b) = true ->
  exists w',
    main E days remote json w = (Ok ([], 1%Z), w')
    /\ exists before,
         err_stream w' = before ++ [ErrorDuringAnalysis NaiveAwareError].
Proof.
  intros Hcheck Hcur Hl self Hnames Hb Haware.
  destruct (init_ok E days remote cur listing w Hcur Hl) as (w1 & Hinit & _).
  destruct (aware_record_aborts E self w1 names b Hnames Hb) as [w2 Hrun].
  { unfold naive. now rewrite Haware. }
  unfold main. fold repo_check. rewrite Hcheck. cbn [Z.eqb negb].
  unfold bind at 1. rewrite Hinit. fold self.
  unfold try_except. unfold bind at 1. rewrite Hrun.
  unfold bind, eprint, ret. eexists. split; [reflexivity|].
  cbn [err_stream]. eauto.
Qed.

Lemma records_intro E self names branch b :
  In branch names -> inspect E self branch = Some b ->
  In b (records E self names).
Proof.
  intros Hin Hi. unfold records. apply in_flat_map. exists branch.
  split; [exact Hin|]. rewrite Hi. now left.
Qed.

Lemma main_exits_1_on_aware_date_witness :
  exists w',
    main Examples.real_repo 30 false true world0 = (Ok ([], 1%Z), w').
Proof.
  destruct (inspect Examples.real_repo
              (constructed 30 false "main" (strip (Examples.lines ["* main"])))
              "main") as [b|] eqn:Hb; [|vm_compute in Hb; discriminate].
  destruct (main_exits_1_on_aware_date Examples.real_repo 30 false true
              world0 (Examples.lines [".git"]) EmptyString "main"
              (strip (Examples.lines ["* main"])) ["main"] b)
    as (w' & Hmain & _); try reflexivity.
  - apply (records_intro _ _ _ "main"); [now left | exact Hb].
  - vm_compute in Hb. now injection Hb as <-.
  - now exists w'.
Defined.

(** X16. No record: when the repository check passes, the constructor
    succeeds, and the listing yields no record (no branch is listed, or
    every inspection fails), [main] exits with status 0 and renders the
    analysis whose three lists are empty and whose four counts are zero. *)
Theorem main_renders_empty_analysis (E : env) (days : Z) (remote json : bool)
    (w : world) (o e cur listing : string) (names : list string) :
  git E repo_check = Exited 0 o e ->
  run_value E ["rev-parse"; "--abbrev-ref"; "HEAD"] = Ok cur ->
  run_value E ["branch"; "-a"] = Ok listing ->
  let self := constructed days remote cur listing in
  listed E self = Ok names ->
  records E self names = [] ->
  exists w',
    main E days remote json w
      = (Ok (rendered json (empty_analysis self), 0%Z), w').
Proof.
  intros Hcheck Hcur Hl self Hnames Hnone.
  destruct (init_ok E days remote cur listing w Hcur Hl) as (w1 & Hinit & _).
  destruct (analyze_eq E self w1) as [w2 Hrun].
  unfold analyze_value in Hrun. rewrite Hnames, Hnone in Hrun.
  cbn [sort_by_date sort_desc forallb] in Hrun.
  unfold main. fold repo_check. rewrite Hcheck. cbn [Z.eqb negb].
  unfold bind at 1. rewrite Hinit. fold self.
  unfold try_except. unfold bind at 1. rewrite Hrun.
  unfold ret. exists w2. reflexivity.
Qed.

Lemma main_renders_empty_analysis_witness :
  exists w',
    main Examples.empty_repo 30 false true world0
      = (Ok ([PrintedJson
                (mk_analysis (mk_summary 0 0 0 0 "HEAD" "master" 30)
                             [] [] [])], 0%Z), w').
Proof.
  destruct (main_renders_empty_analysis Examples.empty_repo 30 false true
              world0 (Examples.lines [".git"]) EmptyString "HEAD" EmptyString
              [])
    as (w' & Hmain); try reflexivity.
  now exists w'.
Defined.

(** X17. Exceptions of the constructor: when the repository check
    passes and a command of the constructor raises, [main] raises that
    exception itself: it prints no "Error during analysis" line and sets
    no exit status of its own. *)
Theorem constructor_exception_escapes_main (E : env) (days : Z)
    (remote json : bool) (w : world) (o e : string) (ex : exn) :
  git E repo_check = Exited 0 o e ->
  run_value E ["rev-parse"; "--abbrev-ref"; "HEAD"] = Raise ex
  \/ ((exists cur, run_value E ["rev-parse"; "--abbrev-ref"; "HEAD"] = Ok cur)
      /\ run_value E ["branch"; "-a"] = Raise ex) ->
  exists w',
    main E days remote json w = (Raise ex, w')
    /\ forall line, In line (err_stream w') ->
                    In line (err_stream w)
                    \/ exists args rc err,
                         line = ErrorRunningGit args rc \/ line = StderrOf err.
Proof.
  intros Hcheck Hraise.
  unfold main. fold repo_check. rewrite Hcheck. cbn [Z.eqb negb].
  unfold bind at 1.
  unfold GitBranchAnalyzer_init, _get_current_branch, _get_default_branch, bind.
  rewrite !run_git_command_eq.
  assert (Hdiags : forall args line,
             In line (run_diags E args) ->
             exists a rc err, line = ErrorRunningGit a rc \/ line = StderrOf err).
  { intros args line. unfold run_diags.
    destruct (git E args) as [rc o' e'|]; [|intros []].
    destruct (rc =? 0)%Z; [intros []|].
    intros [<-|[<-|[]]]; exists args, rc, e'; auto. }
  destruct Hraise as [Hcur|[[cur Hcur] Hl]].
  - rewrite Hcur. eexists. split; [reflexivity|].
    cbn [err_stream add_diags]. intros line Hin.
    apply in_app_or in Hin as [Hin|Hin]; [now left|right; eauto].
  - rewrite Hcur, Hl. eexists. split; [reflexivity|].
    cbn [err_stream add_diags]. intros line Hin.
    apply in_app_or in Hin as [Hin|Hin]; [|right; eauto].
    apply in_app_or in Hin as [Hin|Hin]; [now left|right; eauto].
Qed.

Lemma constructor_exception_escapes_main_witness :
  exists w',
    main Examples.undecodable 30 false false world0
      = (Raise (RunError "UnicodeDecodeError"), w').
Proof.
  destruct (constructor_exception_escapes_main Examples.undecodable 30 false
              false world0 (Examples.lines [".git"]) EmptyString
              (RunError "UnicodeDecodeError") eq_refl)
    as (w' & Hmain & _).
  - right. split; [now exists "main" | reflexivity].
  - now exists w'.
Defined.

(** ** Further properties of the inspector and of the output *)

(** X18. Merged flag as computed: for a branch that yields a record,
    the merged flag is set exactly when the name of the branch is a
    substring of some line of the listing of merged branches; hence it is
    set whenever the name is a word of the listing, and it is unset for a
    named branch when the listing is empty. *)
Theorem merged_flag_characterised (E : env) (self : GitBranchAnalyzer)
    (branch : string) (info : BranchInfo) :
  inspect E self branch = Some info ->
  exists listing,
    run_value E (merged_query self) = Ok listing
    /\ (is_merged info = true <->
        exists line, In line (split LF listing)
                     /\ contains branch line = true)
    /\ (In branch (split_ws listing) -> is_merged info = true)
    /\ (listing = EmptyString -> branch <> EmptyString ->
        is_merged info = false).
Proof.
  intros H. apply inspect_some_iff in H
    as (ci & sha & ds & au & msg & cd & co & mo & n
        & _ & _ & _ & _ & _ & Hmo & _ & ->).
  exists mo. cbn [is_merged]. split; [exact Hmo|]. split; [|split].
  - apply existsb_exists.
  - intros Hword. apply (token_appears_in_a_line branch mo).
    unfold appears_as_token. apply existsb_exists.
    exists branch. split; [exact Hword | apply String.eqb_refl].
  - intros -> Hb. cbn [split existsb]. now rewrite (contains_in_empty _ Hb).
Qed.

Lemma merged_flag_characterised_witness :
  exists info,
    inspect Examples.scenario (Examples.on_main 30) "feature-x" = Some info
    /\ is_merged info = true.
Proof.
  destruct (inspect Examples.scenario (Examples.on_main 30) "feature-x")
    as [info|] eqn:Hi; [|vm_compute in Hi; discriminate].
  exists info. split; [reflexivity|].
  destruct (merged_flag_characterised _ _ _ _ Hi)
    as (listing & Hl & _ & Hword & _).
  apply Hword. vm_compute in Hl. injection Hl as <-.
  vm_compute. auto.
Defined.

(** X19. Entries of the output: on every run that returns, every entry
    of the three lists is the dictionary of the record that the inspection
    of a listed branch of that name yields: its hash, subject, author,
    commit count, merged flag and ahead/behind pair are those of the
    record, and its date is the ISO text of the date of the record. *)
Theorem entries_report_inspected_records (E : env)
    (self : GitBranchAnalyzer) (w : world) (r : analysis) (w' : world)
    (d : branch_dict) :
  analyze E self w = (Ok r, w') ->
  In d (a_stale_branches r ++ a_active_branches r ++ a_merged_branches r) ->
  exists names b,
    listed E self = Ok names
    /\ In (d_name d) names
    /\ inspect E self (d_name d) = Some b
    /\ d_last_commit_sha d = last_commit_sha b
    /\ d_last_commit_msg d = last_commit_msg b
    /\ d_author d = author b
    /\ d_commit_count d = commit_count b
    /\ d_is_merged d = is_merged b
    /\ d_ahead_behind d = ahead_behind b
    /\ d_last_commit_date d = isoformat E (last_commit_date b)
    /\ exists k, d_days_since_update d = naive_age E k b.
Proof.
  intros Hrun Hd.
  destruct (bucket_entry_origin _ _ _ _ _ _ Hrun Hd)
    as (names & b & Hl & Hin & Hi & [k Hk]).
  exists names, b.
  split; [exact Hl|]. split; [exact Hin|]. split; [exact Hi|].
  rewrite Hk. cbn [dict_at d_last_commit_sha d_last_commit_msg d_author
                   d_commit_count d_is_merged d_ahead_behind
                   d_last_commit_date d_days_since_update].
  repeat split. now exists k.
Qed.

Lemma entries_report_inspected_records_witness :
  exists r w' d,
    analyze Examples.scenario (Examples.on_main 30) world0 = (Ok r, w')
    /\ a_stale_branches r = [d]
    /\ d_name d = "feature-x"
    /\ exists b,
         inspect Examples.scenario (Examples.on_main 30) (d_name d) = Some b
         /\ d_commit_count d = commit_count b.
Proof.
  destruct (analyze Examples.scenario (Examples.on_main 30) world0)
    as [[r|e] w'] eqn:Hrun; [|vm_compute in Hrun; discriminate].
  destruct (a_stale_branches r) as [|d [|d' l]] eqn:Hst;
    try (vm_compute in Hrun; injection Hrun as <- _; discriminate).
  exists r, w', d. split; [reflexivity|]. split; [exact Hst|].
  destruct (entries_report_inspected_records _ _ _ _ _ d Hrun)
    as (names & b & _ & _ & Hi & _ & _ & _ & Hcount & _).
  { rewrite Hst. now left. }
  split; [|exists b; split; assumption].
  vm_compute in Hrun. injection Hrun as <- _.
  injection Hst as <-. reflexivity.
Defined.

(** [main], read by cases on the repository check, the constructor and
    the analysis. *)
Lemma main_eq (E : env) (days : Z) (remote json : bool) (w : world) :
  main E days remote json w =
  match git E repo_check with
  | RunRaised what => (Raise (RunError what), w)
  | Exited rc _ _ =>
      if negb (rc =? 0)%Z then (Ok ([], 1%Z), add_diags w [ErrorNotARepo])
      else
        match GitBranchAnalyzer_init E days remote w with
        | (Raise ex, w1) => (Raise ex, w1)
        | (Ok self, w1) =>
            match analyze E self w1 with
            | (Ok a, w2) => (Ok (rendered json a, 0%Z), w2)
            | (Raise ex, w2) =>
                (Ok ([], 1%Z), add_diags w2 [ErrorDuringAnalysis ex])
            end
        end
  end.
Proof.
  unfold main. fold repo_check.
  destruct (git E repo_check) as [rc o e|what]; [|reflexivity].
  destruct (negb (rc =? 0)%Z); [reflexivity|].
  unfold bind at 1.
  destruct (GitBranchAnalyzer_init E days remote w) as [[self|ex] w1];
    [|reflexivity].
  unfold try_except, bind at 1.
  destruct (analyze E self w1) as [[a|ex] w2]; reflexivity.
Qed.

(** X20. Output format: the choice between JSON and text changes
    nothing but the rendering: both runs of [main] end alike (the same
    exit status and the same error stream, or the same exception), and
    when the status is 0 the two outputs render one and the same analysis,
    while with status 1 both are empty. *)
Theorem format_changes_only_rendering (E : env) (days : Z) (remote : bool)
    (w : world) :
  match main E days remote true w, main E days remote false w with
  | (Ok (out_json, code_json), w_json), (Ok (out_text, code_text), w_text) =>
      code_json = code_text /\ w_json = w_text
      /\ ((code_json = 0%Z /\
           exists a, out_json = rendered true a /\ out_text = rendered false a)
          \/ (code_json = 1%Z /\ out_json = [] /\ out_text = []))
  | (Raise e_json, w_json), (Raise e_text, w_text) =>
      e_json = e_text /\ w_json = w_text
  | _, _ => False
  end.
Proof.
  rewrite !main_eq.
  destruct (git E repo_check) as [rc o e|what]; [|auto].
  destruct (negb (rc =? 0)%Z).
  - repeat split. right. auto.
  - destruct (GitBranchAnalyzer_init E days remote w) as [[self|ex] w1];
      [|auto].
    destruct (analyze E self w1) as [[a|ex] w2].
    + repeat split. left. split; [reflexivity|].
      exists a. split; reflexivity.
    + repeat split. right. auto.
Qed.
